(** * multi-cam-sync: the capture session and the command dispatcher

    A shallow embedding of [camera_types.py], [camera_manager.py] and
    [ipc_handler.py].  Python objects live in a store addressed by
    reference, the two units of execution (the command loop and the
    acquisition threads) are scheduled one atomic step at a time, and the
    outcome of every call into the driver, the file system and the clock
    is supplied by an environment record. *)

From Stdlib Require Import ZArith String Ascii List Floats Lia Sorted.
From stdpp Require Import base option list gmap.
Import ListNotations.
Local Open Scope string_scope.
Local Open Scope Z_scope.

Set Warnings "-register-all".

(* ================================================================== *)
(** ** Python values *)
(* ================================================================== *)

(** [camera_types.TriggerMode] and [camera_types.TriggerActivation]. *)
Inductive TriggerMode := SOFTWARE | HARDWARE.
Inductive TriggerActivation := RISING_EDGE | FALLING_EDGE | LEVEL_HIGH | LEVEL_LOW.

(** The dynamically typed values the program stores and sends: what
    [json.loads] produces, plus the two enumerations.  A [dict] keeps its
    insertion order. *)
Inductive Value :=
| VNone
| VBool (b : bool)
| VInt (z : Z)
| VFloat (f : float)
| VStr (s : string)
| VList (l : list Value)
| VDict (d : list (string * Value))
| VTriggerMode (m : TriggerMode)
| VTriggerActivation (a : TriggerActivation).

(** [type(v).__name__] *)
Definition type_name (v : Value) : string :=
  match v with
  | VNone => "NoneType"
  | VBool _ => "bool"
  | VInt _ => "int"
  | VFloat _ => "float"
  | VStr _ => "str"
  | VList _ => "list"
  | VDict _ => "dict"
  | VTriggerMode _ => "TriggerMode"
  | VTriggerActivation _ => "TriggerActivation"
  end.

(** [Enum.value] *)
Definition TriggerMode_value (m : TriggerMode) : string :=
  match m with SOFTWARE => "software" | HARDWARE => "hardware" end.

Definition TriggerActivation_value (a : TriggerActivation) : string :=
  match a with
  | RISING_EDGE => "RisingEdge"
  | FALLING_EDGE => "FallingEdge"
  | LEVEL_HIGH => "LevelHigh"
  | LEVEL_LOW => "LevelLow"
  end.

(** Python truthiness ([bool(v)]). *)
Definition truthy (v : Value) : bool :=
  match v with
  | VNone => false
  | VBool b => b
  | VInt z => negb (z =? 0)
  | VFloat f => negb (PrimFloat.eqb f 0%float)
  | VStr s => negb (String.eqb s "")
  | VList l => match l with [] => false | _ => true end
  | VDict d => match d with [] => false | _ => true end
  | VTriggerMode _ | VTriggerActivation _ => true
  end.

(** [v == "literal"] for a string literal on the right. *)
Definition eq_str (v : Value) (s : string) : bool :=
  match v with VStr t => String.eqb t s | _ => false end.

(** [d.get(key)] on the items of a dict, whose keys are distinct: [None]
    when the key is absent. *)
Fixpoint dict_lookup (key : string) (d : list (string * Value)) : option Value :=
  match d with
  | [] => None
  | (k, v) :: rest => if String.eqb k key then Some v else dict_lookup key rest
  end.

(** Exceptions: the class name and the message [str(e)] prints. *)
Record Exn := mkExn { exn_class : string; exn_msg : string }.

Definition AttributeError (msg : string) : Exn := mkExn "AttributeError" msg.
Definition TypeError (msg : string) : Exn := mkExn "TypeError" msg.

(** [cmd.get(key, default)]: an attribute error on anything but a dict. *)
Definition py_get (cmd : Value) (key : string) (default : Value) : Exn + Value :=
  match cmd with
  | VDict d => inr (match dict_lookup key d with Some v => v | None => default end)
  | _ => inl (AttributeError "object has no attribute 'get'")
  end.

(* ================================================================== *)
(** ** Strings: [str.strip], [str.lower], [format(n, "06d")] *)
(* ================================================================== *)

(** A Python [str] is held as its UTF-8 encoding, one [ascii] per byte.

    [str.isspace] on a character of one byte: tab to carriage return, the
    four separators 28 to 31, and the space. *)
Definition is_space (c : ascii) : bool :=
  let n := nat_of_ascii c in
  ((9 <=? n) && (n <=? 13) || (28 <=? n) && (n <=? 32))%nat.

(** The white-space characters of two bytes: U+0085 (C2 85) and U+00A0
    (C2 A0). *)
Definition is_space2 (a b : ascii) : bool :=
  let x := nat_of_ascii a in
  let y := nat_of_ascii b in
  ((x =? 194) && ((y =? 133) || (y =? 160)))%nat.

(** The white-space characters of three bytes: U+1680 (E1 9A 80), U+2000
    to U+200A (E2 80 80 to 8A), U+2028, U+2029 and U+202F (E2 80 A8, A9
    and AF), U+205F (E2 81 9F) and U+3000 (E3 80 80). *)
Definition is_space3 (a b c : ascii) : bool :=
  let x := nat_of_ascii a in
  let y := nat_of_ascii b in
  let z := nat_of_ascii c in
  ((x =? 225) && (y =? 154) && (z =? 128)
   || (x =? 226) && (y =? 128)
      && ((128 <=? z) && (z <=? 138) || (z =? 168) || (z =? 169) || (z =? 175))
   || (x =? 226) && (y =? 129) && (z =? 159)
   || (x =? 227) && (y =? 128) && (z =? 128))%nat.

(** The string is one white-space character. *)
Definition one_space (s : string) : bool :=
  match s with
  | String a EmptyString => is_space a
  | String a (String b EmptyString) => is_space2 a b
  | String a (String b (String c EmptyString)) => is_space3 a b c
  | _ => false
  end.

Fixpoint lstrip (s : string) : string :=
  match s with
  | String a rest =>
      if is_space a then lstrip rest
      else
        match rest with
        | String b rest2 =>
            if is_space2 a b then lstrip rest2
            else
              match rest2 with
              | String c rest3 => if is_space3 a b c then lstrip rest3 else s
              | EmptyString => s
              end
        | EmptyString => s
        end
  | EmptyString => EmptyString
  end.

Fixpoint rstrip (s : string) : string :=
  match s with
  | String c rest =>
      let kept := String c (rstrip rest) in
      if one_space kept then EmptyString else kept
  | EmptyString => EmptyString
  end.

(** [line.strip()] *)
Definition strip (s : string) : string := rstrip (lstrip s).

Definition lower_char (c : ascii) : ascii :=
  let n := nat_of_ascii c in
  if ((65 <=? n) && (n <=? 90))%nat then ascii_of_nat (n + 32) else c.

Fixpoint lower (s : string) : string :=
  match s with
  | String c rest => String (lower_char c) (lower rest)
  | EmptyString => EmptyString
  end.

Definition digit_char (d : Z) : ascii := ascii_of_nat (48 + Z.to_nat d).

(** Decimal digits of [n >= 0], most significant first, pushed in front of
    [acc]; [fuel] bounds the number of digits. *)
Fixpoint dec_digits (fuel : nat) (n : Z) (acc : string) : string :=
  match fuel with
  | O => acc
  | S k =>
      let acc' := String (digit_char (n mod 10)) acc in
      if n / 10 =? 0 then acc' else dec_digits k (n / 10) acc'
  end.

Definition decimal (n : Z) : string :=
  dec_digits (S (Z.to_nat (Z.log2 n))) n "".

Fixpoint zeros (k : nat) : string :=
  match k with O => "" | S k' => String "0" (zeros k') end.

Definition zero_pad (width : nat) (s : string) : string :=
  zeros (width - String.length s) ++ s.

(** [f"{n:06d}"]: sign first, then zeros up to a total width of six; a
    longer number is printed in full. *)
Definition format_06d (n : Z) : string :=
  if n <? 0 then "-" ++ zero_pad 5 (decimal (- n)) else zero_pad 6 (decimal n).

(** [pathlib.Path], in its POSIX flavour: the anchor (nothing, one slash,
    or two slashes when the text starts with exactly two) and the parts.
    Parsing drops empty parts and the parts [.], so that repeated and
    trailing separators disappear; [..] is kept. *)
Record Path := mkPath { anchor : string; parts : list string }.

(** [s.split("/")] *)
Fixpoint split_slash (s : string) : list string :=
  match s with
  | EmptyString => [EmptyString]
  | String c rest =>
      if Ascii.eqb c "/"%char then EmptyString :: split_slash rest
      else
        match split_slash rest with
        | x :: xs => String c x :: xs
        | [] => [String c EmptyString]
        end
  end.

Fixpoint leading_slashes (s : string) : nat :=
  match s with
  | String c rest => if Ascii.eqb c "/"%char then S (leading_slashes rest) else O
  | EmptyString => O
  end.

Definition is_part (x : string) : bool :=
  negb (String.eqb x "") && negb (String.eqb x ".").

(** [Path(s)] *)
Definition Path_of (s : string) : Path :=
  mkPath
    (match leading_slashes s with
     | O => ""
     | 2%nat => "//"
     | _ => "/"
     end)
    (List.filter is_part (split_slash s)).

(** [p / name]: a [name] that starts with a slash replaces [p]. *)
Definition path_div (p : Path) (name : string) : Path :=
  let q := Path_of name in
  if String.eqb (anchor q) "" then mkPath (anchor p) (parts p ++ parts q)
  else q.

Fixpoint join_slash (l : list string) : string :=
  match l with
  | [] => ""
  | [x] => x
  | x :: rest => x ++ "/" ++ join_slash rest
  end.

(** [str(p)] *)
Definition path_str (p : Path) : string :=
  match anchor p, parts p with
  | EmptyString, [] => "."
  | a, l => a ++ join_slash l
  end.

(* ================================================================== *)
(** ** camera_types.py *)
(* ================================================================== *)

(** [CameraSettings]: a mutable dataclass; [setattr] stores any value in
    any field, so the fields hold [Value]s. *)
Module CameraSettings.
Record t := mk {
  exposure_time : Value;
  gain : Value;
  gamma : Value;
  trigger_mode : Value;
  trigger_source : Value;
  trigger_activation : Value;
  camera_ip : Value;
  camera_id : Value;
  camera_name : Value
}.

(** The dataclass defaults, with the two keyword arguments
    [_handle_init] passes. *)
Definition init (ip id : Value) : t :=
  mk (VFloat 8000%float) (VInt 0) (VFloat 1%float)
     (VTriggerMode HARDWARE) (VStr "Line1") (VTriggerActivation RISING_EDGE)
     ip id VNone.

(** The nine dataclass fields. *)
Definition is_field (key : string) : bool :=
  existsb (String.eqb key)
    ["exposure_time"; "gain"; "gamma"; "trigger_mode"; "trigger_source";
     "trigger_activation"; "camera_ip"; "camera_id"; "camera_name"].

(** The attributes an instance has besides its fields, from [object] and
    from the dataclass decorator (the names [dir] lists under
    Python 3.11).  The first three are the data descriptors: assigning to
    them does not store an attribute.  The others are ordinary
    attributes of the class: an assignment stores an attribute of that
    name in the instance and leaves the fields as they are, which is also
    what [update_settings] does with a name the instance does not
    have. *)
Definition object_attributes : list string :=
  ["__class__"; "__dict__"; "__weakref__";
   "__doc__"; "__module__"; "__init__"; "__repr__"; "__eq__"; "__hash__";
   "__annotations__"; "__match_args__"; "__getstate__";
   "__dataclass_fields__"; "__dataclass_params__";
   "__new__"; "__setattr__"; "__getattribute__"; "__delattr__"; "__str__";
   "__ne__"; "__lt__"; "__le__"; "__gt__"; "__ge__"; "__format__"; "__dir__";
   "__reduce__"; "__reduce_ex__"; "__sizeof__"; "__subclasshook__";
   "__init_subclass__"].

(** [hasattr(settings, key)] *)
Definition hasattr (key : string) : bool :=
  is_field key || existsb (String.eqb key) object_attributes.

(** [settings.<key> = value] for a field [key].  Under any other name an
    assignment stores an attribute in the instance dictionary, of which
    the program reads nothing but the fields: the settings are as they
    were. *)
Definition setattr (key : string) (v : Value) (s : t) : t :=
  if String.eqb key "exposure_time" then
    mk v (gain s) (gamma s) (trigger_mode s) (trigger_source s)
       (trigger_activation s) (camera_ip s) (camera_id s) (camera_name s)
  else if String.eqb key "gain" then
    mk (exposure_time s) v (gamma s) (trigger_mode s) (trigger_source s)
       (trigger_activation s) (camera_ip s) (camera_id s) (camera_name s)
  else if String.eqb key "gamma" then
    mk (exposure_time s) (gain s) v (trigger_mode s) (trigger_source s)
       (trigger_activation s) (camera_ip s) (camera_id s) (camera_name s)
  else if String.eqb key "trigger_mode" then
    mk (exposure_time s) (gain s) (gamma s) v (trigger_source s)
       (trigger_activation s) (camera_ip s) (camera_id s) (camera_name s)
  else if String.eqb key "trigger_source" then
    mk (exposure_time s) (gain s) (gamma s) (trigger_mode s) v
       (trigger_activation s) (camera_ip s) (camera_id s) (camera_name s)
  else if String.eqb key "trigger_activation" then
    mk (exposure_time s) (gain s) (gamma s) (trigger_mode s) (trigger_source s)
       v (camera_ip s) (camera_id s) (camera_name s)
  else if String.eqb key "camera_ip" then
    mk (exposure_time s) (gain s) (gamma s) (trigger_mode s) (trigger_source s)
       (trigger_activation s) v (camera_id s) (camera_name s)
  else if String.eqb key "camera_id" then
    mk (exposure_time s) (gain s) (gamma s) (trigger_mode s) (trigger_source s)
       (trigger_activation s) (camera_ip s) v (camera_name s)
  else if String.eqb key "camera_name" then
    mk (exposure_time s) (gain s) (gamma s) (trigger_mode s) (trigger_source s)
       (trigger_activation s) (camera_ip s) (camera_id s) v
  else s.
(** The settings an instance shows when its dictionary is [d]: a field
    that [d] does not hold is read from the class, where the dataclass
    keeps the default. *)
Definition from_dict (d : list (string * Value)) : t :=
  let field (key : string) (default : Value) :=
    match dict_lookup key d with Some v => v | None => default end in
  mk (field "exposure_time" (VFloat 8000%float)) (field "gain" (VInt 0))
     (field "gamma" (VFloat 1%float)) (field "trigger_mode" (VTriggerMode HARDWARE))
     (field "trigger_source" (VStr "Line1"))
     (field "trigger_activation" (VTriggerActivation RISING_EDGE))
     (field "camera_ip" VNone) (field "camera_id" VNone) (field "camera_name" VNone).

(** [setattr(settings, key, value)] for any name.  [__class__] takes a
    class only, which no value of the program is; [__dict__] takes a dict
    and makes it the dictionary of the instance; [__weakref__] cannot be
    written. *)
Definition py_setattr (key : string) (v : Value) (s : t) : Exn + t :=
  if String.eqb key "__class__" then
    inl (TypeError ("__class__ must be set to a class, not '" ++ type_name v
                    ++ "' object"))
  else if String.eqb key "__dict__" then
    match v with
    | VDict d => inr (from_dict d)
    | _ => inl (TypeError ("__dict__ must be set to a dictionary, not a '"
                           ++ type_name v ++ "'"))
    end
  else if String.eqb key "__weakref__" then
    inl (AttributeError "attribute '__weakref__' of 'CameraSettings' objects is not writable")
  else inr (setattr key v s).
End CameraSettings.

(** [CameraInfo]: [mk] is the raw record, [init] the dataclass constructor
    with its [__post_init__]. *)
Module CameraInfo.
Record t := mk {
  ip_address : string;
  model_name : string;
  serial_number : string;
  mac_address : string;
  user_defined_name : string;
  friendly_name : string;
  is_mock : bool
}.

Definition post_init (c : t) : t :=
  if negb (String.eqb (friendly_name c) "") then c
  else if negb (String.eqb (user_defined_name c) "") then
    mk (ip_address c) (model_name c) (serial_number c) (mac_address c)
       (user_defined_name c)
       (user_defined_name c ++ " - " ++ model_name c ++ " (" ++ ip_address c ++ ")")
       (is_mock c)
  else
    mk (ip_address c) (model_name c) (serial_number c) (mac_address c)
       (user_defined_name c)
       (model_name c ++ " (" ++ ip_address c ++ ")")
       (is_mock c).

Definition init (ip model serial mac user friendly : string) (mock : bool) : t :=
  post_init (mk ip model serial mac user friendly mock).

(** [dataclasses.asdict] *)
Definition asdict (c : t) : Value :=
  VDict [("ip_address", VStr (ip_address c));
         ("model_name", VStr (model_name c));
         ("serial_number", VStr (serial_number c));
         ("mac_address", VStr (mac_address c));
         ("user_defined_name", VStr (user_defined_name c));
         ("friendly_name", VStr (friendly_name c));
         ("is_mock", VBool (is_mock c))].
End CameraInfo.

Module CameraStatus.
Record t := mk {
  camera_id : Value;
  connected : bool;
  capturing : bool;
  frame_count : Z;
  trigger_mode : Value;
  last_error : option string
}.
End CameraStatus.

Module CaptureResult.
Record t := mk {
  camera_id : Value;
  success : bool;
  frame_count : Z;
  output_dir : string;
  start_time : string;
  end_time : string;
  duration_seconds : float;
  error : option string
}.
End CaptureResult.

Module FrameInfo.
Record t := mk {
  camera_id : Value;
  frame_number : Z;
  file_path : string;
  timestamp : float;
  width : Z;
  height : Z
}.

Definition asdict (f : t) : Value :=
  VDict [("camera_id", camera_id f);
         ("frame_number", VInt (frame_number f));
         ("file_path", VStr (file_path f));
         ("timestamp", VFloat (timestamp f));
         ("width", VInt (width f));
         ("height", VInt (height f))].
End FrameInfo.

(* ================================================================== *)
(** ** The driver, the file system and the clock *)
(* ================================================================== *)

Definition ndarray := list (list Z).

(** A [pylon.InstantCamera]: the node map written by the configuration
    code, the grabbing flag, and the number of grab results handed out by
    [RetrieveResult] on which [Release] has not been called. *)
Record Camera := mkCamera {
  nodes : gmap string Value;
  opened : bool;
  grabbing : bool;
  held : nat
}.

Definition set_nodes (n : gmap string Value) (c : Camera) : Camera :=
  mkCamera n (opened c) (grabbing c) (held c).
Definition set_opened (b : bool) (c : Camera) : Camera :=
  mkCamera (nodes c) b (grabbing c) (held c).
Definition set_grabbing (b : bool) (c : Camera) : Camera :=
  mkCamera (nodes c) (opened c) b (held c).
Definition set_held (h : nat) (c : Camera) : Camera :=
  mkCamera (nodes c) (opened c) (grabbing c) h.

(** A grab result: [GrabSucceeded()], [Array], [Width], [Height]. *)
Record GrabResult := mkGrabResult {
  GrabSucceeded : bool;
  Array : ndarray;
  Width : Z;
  Height : Z
}.

(** What [camera.RetrieveResult(1000, TimeoutHandling_Return)] does in one
    iteration of the acquisition loop. *)
Inductive Retrieved :=
| RetrieveRaises (e : Exn)
| RetrieveEmpty
| RetrieveGrab (r : GrabResult).

(** The environment of one loop iteration: the retrieval, [time.time()],
    and whether [img.save] raises. *)
Record LoopEnv := mkLoopEnv {
  retrieve : Retrieved;
  now : float;
  save_raises : option Exn
}.

(** The device info entries [EnumerateDevices] returns; reading the fields
    of an entry may raise. *)
Record DeviceFields := mkDeviceFields {
  GetIpAddress : string;
  GetModelName : string;
  GetSerialNumber : string;
  GetMacAddress : string;
  GetUserDefinedName : string
}.

Record DeviceInfo := mkDeviceInfo {
  GetDeviceClass : string;
  fields : Exn + DeviceFields
}.

(** The environment of one command: which calls into the driver and the
    file system raise, and what they return.  [create_raises] is for the
    transport layer and device creation of [connect], [open_raises] for
    [camera.Open()]; [configure_fail] and [trigger_fail] name the node
    write (counted from 0) at which the driver raises; [grab_one] is the
    outcome of [RetrieveResult(5000, TimeoutHandling_ThrowException)];
    [encode_raises] is for [pil_img.save] into the buffer;
    [join_window] lists the steps the acquisition threads take while
    [join] waits. *)
Record Env := mkEnv {
  PYLON_AVAILABLE : bool;
  devices : Exn + list DeviceInfo;
  create_raises : option Exn;
  open_raises : option Exn;
  configure_fail : option (nat * Exn);
  trigger_fail : option (nat * Exn);
  mkdir_raises : option Exn;
  start_max_raises : option Exn;
  grab_one : Exn + GrabResult;
  encode_raises : option Exn;
  close_raises : option Exn;
  join_window : list (nat * LoopEnv)
}.

(* ================================================================== *)
(** ** Output lines *)
(* ================================================================== *)

(** A piece of an f-string: literal text, an interpolated value, or an
    interpolated exception. *)
Inductive Frag :=
| Lit (s : string)
| Interp (v : Value)
| InterpExn (e : Exn).

(** One line on stdout, by its prefix. *)
Inductive Line :=
| STATUS (text : list Frag)
| ERROR (text : list Frag)
| WARNING (text : list Frag)
| DATA (json : Value)
| PREVIEW (mime_type : string) (image : ndarray)
| FRAME_SAVED (json : Value).

(* ================================================================== *)
(** ** Objects, threads and the world *)
(* ================================================================== *)

(** The one frame callback of the program: the closure [on_frame] of
    [_handle_start_capture]. *)
Inductive Callback := on_frame.

(** The attributes of a [CameraManager] instance.  [_capture_thread] holds
    the index of the thread, [_capture_active] the state of the event. *)
Record CameraManager := mkCameraManager {
  camera_id : Value;
  settings : CameraSettings.t;
  camera : option Camera;
  is_open : bool;
  is_capturing : bool;
  frame_count : Z;
  _capture_thread : option nat;
  _capture_active : bool;
  _output_dir : option Path;
  _frame_callback : option Callback
}.

Definition set_settings (v : CameraSettings.t) (m : CameraManager) :=
  mkCameraManager (camera_id m) v (camera m) (is_open m) (is_capturing m)
    (frame_count m) (_capture_thread m) (_capture_active m) (_output_dir m)
    (_frame_callback m).
Definition set_camera (v : option Camera) (m : CameraManager) :=
  mkCameraManager (camera_id m) (settings m) v (is_open m) (is_capturing m)
    (frame_count m) (_capture_thread m) (_capture_active m) (_output_dir m)
    (_frame_callback m).
Definition set_is_open (v : bool) (m : CameraManager) :=
  mkCameraManager (camera_id m) (settings m) (camera m) v (is_capturing m)
    (frame_count m) (_capture_thread m) (_capture_active m) (_output_dir m)
    (_frame_callback m).
Definition set_is_capturing (v : bool) (m : CameraManager) :=
  mkCameraManager (camera_id m) (settings m) (camera m) (is_open m) v
    (frame_count m) (_capture_thread m) (_capture_active m) (_output_dir m)
    (_frame_callback m).
Definition set_frame_count (v : Z) (m : CameraManager) :=
  mkCameraManager (camera_id m) (settings m) (camera m) (is_open m) (is_capturing m)
    v (_capture_thread m) (_capture_active m) (_output_dir m)
    (_frame_callback m).
Definition set_capture_thread (v : option nat) (m : CameraManager) :=
  mkCameraManager (camera_id m) (settings m) (camera m) (is_open m) (is_capturing m)
    (frame_count m) v (_capture_active m) (_output_dir m)
    (_frame_callback m).
Definition set_capture_active (v : bool) (m : CameraManager) :=
  mkCameraManager (camera_id m) (settings m) (camera m) (is_open m) (is_capturing m)
    (frame_count m) (_capture_thread m) v (_output_dir m)
    (_frame_callback m).
Definition set_output_dir (v : option Path) (m : CameraManager) :=
  mkCameraManager (camera_id m) (settings m) (camera m) (is_open m) (is_capturing m)
    (frame_count m) (_capture_thread m) (_capture_active m) v
    (_frame_callback m).
Definition set_frame_callback (v : option Callback) (m : CameraManager) :=
  mkCameraManager (camera_id m) (settings m) (camera m) (is_open m) (is_capturing m)
    (frame_count m) (_capture_thread m) (_capture_active m) (_output_dir m)
    v.

(** [self.camera] is not [None]. *)
Definition has_camera (m : CameraManager) : bool :=
  match camera m with Some _ => true | None => false end.

(** [CameraManager.__init__] *)
Definition CameraManager_init (id : Value) (s : CameraSettings.t) : CameraManager :=
  mkCameraManager id s None false false 0 None false None None.

(** Where an acquisition thread stands: about to test the loop condition,
    inside the loop body, or returned. *)
Inductive PC := AtWhile | InBody | Finished.

Record Thread := mkThread { target : nat; pc : PC }.

(** [IPCHandler]: [camera] is a reference into the store. *)
Module IPCHandler.
Record t := mk { camera : option nat; camera_id : Value }.
Definition init : t := mk None VNone.
End IPCHandler.

(** The state of the process: the command handler, the store of
    [CameraManager] objects, the threads started so far, and what has
    been created on disk. *)
Record World := mkWorld {
  handler : IPCHandler.t;
  heap : gmap nat CameraManager;
  next_ref : nat;
  threads : list Thread;
  dirs : list Path;
  files : list (Path * ndarray)
}.

Definition set_handler (h : IPCHandler.t) (w : World) : World :=
  mkWorld h (heap w) (next_ref w) (threads w) (dirs w) (files w).
Definition set_heap (h : gmap nat CameraManager) (w : World) : World :=
  mkWorld (handler w) h (next_ref w) (threads w) (dirs w) (files w).
Definition set_threads (t : list Thread) (w : World) : World :=
  mkWorld (handler w) (heap w) (next_ref w) t (dirs w) (files w).
Definition set_dirs (d : list Path) (w : World) : World :=
  mkWorld (handler w) (heap w) (next_ref w) (threads w) d (files w).
Definition set_files (f : list (Path * ndarray)) (w : World) : World :=
  mkWorld (handler w) (heap w) (next_ref w) (threads w) (dirs w) f.

Definition initial_world : World :=
  mkWorld IPCHandler.init ∅ 0 [] [] [].

(* ================================================================== *)
(** ** The monad of Python code: state, exceptions, printed lines *)
(* ================================================================== *)

Inductive result (A : Type) :=
| Ok (a : A)
| Raise (e : Exn).
Arguments Ok {A} a.
Arguments Raise {A} e.

Definition M (A : Type) : Type := World -> result A * World * list Line.

Definition ret {A} (a : A) : M A := fun w => (Ok a, w, []).

Definition bind {A B} (c : M A) (k : A -> M B) : M B :=
  fun w =>
    match c w with
    | (Ok a, w1, out1) =>
        match k a w1 with (r, w2, out2) => (r, w2, (out1 ++ out2)%list) end
    | (Raise e, w1, out1) => (Raise e, w1, out1)
    end.

Declare Scope py_scope.
Delimit Scope py_scope with py.
Notation "x <- c ;; k" := (bind c (fun x => k))
  (at level 100, c at next level, right associativity) : py_scope.
Notation "c ;;; k" := (bind c (fun _ => k))
  (at level 100, right associativity) : py_scope.
Local Open Scope py_scope.

Definition raise {A} (e : Exn) : M A := fun w => (Raise e, w, []).

(** [print(..., flush=True)] *)
Definition print (l : Line) : M unit := fun w => (Ok tt, w, [l]).

Definition get_world : M World := fun w => (Ok w, w, []).
Definition modify_world (f : World -> World) : M unit := fun w => (Ok tt, f w, []).

(** [try: body  except Exception as e: handler(e)] *)
Definition try_except {A} (body : M A) (handler : Exn -> M A) : M A :=
  fun w =>
    match body w with
    | (Ok a, w1, out1) => (Ok a, w1, out1)
    | (Raise e, w1, out1) =>
        match handler e w1 with (r, w2, out2) => (r, w2, (out1 ++ out2)%list) end
    end.

(** [try: body  finally: final]: the [finally] block runs on both exits;
    an exception it raises replaces the outcome of the body. *)
Definition try_finally {A} (body : M A) (final : M unit) : M A :=
  fun w =>
    match body w with
    | (r, w1, out1) =>
        match final w1 with
        | (Ok _, w2, out2) => (r, w2, (out1 ++ out2)%list)
        | (Raise e, w2, out2) => (Raise e, w2, (out1 ++ out2)%list)
        end
    end.

(** Lifting the outcome of a library call. *)
Definition lift_sum {A} (r : Exn + A) : M A :=
  match r with inl e => raise e | inr a => ret a end.

Definition raise_if (e : option Exn) : M unit :=
  match e with Some e => raise e | None => ret tt end.

(** Reading and writing the attributes of the object [self] refers to. *)
Definition self_get (self : nat) : M CameraManager :=
  fun w =>
    match heap w !! self with
    | Some m => (Ok m, w, [])
    | None => (Raise (mkExn "ReferenceError" "no such object"), w, [])
    end.

Definition self_set (self : nat) (f : CameraManager -> CameraManager) : M unit :=
  fun w =>
    match heap w !! self with
    | Some m => (Ok tt, set_heap (<[self := f m]> (heap w)) w, [])
    | None => (Raise (mkExn "ReferenceError" "no such object"), w, [])
    end.

(** [self.camera.<method>]: an attribute error when [self.camera] is
    [None]. *)
Definition the_camera (self : nat) : M Camera :=
  m <- self_get self ;;
  match camera m with
  | Some c => ret c
  | None => raise (AttributeError "'NoneType' object has no attribute")
  end.

Definition camera_set (self : nat) (f : Camera -> Camera) : M unit :=
  c <- the_camera self ;;
  self_set self (set_camera (Some (f c))).

(* ================================================================== *)
(** ** ipc_handler.py: protocol functions *)
(* ================================================================== *)

Definition send_status (message : list Frag) : M unit := print (STATUS message).
Definition send_error (message : list Frag) : M unit := print (ERROR message).
Definition send_data (data : Value) : M unit := print (DATA data).
Definition send_preview (data_uri : string * ndarray) : M unit :=
  print (PREVIEW (fst data_uri) (snd data_uri)).
Definition send_frame_saved (frame_info : FrameInfo.t) : M unit :=
  print (FRAME_SAVED (FrameInfo.asdict frame_info)).

(** Calling a stored frame callback. *)
Definition call_callback (cb : Callback) (frame_info : FrameInfo.t) : M unit :=
  match cb with on_frame => send_frame_saved frame_info end.

(* ================================================================== *)
(** ** camera_manager.py *)
(* ================================================================== *)

(** Driver and file-system calls. *)

Definition write_node (self : nat) (name : string) (v : Value) : M unit :=
  camera_set self (fun c => set_nodes (<[name := v]> (nodes c)) c).

(** Node writes in program order; the write numbered [i] raises [e] when
    [fail = Some (i, e)]. *)
Fixpoint write_nodes (self : nat) (fail : option (nat * Exn)) (k : nat)
    (ws : list (string * Value)) : M unit :=
  match ws with
  | [] => ret tt
  | (name, v) :: rest =>
      match fail with
      | Some (i, e) => if Nat.eqb i k then raise e else ret tt
      | None => ret tt
      end ;;;
      write_node self name v ;;;
      write_nodes self fail (S k) rest
  end.

(** [<enum>.value]: an attribute error on anything but an enum member. *)
Definition enum_value (v : Value) : M Value :=
  match v with
  | VTriggerMode m => ret (VStr (TriggerMode_value m))
  | VTriggerActivation a => ret (VStr (TriggerActivation_value a))
  | _ => raise (AttributeError "object has no attribute 'value'")
  end.

(** [camera.RetrieveResult(1000, pylon.TimeoutHandling_Return)] *)
Definition RetrieveResult (self : nat) (r : Retrieved) : M (option GrabResult) :=
  _ <- the_camera self ;;
  match r with
  | RetrieveRaises e => raise e
  | RetrieveEmpty => ret None
  | RetrieveGrab g =>
      camera_set self (fun c => set_held (S (held c)) c) ;;;
      ret (Some g)
  end.

(** [grab_result.Release()] *)
Definition Release (self : nat) : M unit :=
  camera_set self (fun c => set_held (Nat.pred (held c)) c).

(** [Path(output_dir)]: a type error on anything but a string. *)
Definition Path_ctor (v : Value) : M Path :=
  match v with
  | VStr s => ret (Path_of s)
  | _ => raise (TypeError "expected str, bytes or os.PathLike object")
  end.

(** [path.mkdir(parents=True, exist_ok=True)] *)
Definition mkdir (env : Env) (p : Path) : M unit :=
  raise_if (mkdir_raises env) ;;;
  modify_world (fun w => set_dirs (dirs w ++ [p])%list w).

(** [Image.fromarray(array)] and [img.save(file_path, compress_level=1)] *)
Definition image_save (oops : option Exn) (array : ndarray) (file_path : Path) : M unit :=
  raise_if oops ;;;
  modify_world (fun w => set_files (files w ++ [(file_path, array)])%list w).

(** [CameraManager.detect_cameras] *)
Fixpoint detect_loop (devs : list DeviceInfo) : M (list CameraInfo.t) :=
  match devs with
  | [] => ret []
  | dev_info :: rest =>
      found <-
        (if String.eqb (GetDeviceClass dev_info) "BaslerGigE" then
           match fields dev_info with
           | inr f =>
               ret [CameraInfo.init (GetIpAddress f) (GetModelName f)
                      (GetSerialNumber f) (GetMacAddress f)
                      (GetUserDefinedName f) "" false]
           | inl e =>
               print (WARNING [Lit "Failed to get info for camera: "; InterpExn e]) ;;;
               ret []
           end
         else ret []) ;;
      more <- detect_loop rest ;;
      ret (found ++ more)%list
  end.

Definition detect_cameras (env : Env) : M (list CameraInfo.t) :=
  if negb (PYLON_AVAILABLE env) then
    print (STATUS [Lit "PyPylon not available, returning mock camera only"]) ;;;
    ret [CameraInfo.init "mock" "Mock Camera" "MOCK-001" "" "" "" true]
  else
    try_except
      (devs <- lift_sum (devices env) ;;
       detect_loop devs)
      (fun e =>
         print (ERROR [Lit "Camera detection failed: "; InterpExn e]) ;;;
         ret []).

(** [CameraManager._configure_camera] *)
Definition _configure_camera (env : Env) (self : nat) : M unit :=
  m <- self_get self ;;
  match camera m with
  | None => ret tt
  | Some _ =>
      try_except
        (write_nodes self (configure_fail env) 0
           [("ExposureTimeAbs", CameraSettings.exposure_time (settings m));
            ("GainAuto", VStr "Off");
            ("GainRaw", CameraSettings.gain (settings m));
            ("GammaEnable", VBool true);
            ("GammaSelector", VStr "User");
            ("Gamma", CameraSettings.gamma (settings m))] ;;;
         print (STATUS [Lit "Camera "; Interp (camera_id m); Lit " configured"]))
        (fun e => print (WARNING [Lit "Some settings not supported: "; InterpExn e]))
  end.

(** [CameraManager.connect] *)
Definition connect (env : Env) (self : nat) (ip_address : Value) : M bool :=
  if negb (PYLON_AVAILABLE env) then
    print (ERROR [Lit "PyPylon not available"]) ;;;
    ret false
  else
    m <- self_get self ;;
    let ip := if truthy ip_address then ip_address
              else CameraSettings.camera_ip (settings m) in
    if negb (truthy ip) then
      print (ERROR [Lit "No camera IP address specified"]) ;;;
      ret false
    else
      try_except
        (raise_if (create_raises env) ;;;
         self_set self (set_camera (Some (mkCamera ∅ false false 0))) ;;;
         raise_if (open_raises env) ;;;
         camera_set self (set_opened true) ;;;
         _configure_camera env self ;;;
         self_set self (set_is_open true) ;;;
         self_set self (fun m =>
           set_settings (CameraSettings.setattr "camera_ip" ip (settings m)) m) ;;;
         print (STATUS [Lit "Camera "; Interp (camera_id m); Lit " connected to ";
                        Interp ip]) ;;;
         ret true)
        (fun e =>
           print (ERROR [Lit "Failed to connect camera "; Interp (camera_id m);
                         Lit ": "; InterpExn e]) ;;;
           ret false).

(** [CameraManager.configure_hardware_trigger] *)
Definition configure_hardware_trigger (env : Env) (self : nat) : M unit :=
  m <- self_get self ;;
  if negb (has_camera m) || negb (is_open m) then
    print (ERROR [Lit "Camera not connected"])
  else
    try_except
      (write_nodes self (trigger_fail env) 0
         [("TriggerSelector", VStr "FrameStart");
          ("TriggerMode", VStr "On");
          ("TriggerSource", CameraSettings.trigger_source (settings m))] ;;;
       activation <- enum_value (CameraSettings.trigger_activation (settings m)) ;;
       write_nodes self (trigger_fail env) 3 [("TriggerActivation", activation)] ;;;
       self_set self (fun m =>
         set_settings
           (CameraSettings.setattr "trigger_mode" (VTriggerMode HARDWARE) (settings m)) m) ;;;
       print (STATUS [Lit "Camera "; Interp (camera_id m);
                      Lit " hardware trigger configured"]))
      (fun e => print (ERROR [Lit "Failed to configure hardware trigger: "; InterpExn e])).


(** [CameraManager.grab_frame].  [StartGrabbingMax(1)] starts a grab that
    the driver ends by itself once the one result has been retrieved. *)
Definition grab_frame (env : Env) (self : nat) : M (option ndarray) :=
  m <- self_get self ;;
  if negb (is_open m) || negb (has_camera m) then
    print (ERROR [Lit "Camera not connected"]) ;;;
    ret None
  else
    try_finally
      (try_except
         (raise_if (start_max_raises env) ;;;
          camera_set self (set_grabbing true) ;;;
          grab_result <- lift_sum (grab_one env) ;;
          camera_set self (fun c => set_grabbing false (set_held (S (held c)) c)) ;;;
          if GrabSucceeded grab_result then
            let img := Array grab_result in
            Release self ;;;
            ret (Some img)
          else
            Release self ;;;
            print (ERROR [Lit "Frame grab failed"]) ;;;
            ret None)
         (fun e =>
            print (ERROR [Lit "Frame grab error: "; InterpExn e]) ;;;
            ret None))
      (c <- the_camera self ;;
       if grabbing c then camera_set self (set_grabbing false) else ret tt).

(** [CameraManager.grab_frame_base64]; the data URI is kept as the MIME
    type and the image it encodes. *)
Definition grab_frame_base64 (env : Env) (self : nat) (format quality : Value)
    : M (option (string * ndarray)) :=
  img <- grab_frame env self ;;
  match img with
  | None => ret None
  | Some img =>
      try_except
        (fmt <- match format with
                | VStr s => ret (lower s)
                | _ => raise (AttributeError "object has no attribute 'lower'")
                end ;;
         raise_if (encode_raises env) ;;;
         if String.eqb fmt "jpeg" then ret (Some ("image/jpeg", img))
         else ret (Some ("image/png", img)))
        (fun e =>
           print (ERROR [Lit "Image encoding error: "; InterpExn e]) ;;;
           ret None)
  end.

(** [threading.Thread(target=self._capture_loop, daemon=True)] and
    [start()]: the new thread stands in front of its first loop test. *)
Definition Thread_start (self : nat) : M nat :=
  w <- get_world ;;
  modify_world (fun w => set_threads (threads w ++ [mkThread self AtWhile])%list w) ;;;
  ret (length (threads w)).

(** [CameraManager.start_capture] *)
Definition start_capture (env : Env) (self : nat) (output_dir : Value)
    (frame_callback : option Callback) : M bool :=
  m <- self_get self ;;
  if negb (is_open m) || negb (has_camera m) then
    print (ERROR [Lit "Camera not connected"]) ;;;
    ret false
  else if is_capturing m then
    print (ERROR [Lit "Already capturing"]) ;;;
    ret false
  else
    p <- Path_ctor output_dir ;;
    self_set self (set_output_dir (Some p)) ;;;
    mkdir env p ;;;
    self_set self (set_frame_callback frame_callback) ;;;
    self_set self (set_frame_count 0) ;;;
    configure_hardware_trigger env self ;;;
    camera_set self (set_grabbing true) ;;;
    self_set self (set_capture_active true) ;;;
    tid <- Thread_start self ;;
    self_set self (set_capture_thread (Some tid)) ;;;
    self_set self (set_is_capturing true) ;;;
    print (STATUS [Lit "Camera "; Interp (camera_id m); Lit " capture started"]) ;;;
    ret true.

(** The body of the [while] loop of [CameraManager._capture_loop]: one
    iteration, entered after the loop condition was found true. *)
Definition _capture_loop_body (self : nat) (le : LoopEnv) : M unit :=
  try_except
    (grab_result <- RetrieveResult self (retrieve le) ;;
     match grab_result with
     | Some g =>
         if GrabSucceeded g then
           self_set self (fun m => set_frame_count (frame_count m + 1) m) ;;;
           let timestamp := now le in
           m <- self_get self ;;
           dir <- match _output_dir m with
                  | Some d => ret d
                  | None => raise (TypeError "unsupported operand type(s) for /")
                  end ;;
           let file_path := path_div dir (format_06d (frame_count m) ++ ".png") in
           image_save (save_raises le) (Array g) file_path ;;;
           m <- self_get self ;;
           match _frame_callback m with
           | Some cb =>
               call_callback cb
                 (FrameInfo.mk (camera_id m) (frame_count m) (path_str file_path)
                    timestamp (Width g) (Height g))
           | None => ret tt
           end ;;;
           Release self
         else ret tt
     | None => ret tt
     end)
    (fun e =>
       m <- self_get self ;;
       if _capture_active m then
         print (ERROR [Lit "Capture error on "; Interp (camera_id m); Lit ": ";
                       InterpExn e])
       else ret tt).

Definition set_pc (tid : nat) (p : PC) : M unit :=
  modify_world (fun w =>
    match threads w !! tid with
    | Some th => set_threads (<[tid := mkThread (target th) p]> (threads w)) w
    | None => w
    end).

(** One scheduling step of the thread [tid] running
    [CameraManager._capture_loop]: the test of the loop condition, or one
    pass through the body.  A step of a thread never raises. *)
Definition thread_step (tid : nat) (le : LoopEnv) : M unit :=
  w <- get_world ;;
  match threads w !! tid with
  | None => ret tt
  | Some th =>
      match pc th with
      | AtWhile =>
          try_except
            (m <- self_get (target th) ;;
             if _capture_active m then set_pc tid InBody
             else
               print (STATUS [Lit "Camera "; Interp (camera_id m);
                              Lit " capture loop ended"]) ;;;
               set_pc tid Finished)
            (fun _ => set_pc tid Finished)
      | InBody =>
          try_except
            (_capture_loop_body (target th) le ;;;
             set_pc tid AtWhile)
            (fun _ => set_pc tid Finished)
      | Finished => ret tt
      end
  end.

Fixpoint run_threads (steps : list (nat * LoopEnv)) : M unit :=
  match steps with
  | [] => ret tt
  | (tid, le) :: rest => thread_step tid le ;;; run_threads rest
  end.

(** [thread.join(timeout=2.0)]: the acquisition threads take the steps of
    [join_window] while the caller waits; [join] returns nothing, so
    whether the joined thread has ended by then is not seen by the
    caller. *)
Definition join (env : Env) (tid : nat) : M unit :=
  run_threads (join_window env).

(** [CameraManager.stop_capture] *)
Definition stop_capture (env : Env) (self : nat) : M CaptureResult.t :=
  m <- self_get self ;;
  if negb (is_capturing m) then
    ret (CaptureResult.mk (camera_id m) false 0 "" "" "" 0%float (Some "Not capturing"))
  else
    self_set self (set_capture_active false) ;;;
    match _capture_thread m with
    | Some tid =>
        join env tid ;;;
        self_set self (set_capture_thread None)
    | None => ret tt
    end ;;;
    m <- self_get self ;;
    match camera m with
    | Some c =>
        if grabbing c then camera_set self (set_grabbing false) else ret tt
    | None => ret tt
    end ;;;
    self_set self (set_is_capturing false) ;;;
    m <- self_get self ;;
    let result :=
      CaptureResult.mk (camera_id m) true (frame_count m)
        (match _output_dir m with Some d => path_str d | None => "" end)
        "" "" 0%float None in
    print (STATUS [Lit "Camera "; Interp (camera_id m);
                   Lit " capture stopped, frames: "; Interp (VInt (frame_count m))]) ;;;
    ret result.

(** [CameraManager.get_status] *)
Definition get_status (self : nat) : M CameraStatus.t :=
  m <- self_get self ;;
  ret (CameraStatus.mk (camera_id m) (is_open m) (is_capturing m) (frame_count m)
         (CameraSettings.trigger_mode (settings m)) None).

(** [CameraManager.update_settings] *)
Fixpoint update_fields (self : nat) (kwargs : list (string * Value)) : M unit :=
  match kwargs with
  | [] => ret tt
  | (key, value) :: rest =>
      (if CameraSettings.hasattr key then
         m <- self_get self ;;
         s <- lift_sum (CameraSettings.py_setattr key value (settings m)) ;;
         self_set self (set_settings s)
       else ret tt) ;;;
      update_fields self rest
  end.

Definition update_settings (env : Env) (self : nat) (kwargs : list (string * Value))
    : M unit :=
  update_fields self kwargs ;;;
  m <- self_get self ;;
  if is_open m && negb (is_capturing m) then _configure_camera env self
  else ret tt.

(** [CameraManager.disconnect] *)
Definition disconnect (env : Env) (self : nat) : M unit :=
  m <- self_get self ;;
  (if is_capturing m then _ <- stop_capture env self ;; ret tt else ret tt) ;;;
  m <- self_get self ;;
  if has_camera m && is_open m then
    try_finally
      (try_except
         (c <- the_camera self ;;
          (if grabbing c then camera_set self (set_grabbing false) else ret tt) ;;;
          raise_if (close_raises env) ;;;
          camera_set self (set_opened false))
         (fun e =>
            print (ERROR [Lit "Error closing camera "; Interp (camera_id m); Lit ": ";
                          InterpExn e])))
      (self_set self (set_is_open false) ;;;
       print (STATUS [Lit "Camera "; Interp (camera_id m); Lit " disconnected"]))
  else ret tt.

(* ================================================================== *)
(** ** ipc_handler.py: the command handler *)
(* ================================================================== *)

Definition the_handler : M IPCHandler.t := fun w => (Ok (handler w), w, []).

(** [IPCHandler._handle_detect_cameras] *)
Definition _handle_detect_cameras (env : Env) : M unit :=
  cameras <- detect_cameras env ;;
  send_data (VDict [("cameras", VList (map CameraInfo.asdict cameras));
                    ("count", VInt (Z.of_nat (length cameras)))]).

(** [IPCHandler._handle_init]: the new [CameraManager] is allocated at the
    next free reference; whatever [self.camera] referred to stays in the
    store. *)
Definition _handle_init (cmd : Value) : M unit :=
  camera_id <- lift_sum (py_get cmd "camera_id" (VStr "cam1")) ;;
  camera_ip <- lift_sum (py_get cmd "camera_ip" VNone) ;;
  modify_world (fun w =>
    set_handler (IPCHandler.mk (IPCHandler.camera (handler w)) camera_id) w) ;;;
  let settings := CameraSettings.init camera_ip camera_id in
  modify_world (fun w =>
    mkWorld (IPCHandler.mk (Some (next_ref w)) (IPCHandler.camera_id (handler w)))
      (<[next_ref w := CameraManager_init camera_id settings]> (heap w))
      (S (next_ref w)) (threads w) (dirs w) (files w)) ;;;
  send_data (VDict [("success", VBool true); ("camera_id", camera_id)]).

(** [IPCHandler._handle_connect] *)
Definition _handle_connect (env : Env) (cmd : Value) : M unit :=
  h <- the_handler ;;
  match IPCHandler.camera h with
  | None => send_error [Lit "Camera not initialized. Call init first."]
  | Some cam =>
      m <- self_get cam ;;
      camera_ip <- lift_sum (py_get cmd "camera_ip"
                               (CameraSettings.camera_ip (settings m))) ;;
      success <- connect env cam camera_ip ;;
      send_data (VDict [("success", VBool success); ("connected", VBool success)])
  end.

(** [IPCHandler._handle_disconnect] *)
Definition _handle_disconnect (env : Env) : M unit :=
  h <- the_handler ;;
  match IPCHandler.camera h with
  | None => send_data (VDict [("success", VBool true); ("connected", VBool false)])
  | Some cam =>
      disconnect env cam ;;;
      send_data (VDict [("success", VBool true); ("connected", VBool false)])
  end.

(** Unpacking [settings] into the keyword arguments of
    [self.camera.update_settings]: the value must be a mapping, and no key
    may collide with the parameter [self]. *)
Definition unpack_kwargs (settings : Value) : M (list (string * Value)) :=
  match settings with
  | VDict d =>
      if existsb (fun kv => String.eqb (fst kv) "self") d then
        raise (TypeError "got multiple values for argument 'self'")
      else ret d
  | _ => raise (TypeError "argument after ** must be a mapping")
  end.

(** [IPCHandler._handle_configure] *)
Definition _handle_configure (env : Env) (cmd : Value) : M unit :=
  h <- the_handler ;;
  match IPCHandler.camera h with
  | None => send_error [Lit "Camera not initialized"]
  | Some cam =>
      settings <- lift_sum (py_get cmd "settings" (VDict [])) ;;
      kwargs <- unpack_kwargs settings ;;
      update_settings env cam kwargs ;;;
      send_data (VDict [("success", VBool true); ("configured", VBool true)])
  end.

(** [not self.camera or not self.camera.is_open] *)
Definition not_connected (h : IPCHandler.t) : M bool :=
  match IPCHandler.camera h with
  | None => ret true
  | Some cam => m <- self_get cam ;; ret (negb (is_open m))
  end.

(** [IPCHandler._handle_get_preview] *)
Definition _handle_get_preview (env : Env) (cmd : Value) : M unit :=
  h <- the_handler ;;
  off <- not_connected h ;;
  match IPCHandler.camera h with
  | Some cam =>
      if off then send_error [Lit "Camera not connected"]
      else
        format <- lift_sum (py_get cmd "format" (VStr "jpeg")) ;;
        quality <- lift_sum (py_get cmd "quality" (VInt 85)) ;;
        data_uri <- grab_frame_base64 env cam format quality ;;
        match data_uri with
        | Some uri => send_preview uri
        | None => send_error [Lit "Failed to grab preview frame"]
        end
  | None => send_error [Lit "Camera not connected"]
  end.

(** [IPCHandler._handle_start_capture] *)
Definition _handle_start_capture (env : Env) (cmd : Value) : M unit :=
  h <- the_handler ;;
  off <- not_connected h ;;
  match IPCHandler.camera h with
  | Some cam =>
      if off then send_error [Lit "Camera not connected"]
      else
        output_dir <- lift_sum (py_get cmd "output_dir" VNone) ;;
        if negb (truthy output_dir) then send_error [Lit "output_dir is required"]
        else
          success <- start_capture env cam output_dir (Some on_frame) ;;
          send_data (VDict [("success", VBool success); ("capturing", VBool success)])
  | None => send_error [Lit "Camera not connected"]
  end.

Definition opt_str (o : option string) : Value :=
  match o with Some s => VStr s | None => VNone end.

(** [IPCHandler._handle_stop_capture] *)
Definition _handle_stop_capture (env : Env) : M unit :=
  h <- the_handler ;;
  match IPCHandler.camera h with
  | None => send_error [Lit "Camera not initialized"]
  | Some cam =>
      result <- stop_capture env cam ;;
      send_data (VDict [("success", VBool (CaptureResult.success result));
                        ("frame_count", VInt (CaptureResult.frame_count result));
                        ("output_dir", VStr (CaptureResult.output_dir result));
                        ("error", opt_str (CaptureResult.error result))])
  end.

(** [IPCHandler._handle_status] *)
Definition _handle_status : M unit :=
  h <- the_handler ;;
  match IPCHandler.camera h with
  | None =>
      send_data (VDict [("success", VBool true); ("initialized", VBool false);
                        ("connected", VBool false); ("capturing", VBool false)])
  | Some cam =>
      status <- get_status cam ;;
      mode <- enum_value (CameraStatus.trigger_mode status) ;;
      send_data (VDict [("success", VBool true); ("initialized", VBool true);
                        ("camera_id", CameraStatus.camera_id status);
                        ("connected", VBool (CameraStatus.connected status));
                        ("capturing", VBool (CameraStatus.capturing status));
                        ("frame_count", VInt (CameraStatus.frame_count status));
                        ("trigger_mode", mode)])
  end.

(** The [if]/[elif] chain inside the [try] of [handle_command]. *)
Definition dispatch (env : Env) (cmd command : Value) : M unit :=
  if eq_str command "ping" then
    send_data (VDict [("status", VStr "ok"); ("message", VStr "pong")])
  else if eq_str command "version" then
    send_data (VDict [("version", VStr "1.0.0")])
  else if eq_str command "detect_cameras" then _handle_detect_cameras env
  else if eq_str command "init" then _handle_init cmd
  else if eq_str command "connect" then _handle_connect env cmd
  else if eq_str command "disconnect" then _handle_disconnect env
  else if eq_str command "configure" then _handle_configure env cmd
  else if eq_str command "get_preview" then _handle_get_preview env cmd
  else if eq_str command "start_capture" then _handle_start_capture env cmd
  else if eq_str command "stop_capture" then _handle_stop_capture env
  else if eq_str command "status" then _handle_status
  else send_error [Lit "Unknown command: "; Interp command].

(** [IPCHandler.handle_command] *)
Definition handle_command (env : Env) (cmd : Value) : M unit :=
  command <- lift_sum (py_get cmd "command" (VStr "")) ;;
  try_except
    (dispatch env cmd command)
    (fun e => send_error [Lit "Command error: "; InterpExn e]).

(** What reaches the process: a line on stdin (with the environment of the
    command it may carry), a line that cannot be read ([sys.stdin] raises,
    as it does with [UnicodeDecodeError] on bytes that are not UTF-8), a
    scheduling step of an acquisition thread, or an interrupt. *)
Inductive Event :=
| Stdin (env : Env) (line : string)
| Unreadable (e : Exn)
| Tick (tid : nat) (le : LoopEnv)
| KeyboardInterrupt.

Section IPCLoop.

(** [json.loads], a library function: [inl e] when it raises [e]. *)
Variable json_loads : string -> Exn + Value.

(** The body of the [for] loop of [run_ipc_loop]. *)
Definition process_line (env : Env) (line : string) : M unit :=
  let line := strip line in
  if String.eqb line "" then ret tt
  else
    try_except
      (cmd <- lift_sum (json_loads line) ;;
       handle_command env cmd)
      (fun e =>
         if String.eqb (exn_class e) "JSONDecodeError" then
           send_error [Lit "Invalid JSON: "; InterpExn e]
         else send_error [Lit "Command error: "; InterpExn e]).

(** The [for] loop over stdin, interleaved with the acquisition threads;
    [Ok false] when an interrupt ended it.  An exception of the iterator
    is raised in the [for] statement itself, outside the [try] of the
    loop body. *)
Fixpoint serve (events : list Event) : M bool :=
  match events with
  | [] => ret true
  | Stdin env line :: rest => process_line env line ;;; serve rest
  | Unreadable e :: _ => raise e
  | Tick tid le :: rest => thread_step tid le ;;; serve rest
  | KeyboardInterrupt :: _ => ret false
  end.

(** [run_ipc_loop] *)
Definition run_ipc_loop (events : list Event) : M unit :=
  modify_world (set_handler IPCHandler.init) ;;;
  send_status [Lit "IPC handler ready"] ;;;
  try_except
    (finished <- serve events ;;
     if finished then ret tt
     else send_status [Lit "Shutting down (KeyboardInterrupt)"])
    (fun e => send_error [Lit "Fatal error: "; InterpExn e]).

End IPCLoop.

(* ================================================================== *)
(** ** Example inputs and the vocabulary of the statements *)
(* ================================================================== *)

(** An environment in which the driver is present and nothing fails, and
    in which no thread runs while a [join] waits. *)
Definition env_ok : Env :=
  mkEnv true (inr []) None None None None None None
    (inr (mkGrabResult true [[0]] 1 1)) None None [].

(** A loop iteration that is handed a 2x2 frame at time [t] and saves it. *)
Definition frame_at (t : float) : LoopEnv :=
  mkLoopEnv (RetrieveGrab (mkGrabResult true [[1; 2]; [3; 4]] 2 2)) t None.

(** A loop iteration that is handed a frame whose [img.save] raises. *)
Definition frame_unsaved (t : float) : LoopEnv :=
  mkLoopEnv (RetrieveGrab (mkGrabResult true [[1; 2]; [3; 4]] 2 2)) t
    (Some (mkExn "OSError" "No space left on device")).

(** A loop iteration that is handed a grab result that did not succeed. *)
Definition frame_failed (t : float) : LoopEnv :=
  mkLoopEnv (RetrieveGrab (mkGrabResult false [] 0 0)) t None.

Definition command (name : string) (args : list (string * Value)) : Value :=
  VDict (("command", VStr name) :: args).

(** A schedule: commands already decoded, and thread steps. *)
Inductive Step :=
| Do (env : Env) (cmd : Value)
| Run (tid : nat) (le : LoopEnv).

Fixpoint play (steps : list Step) : M unit :=
  match steps with
  | [] => ret tt
  | Do env cmd :: rest => handle_command env cmd ;;; play rest
  | Run tid le :: rest => thread_step tid le ;;; play rest
  end.

Definition world_after (steps : list Step) : World :=
  snd (fst (play steps initial_world)).

Definition printed_by (steps : list Step) : list Line :=
  snd (play steps initial_world).

(** [init], [connect], [start_capture] with output directory [out]. *)
Definition start_session : list Step :=
  [Do env_ok (command "init" [("camera_ip", VStr "10.0.0.5")]);
   Do env_ok (command "connect" []);
   Do env_ok (command "start_capture" [("output_dir", VStr "out")])].

(** One full iteration of thread [tid]: the loop test, then the body. *)
Definition iteration (tid : nat) (le : LoopEnv) : list Step :=
  [Run tid le; Run tid le].

(** The frame numbers of the [FRAME_SAVED] lines of an output. *)
Fixpoint frame_saved_numbers (out : list Line) : list Z :=
  match out with
  | [] => []
  | FRAME_SAVED (VDict d) :: rest =>
      match dict_lookup "frame_number" d with
      | Some (VInt n) => n :: frame_saved_numbers rest
      | _ => frame_saved_numbers rest
      end
  | _ :: rest => frame_saved_numbers rest
  end.

(** The [ERROR] lines of an output. *)
Definition is_error (l : Line) : bool :=
  match l with ERROR _ => true | _ => false end.

(** The name [__post_init__] derives when none was passed. *)
Definition derived_name (c : CameraInfo.t) : string :=
  if String.eqb (CameraInfo.user_defined_name c) "" then
    CameraInfo.model_name c ++ " (" ++ CameraInfo.ip_address c ++ ")"
  else
    CameraInfo.user_defined_name c ++ " - " ++ CameraInfo.model_name c
      ++ " (" ++ CameraInfo.ip_address c ++ ")".

(** Two cameras on the network, one with a user-defined name. *)
Definition two_devices : Env :=
  mkEnv true
    (inr [mkDeviceInfo "BaslerGigE"
            (inr (mkDeviceFields "10.0.0.5" "Model-X" "S1" "00:11" ""));
          mkDeviceInfo "BaslerGigE"
            (inr (mkDeviceFields "10.0.0.6" "Model-X" "S2" "00:12" "Left"))])
    None None None None None None (inl (mkExn "TimeoutException" "")) None None [].

(** The world in which a session has been started and no frame has
    arrived yet; the manager is object 0 and its thread is thread 0. *)
Definition capturing_world : World := world_after start_session.

(** The world in which the camera is connected and idle. *)
Definition idle_world : World :=
  world_after
    [Do env_ok (command "init" [("camera_ip", VStr "10.0.0.5")]);
     Do env_ok (command "connect" [])].

(** The [for] loop of [update_settings] on the settings [s]: the settings
    it leaves, and the exception that ended it, if one did. *)
Fixpoint merge (kwargs : list (string * Value)) (s : CameraSettings.t)
    : CameraSettings.t * option Exn :=
  match kwargs with
  | [] => (s, None)
  | (key, value) :: rest =>
      if CameraSettings.hasattr key then
        match CameraSettings.py_setattr key value s with
        | inr s' => merge rest s'
        | inl e => (s, Some e)
        end
      else merge rest s
  end.

Definition merged_settings (kwargs : list (string * Value)) (s : CameraSettings.t)
    : CameraSettings.t :=
  fst (merge kwargs s).

Definition merge_error (kwargs : list (string * Value)) (s : CameraSettings.t)
    : option Exn :=
  snd (merge kwargs s).

(** What the call of a method leaves: its value, or the exception. *)
Definition outcome (e : option Exn) : result unit :=
  match e with Some e => Raise e | None => Ok tt end.

(** The names whose assignment does not store an attribute. *)
Definition descriptor (key : string) : bool :=
  existsb (String.eqb key) ["__class__"; "__dict__"; "__weakref__"].

(** No keyword is one of them. *)
Definition plain (kwargs : list (string * Value)) : bool :=
  forallb (fun kv => negb (descriptor (fst kv))) kwargs.

(** The keyword makes [setattr] raise. *)
Definition refused (key : string) (v : Value) : bool :=
  String.eqb key "__class__" || String.eqb key "__weakref__"
  || String.eqb key "__dict__" && negb (match v with VDict _ => true | _ => false end).

(** The assignments of [kwargs] to the fields they name, in order. *)
Definition stored (kwargs : list (string * Value)) (s : CameraSettings.t)
    : CameraSettings.t :=
  fold_left (fun s kv => CameraSettings.setattr (fst kv) (snd kv) s) kwargs s.

(** The stored gain and the capturing flag of object [self] in a world. *)
Definition stored_gain (w : World) (self : nat) : option Value :=
  match heap w !! self with
  | Some m => Some (CameraSettings.gain (settings m))
  | None => None
  end.

Definition capturing_at (w : World) (self : nat) : option bool :=
  match heap w !! self with
  | Some m => Some (is_capturing m)
  | None => None
  end.

(** The iteration was handed a frame: a grab result that succeeded. *)
Definition delivered (le : LoopEnv) : bool :=
  match retrieve le with
  | RetrieveGrab g => GrabSucceeded g
  | _ => false
  end.

(** The iteration was handed a frame and wrote it to disk. *)
Definition persisted (le : LoopEnv) : bool :=
  delivered le && match save_raises le with None => true | Some _ => false end.

(** The world in which object [self] is [m] and [new_files] were added. *)
Definition updated (self : nat) (m : CameraManager) (new_files : list (Path * ndarray))
    (w : World) : World :=
  mkWorld (handler w) (<[self := m]> (heap w)) (next_ref w) (threads w) (dirs w)
    (files w ++ new_files)%list.

(** The [FrameInfo] the loop builds for the frame numbered [n]. *)
Definition frame_info_of (m : CameraManager) (d : Path) (le : LoopEnv) (g : GrabResult)
    (n : Z) : FrameInfo.t :=
  FrameInfo.mk (camera_id m) n (path_str (path_div d (format_06d n ++ ".png")))
    (now le) (Width g) (Height g).

Definition capture_error (m : CameraManager) (e : Exn) : list Line :=
  if _capture_active m then
    [ERROR [Lit "Capture error on "; Interp (camera_id m); Lit ": "; InterpExn e]]
  else [].

Definition holding (extra : nat) (c : Camera) (m : CameraManager) : CameraManager :=
  set_camera (Some (set_held (held c + extra) c)) m.

(** What one pass through the loop body does to a manager that has a
    camera [c] and an output directory [d]: the manager after it, the
    files it wrote, the lines it printed. *)
Definition body_effect (m : CameraManager) (c : Camera) (d : Path) (le : LoopEnv)
    : CameraManager * list (Path * ndarray) * list Line :=
  match retrieve le with
  | RetrieveRaises e => (m, [], capture_error m e)
  | RetrieveEmpty => (m, [], [])
  | RetrieveGrab g =>
      if GrabSucceeded g then
        let n := frame_count m + 1 in
        match save_raises le with
        | Some e => (set_frame_count n (holding 1 c m), [], capture_error m e)
        | None =>
            (set_frame_count n m,
             [(path_div d (format_06d n ++ ".png"), Array g)],
             match _frame_callback m with
             | Some on_frame => [FRAME_SAVED (FrameInfo.asdict (frame_info_of m d le g n))]
             | None => []
             end)
        end
      else (holding 1 c m, [], [])
  end.

(** The world a computation ends in is related by [R] to the one it
    starts in, whatever it returns or raises. *)
Definition respects (R : World -> World -> Prop) {A} (c : M A) : Prop :=
  forall w, R w (snd (fst (c w))).

(** A relation on worlds from a relation on objects: every object is
    still there, related to what it was. *)
Definition obj_rel (Q : CameraManager -> CameraManager -> Prop) (w w' : World) : Prop :=
  forall i m, heap w !! i = Some m -> exists m', heap w' !! i = Some m' /\ Q m m'.

(** What the acquisition loop may change in a manager: the frame counter
    goes up or stays, and the camera object may hold more or fewer grab
    results; nothing else moves. *)
Definition same_camera_but_held (c c' : option Camera) : Prop :=
  match c, c' with
  | Some a, Some b => nodes b = nodes a /\ opened b = opened a /\ grabbing b = grabbing a
  | None, None => True
  | _, _ => False
  end.

Record progress (m m' : CameraManager) : Prop := mkProgress {
  pr_camera_id : camera_id m' = camera_id m;
  pr_settings : settings m' = settings m;
  pr_camera : same_camera_but_held (camera m) (camera m');
  pr_is_open : is_open m' = is_open m;
  pr_is_capturing : is_capturing m' = is_capturing m;
  pr_frame_count : frame_count m <= frame_count m';
  pr_capture_thread : _capture_thread m' = _capture_thread m;
  pr_capture_active : _capture_active m' = _capture_active m;
  pr_output_dir : _output_dir m' = _output_dir m;
  pr_frame_callback : _frame_callback m' = _frame_callback m
}.

(** The relation the acquisition threads respect. *)
Definition loop_rel : World -> World -> Prop := obj_rel progress.

(** Computations that return, whatever the world: no exception leaves
    them. *)
Definition returns {A} (c : M A) : Prop :=
  forall w, exists a w' out, c w = (Ok a, w', out).


(** What configuring the camera may change in a manager: its settings and
    the node map of its camera object. *)
Definition same_camera_but_nodes (c c' : option Camera) : Prop :=
  match c, c' with
  | Some a, Some b => opened b = opened a /\ grabbing b = grabbing a /\ held b = held a
  | None, None => True
  | _, _ => False
  end.

Record config_change (m m' : CameraManager) : Prop := mkConfigChange {
  cc_camera_id : camera_id m' = camera_id m;
  cc_camera : same_camera_but_nodes (camera m) (camera m');
  cc_is_open : is_open m' = is_open m;
  cc_is_capturing : is_capturing m' = is_capturing m;
  cc_frame_count : frame_count m' = frame_count m;
  cc_capture_thread : _capture_thread m' = _capture_thread m;
  cc_capture_active : _capture_active m' = _capture_active m;
  cc_output_dir : _output_dir m' = _output_dir m;
  cc_frame_callback : _frame_callback m' = _frame_callback m
}.

(** The relation the configuration code respects: objects change as
    above, and threads and the file system are left alone. *)
Definition conf_rel (w w' : World) : Prop :=
  obj_rel config_change w w'
  /\ threads w' = threads w /\ files w' = files w /\ dirs w' = dirs w
  /\ handler w' = handler w /\ next_ref w' = next_ref w.

(** What an accepted [start_capture] leaves behind. *)
Record session_started (self : nat) (output_dir : Value) (cb : option Callback)
    (w w' : World) (m' : CameraManager) : Prop := mkSessionStarted {
  ss_object : heap w' !! self = Some m';
  ss_dir : exists d, output_dir = VStr d /\ _output_dir m' = Some (Path_of d);
  ss_callback : _frame_callback m' = cb;
  ss_frame_count : frame_count m' = 0;
  ss_is_capturing : is_capturing m' = true;
  ss_capture_active : _capture_active m' = true;
  ss_camera : has_camera m' = true;
  ss_thread : _capture_thread m' = Some (length (threads w));
  ss_threads : threads w' = (threads w ++ [mkThread self AtWhile])%list;
  ss_files : files w' = files w
}.

(** The frames handed to the loop, in order: the grab results that
    succeeded, each with the environment of its iteration. *)
Fixpoint deliveries (les : list LoopEnv) : list (GrabResult * LoopEnv) :=
  match les with
  | [] => []
  | le :: rest =>
      match retrieve le with
      | RetrieveGrab g => if GrabSucceeded g then (g, le) :: deliveries rest
                          else deliveries rest
      | _ => deliveries rest
      end
  end.

(** [enumerate(l, start=c+1)] *)
Fixpoint number_from {A} (c : Z) (l : list A) : list (Z * A) :=
  match l with
  | [] => []
  | x :: rest => (c + 1, x) :: number_from (c + 1) rest
  end.

(** The frame was written to disk. *)
Definition saved (x : Z * (GrabResult * LoopEnv)) : bool :=
  match save_raises (snd (snd x)) with None => true | Some _ => false end.

(** The notification and the file of the delivered frame numbered [n]. *)
Definition notification (id : Value) (d : string) (x : Z * (GrabResult * LoopEnv)) : Value :=
  let '(n, (g, le)) := x in
  VDict [("camera_id", id);
         ("frame_number", VInt n);
         ("file_path", VStr (path_str (path_div (Path_of d) (format_06d n ++ ".png"))));
         ("timestamp", VFloat (now le));
         ("width", VInt (Width g));
         ("height", VInt (Height g))].

Definition frame_file (d : string) (x : Z * (GrabResult * LoopEnv)) : Path * ndarray :=
  let '(n, (g, le)) := x in
  (path_div (Path_of d) (format_06d n ++ ".png"), Array g).

(** The payloads of the [FRAME_SAVED] lines of an output. *)
Fixpoint frame_saved_payloads (out : list Line) : list Value :=
  match out with
  | [] => []
  | FRAME_SAVED v :: rest => v :: frame_saved_payloads rest
  | _ :: rest => frame_saved_payloads rest
  end.

(** The frame numbers carried by a list of payloads. *)
Fixpoint payload_numbers (payloads : list Value) : list Z :=
  match payloads with
  | [] => []
  | VDict d :: rest =>
      match dict_lookup "frame_number" d with
      | Some (VInt n) => n :: payload_numbers rest
      | _ => payload_numbers rest
      end
  | _ :: rest => payload_numbers rest
  end.

(** A world late in a long session: 999,999 frames have been delivered. *)
Definition late_world : World :=
  set_heap (alter (set_frame_count 999999) 0%nat (heap capturing_world)) capturing_world.

(** The frame counter of object [self] in a world. *)
Definition counter_at (w : World) (self : nat) : option Z :=
  match heap w !! self with
  | Some m => Some (frame_count m)
  | None => None
  end.

(** The number of grab results object [self] holds unreleased. *)
Definition held_at (w : World) (self : nat) : option nat :=
  match heap w !! self with
  | Some m => match camera m with Some c => Some (held c) | None => None end
  | None => None
  end.

(** A preview environment in which the one grab result did not succeed. *)
Definition preview_failed : Env :=
  mkEnv true (inr []) None None None None None None
    (inr (mkGrabResult false [] 0 0)) None None [].

(** The commands [handle_command] knows. *)
Definition recognised (command : Value) : bool :=
  existsb (eq_str command)
    ["ping"; "version"; "detect_cameras"; "init"; "connect"; "disconnect";
     "configure"; "get_preview"; "start_capture"; "stop_capture"; "status"].

(** The line is blank: nothing is left of it after [strip]. *)
Definition blank (line : string) : bool := String.eqb (strip line) "".

(** The event does not end the [for] loop over the lines: it is neither
    an interrupt nor a line that cannot be read. *)
Definition no_interrupt (e : Event) : bool :=
  match e with KeyboardInterrupt | Unreadable _ => false | _ => true end.

(** A stand-in for [json.loads] that accepts the one text [5] and rejects
    every other, the empty text included. *)
Definition decode_five (s : string) : Exn + Value :=
  if String.eqb s "5" then inr (VInt 5)
  else inl (mkExn "JSONDecodeError" "Expecting value: line 1 column 1 (char 0)").

(** A line of blanks, with its newline. *)
Definition blank_line : string := "   " ++ String (ascii_of_nat 10) "".

(** A line that holds one no-break space (U+00A0), with its newline. *)
Definition nbsp_line : string :=
  String (ascii_of_nat 194) (String (ascii_of_nat 160) (String (ascii_of_nat 10) "")).

(** What [sys.stdin] raises on a byte that is not UTF-8. *)
Definition undecodable : Exn :=
  mkExn "UnicodeDecodeError" "'utf-8' codec can't decode byte 0xff in position 0".

Definition fatal_line (e : Exn) : Line := ERROR [Lit "Fatal error: "; InterpExn e].

(** [cmd.get(key, default)] on the items of a dict. *)
Definition get_or (d : list (string * Value)) (key : string) (default : Value) : Value :=
  match dict_lookup key d with Some v => v | None => default end.

(** The [DATA] line of the [status] command for an initialised manager. *)
Definition status_reply (id : Value) (connected capturing : bool) (n : Z) (mode : string)
    : Line :=
  DATA (VDict [("success", VBool true); ("initialized", VBool true);
               ("camera_id", id); ("connected", VBool connected);
               ("capturing", VBool capturing); ("frame_count", VInt n);
               ("trigger_mode", VStr mode)]).

(** A session is started and has saved one frame; then [init] arrives. *)
Definition init_during_session : list Step :=
  (start_session ++ iteration 0 (frame_at 1) ++ [Do env_ok (command "init" [])])%list.

(** The store is well formed: nothing lives at or beyond the next free
    reference, and the manager the handler refers to is in the store. *)
Record well_formed (w : World) : Prop := mkWellFormed {
  wf_fresh : forall i, (next_ref w <= i)%nat -> heap w !! i = None;
  wf_handler : forall cam,
    IPCHandler.camera (handler w) = Some cam -> is_Some (heap w !! cam)
}.

Definition keeps_wf (w w' : World) : Prop := well_formed w -> well_formed w'.

(* ================================================================== *)
(** ** Vocabulary for the remaining methods and commands *)
(* ================================================================== *)

(** The devices enumeration keeps: those of class BaslerGigE whose fields
    can be read, in the order of the driver's list. *)
Fixpoint readable (devs : list DeviceInfo) : list DeviceFields :=
  match devs with
  | [] => []
  | d :: rest =>
      if String.eqb (GetDeviceClass d) "BaslerGigE" then
        match fields d with
        | inr f => f :: readable rest
        | inl _ => readable rest
        end
      else readable rest
  end.

(** The exceptions met while reading the fields of BaslerGigE devices. *)
Fixpoint unreadable (devs : list DeviceInfo) : list Exn :=
  match devs with
  | [] => []
  | d :: rest =>
      if String.eqb (GetDeviceClass d) "BaslerGigE" then
        match fields d with
        | inr _ => unreadable rest
        | inl e => e :: unreadable rest
        end
      else unreadable rest
  end.

(** The [CameraInfo] enumeration builds from the fields of a device. *)
Definition info_of (f : DeviceFields) : CameraInfo.t :=
  CameraInfo.init (GetIpAddress f) (GetModelName f) (GetSerialNumber f)
    (GetMacAddress f) (GetUserDefinedName f) "" false.

(** The placeholder returned when the driver is absent. *)
Definition mock_camera : CameraInfo.t :=
  CameraInfo.mk "mock" "Mock Camera" "MOCK-001" "" "" "Mock Camera (mock)" true.

(** The devices the driver lists: none when enumeration raises. *)
Definition listed (env : Env) : list DeviceInfo :=
  match devices env with inr devs => devs | inl _ => [] end.

(** The warning for a device whose fields cannot be read. *)
Definition warning_line (e : Exn) : Line :=
  WARNING [Lit "Failed to get info for camera: "; InterpExn e].

(** What [detect_cameras] returns, and what it prints. *)
Definition detected (env : Env) : list CameraInfo.t :=
  if PYLON_AVAILABLE env then map info_of (readable (listed env)) else [mock_camera].

Definition detect_lines (env : Env) : list Line :=
  if PYLON_AVAILABLE env then
    match devices env with
    | inr devs => map warning_line (unreadable devs)
    | inl e => [ERROR [Lit "Camera detection failed: "; InterpExn e]]
    end
  else [STATUS [Lit "PyPylon not available, returning mock camera only"]].

(** An enumeration of three devices: one readable camera, one camera
    whose fields cannot be read, and a device of another class. *)
Definition mixed_devices : Env :=
  mkEnv true
    (inr [mkDeviceInfo "BaslerGigE"
            (inr (mkDeviceFields "10.0.0.5" "Model-X" "S1" "00:11" ""));
          mkDeviceInfo "BaslerGigE" (inl (mkExn "RuntimeException" "Device is busy"));
          mkDeviceInfo "BaslerUsb"
            (inr (mkDeviceFields "" "Model-U" "S3" "" ""))])
    None None None None None None (inl (mkExn "TimeoutException" "")) None None [].

(** The [DATA] line of the [detect_cameras] command. *)
Definition detect_reply (cams : list CameraInfo.t) : Line :=
  DATA (VDict [("cameras", VList (map CameraInfo.asdict cams));
               ("count", VInt (Z.of_nat (length cams)))]).


(** An environment without the driver. *)
Definition no_driver : Env :=
  mkEnv false (inr []) None None None None None None
    (inl (mkExn "TimeoutException" "")) None None [].

(** The node writes of [_configure_camera], in program order. *)
Definition camera_writes (s : CameraSettings.t) : list (string * Value) :=
  [("ExposureTimeAbs", CameraSettings.exposure_time s);
   ("GainAuto", VStr "Off");
   ("GainRaw", CameraSettings.gain s);
   ("GammaEnable", VBool true);
   ("GammaSelector", VStr "User");
   ("Gamma", CameraSettings.gamma s)].

(** Of the writes [ws], numbered from [k], those made before the failing
    one. *)
Fixpoint written (fail : option (nat * Exn)) (k : nat) (ws : list (string * Value))
    : list (string * Value) :=
  match ws with
  | [] => []
  | x :: rest =>
      match fail with
      | Some (i, _) => if Nat.eqb i k then [] else x :: written fail (S k) rest
      | None => x :: written fail (S k) rest
      end
  end.

(** The exception that [n] writes numbered from [k] run into, if any. *)
Definition failure (fail : option (nat * Exn)) (k n : nat) : option Exn :=
  match fail with
  | Some (i, e) => if (k <=? i)%nat && (i <? k + n)%nat then Some e else None
  | None => None
  end.

(** The writes of [ws] made when the sequence starts at number 0. *)
Definition reached (fail : option (nat * Exn)) (ws : list (string * Value))
    : list (string * Value) :=
  match fail with
  | Some (i, _) => firstn i ws
  | None => ws
  end.

(** A node map after a sequence of writes. *)
Definition store_all (ws : list (string * Value)) (n : gmap string Value)
    : gmap string Value :=
  fold_left (fun n kv => <[fst kv := snd kv]> n) ws n.

(** The manager [m], whose camera object [c] has the node map [n]. *)
Definition with_nodes (n : gmap string Value) (c : Camera) (m : CameraManager)
    : CameraManager :=
  set_camera (Some (set_nodes n c)) m.

(** The line [_configure_camera] ends with. *)
Definition configured_line (env : Env) (m : CameraManager) : Line :=
  match failure (configure_fail env) 0 6 with
  | Some e => WARNING [Lit "Some settings not supported: "; InterpExn e]
  | None => STATUS [Lit "Camera "; Interp (camera_id m); Lit " configured"]
  end.



(** The value the last binding of [key] in [d] gives, [default] when
    there is none. *)
Definition last_value (key : string) (d : list (string * Value)) (default : Value) : Value :=
  fold_left (fun acc kv => if String.eqb (fst kv) key then snd kv else acc) d default.

(** Members of the two enumerations, the values that have [.value]. *)
Definition is_enum (v : Value) : bool :=
  match v with VTriggerMode _ | VTriggerActivation _ => true | _ => false end.

(** What [update_settings] leaves of a manager: the merged settings, and
    the configuration writes when it re-configures the camera. *)
Definition reconfigured (env : Env) (kwargs : list (string * Value)) (m : CameraManager)
    : CameraManager :=
  let s' := merged_settings kwargs (settings m) in
  match camera m with
  | Some c =>
      if is_open m && negb (is_capturing m) then
        with_nodes (store_all (reached (configure_fail env) (camera_writes s')) (nodes c))
          c (set_settings s' m)
      else set_settings s' m
  | None => set_settings s' m
  end.

Definition configure_reply : Line :=
  DATA (VDict [("success", VBool true); ("configured", VBool true)]).

Definition command_error (e : Exn) : Line :=
  ERROR [Lit "Command error: "; InterpExn e].


(** The camera object [connect] creates. *)
Definition fresh_camera : Camera := mkCamera ∅ false false 0.


(** The manager after a [connect] that got through. *)
Definition connected (env : Env) (ip : Value) (m : CameraManager) : CameraManager :=
  set_settings (CameraSettings.setattr "camera_ip" ip (settings m))
    (set_is_open true
       (with_nodes
          (store_all (reached (configure_fail env) (camera_writes (settings m))) ∅)
          (set_opened true fresh_camera) m)).




(** What stopping a session keeps of a manager. *)
Record kept (m m' : CameraManager) : Prop := mkKept {
  kp_camera_id : camera_id m' = camera_id m;
  kp_settings : settings m' = settings m;
  kp_is_open : is_open m' = is_open m;
  kp_has_camera : has_camera m' = has_camera m
}.

Definition keeps_connection : World -> World -> Prop := obj_rel kept.



(** What [grab_frame] returns and prints on an open camera. *)
Definition grab_outcome (env : Env) : option ndarray * list Line :=
  match start_max_raises env with
  | Some e => (None, [ERROR [Lit "Frame grab error: "; InterpExn e]])
  | None =>
      match grab_one env with
      | inl e => (None, [ERROR [Lit "Frame grab error: "; InterpExn e]])
      | inr g =>
          if GrabSucceeded g then (Some (Array g), [])
          else (None, [ERROR [Lit "Frame grab failed"]])
      end
  end.

(** The MIME type [grab_frame_base64] picks for a format name. *)
Definition mime_of (format : string) : string :=
  if String.eqb (lower format) "jpeg" then "image/jpeg" else "image/png".

(** The lines of a [get_preview] command on an open camera. *)
Definition preview_lines (env : Env) (format : Value) : list Line :=
  match grab_outcome env with
  | (Some img, out) =>
      match format, encode_raises env with
      | VStr s, None => out ++ [PREVIEW (mime_of s) img]
      | VStr s, Some e =>
          out ++ [ERROR [Lit "Image encoding error: "; InterpExn e];
                  ERROR [Lit "Failed to grab preview frame"]]
      | _, _ =>
          out ++ [ERROR [Lit "Image encoding error: ";
                         InterpExn (AttributeError "object has no attribute 'lower'")];
                  ERROR [Lit "Failed to grab preview frame"]]
      end
  | (None, out) => out ++ [ERROR [Lit "Failed to grab preview frame"]]
  end%list.

(** Where a step takes a thread whose target is the manager [m]. *)
Definition next_pc (p : PC) (m : CameraManager) : PC :=
  match p with
  | AtWhile => if _capture_active m then InBody else Finished
  | InBody => AtWhile
  | Finished => Finished
  end.

Definition loop_ended_line (m : CameraManager) : Line :=
  STATUS [Lit "Camera "; Interp (camera_id m); Lit " capture loop ended"].

(** The threads that have not returned and run the loop of [self]. *)
Definition live_threads (self : nat) (w : World) : list Thread :=
  List.filter
    (fun th => Nat.eqb (target th) self
               && match pc th with Finished => false | _ => true end)
    (threads w).

(** What [stop_capture] returns on a manager that is not capturing. *)
Definition not_capturing_result (m : CameraManager) : CaptureResult.t :=
  CaptureResult.mk (camera_id m) false 0 "" "" "" 0%float (Some "Not capturing").

(** A session was stopped while its thread stood at the loop test, and
    the [join] timed out before the thread took a step. *)
Definition stopped_world : World :=
  world_after (start_session ++ [Do env_ok (command "stop_capture" [])])%list.

Definition ready_line : Line := STATUS [Lit "IPC handler ready"].
Definition shutdown_line : Line := STATUS [Lit "Shutting down (KeyboardInterrupt)"].


(** [int(s)] on a string of decimal digits, continuing from [acc]. *)
Fixpoint value_of (s : string) (acc : Z) : Z :=
  match s with
  | EmptyString => acc
  | String c rest => value_of rest (acc * 10 + (Z.of_nat (nat_of_ascii c) - 48))
  end.

(** The file of frame [n] in the directory [d]. *)
Definition frame_path (d : Path) (n : Z) : Path :=
  path_div d (format_06d n ++ ".png").















(** JSON values that are not objects. *)
Definition is_dict (v : Value) : bool :=
  match v with VDict _ => true | _ => false end.

(** Whether a text holds the separator of [pathlib]. *)
Fixpoint has_slash (s : string) : bool :=
  match s with
  | String c rest => Ascii.eqb c "/"%char || has_slash rest
  | EmptyString => false
  end.

(** The iterations a schedule gives to thread [tid], in order. *)
Definition own_steps (tid : nat) (steps : list (nat * LoopEnv)) : list LoopEnv :=
  map snd (List.filter (fun s => Nat.eqb (fst s) tid) steps).

(** Where one step takes a thread of [_capture_loop] while the event
    reads [a]. *)
Definition step_pc (a : bool) (p : PC) : PC :=
  match p with
  | AtWhile => if a then InBody else Finished
  | InBody => AtWhile
  | Finished => Finished
  end.

(** Where a thread at [p] stands after the steps [les]. *)
Fixpoint pc_after (a : bool) (p : PC) (les : list LoopEnv) : PC :=
  match les with
  | [] => p
  | _ :: rest => pc_after a (step_pc a p) rest
  end.

(** The steps of [les] that are passes through the loop body, for a
    thread that starts at [p]: a step at the loop test only reads the
    event. *)
Fixpoint passes (a : bool) (p : PC) (les : list LoopEnv) : list LoopEnv :=
  match les with
  | [] => []
  | le :: rest =>
      match p with
      | InBody => le :: passes a (step_pc a p) rest
      | _ => passes a (step_pc a p) rest
      end
  end.

(** The frames of [les] that were saved, numbered on from the counter
    [c]. *)
Definition sent_from (c : Z) (les : list LoopEnv) : list (Z * (GrabResult * LoopEnv)) :=
  List.filter saved (number_from c (deliveries les)).

(** The payloads the callback [cb] prints for the frames [sent]. *)
Definition announced (cb : option Callback) (id : Value) (d : string)
    (sent : list (Z * (GrabResult * LoopEnv))) : list Value :=
  match cb with
  | Some on_frame => map (notification id d) sent
  | None => []
  end.

(** The thread [tid] runs the loop of the manager [self], which has a
    camera object, the output directory [d] and the callback [cb]; the
    event reads [a], the thread stands at [p], and every other thread has
    returned. *)
Record scheduled (self tid : nat) (d : string) (cb : option Callback) (a : bool)
    (p : PC) (w : World) (m : CameraManager) : Prop := mkScheduled {
  sch_thread : threads w !! tid = Some (mkThread self p);
  sch_others : forall i th, threads w !! i = Some th -> i <> tid -> pc th = Finished;
  sch_object : heap w !! self = Some m;
  sch_camera : has_camera m = true;
  sch_output_dir : _output_dir m = Some (Path_of d);
  sch_callback : _frame_callback m = cb;
  sch_event : _capture_active m = a
}.

(** What the loop leaves alone in a manager. *)
Record same_session (m m' : CameraManager) : Prop := mkSameSession {
  same_camera_id : camera_id m' = camera_id m;
  same_is_capturing : is_capturing m' = is_capturing m;
  same_capture_thread : _capture_thread m' = _capture_thread m
}.

(** The line [stop_capture] prints last. *)
Definition capture_stopped_line (m : CameraManager) : Line :=
  STATUS [Lit "Camera "; Interp (camera_id m); Lit " capture stopped, frames: ";
          Interp (VInt (frame_count m))].

(* ================================================================== *)
(** ** Running the monad *)
(* ================================================================== *)

Ltac munfold :=
  repeat (progress (unfold try_except, try_finally, bind, RetrieveResult,
    the_camera, camera_set, self_get, self_set, Release, image_save, mkdir,
    raise_if, modify_world, call_callback, send_frame_saved, send_data,
    send_error, send_status, the_handler, print, ret, raise, lift_sum,
    get_world, Path_ctor, enum_value, Thread_start)).

Ltac mrun :=
  repeat (progress (cbn -[lookup insert format_06d configure_hardware_trigger
                         _configure_camera run_threads];
    rewrite ?lookup_insert_eq;
    repeat match goal with
    | H : ?x = ?y |- _ =>
        lazymatch x with y => fail | _ => idtac end; progress rewrite H
    end)).

(** Closed conjunctions of equations, each settled by evaluation. *)
Ltac compute_each :=
  cbv zeta; repeat match goal with |- _ /\ _ => split end; vm_compute; reflexivity.

Lemma set_heap_same (w : World) (self : nat) (m : CameraManager) :
  heap w !! self = Some m -> set_heap (<[self := m]> (heap w)) w = w.
Proof.
  intros H. unfold set_heap. rewrite insert_id by exact H. destruct w; reflexivity.
Qed.

Lemma set_settings_same (m : CameraManager) : set_settings (settings m) m = m.
Proof. destruct m; reflexivity. Qed.

(* ================================================================== *)
(** ** CameraInfo *)
(* ================================================================== *)

Lemma init_derives_name (ip model serial mac user : string) (mock : bool) :
  CameraInfo.friendly_name (CameraInfo.init ip model serial mac user "" mock)
  = derived_name (CameraInfo.init ip model serial mac user "" mock).
Proof.
  unfold CameraInfo.init, CameraInfo.post_init, derived_name. cbn.
  destruct (String.eqb user "") eqn:E; cbn; rewrite ?E; reflexivity.
Qed.

Lemma detect_loop_names (devs : list DeviceInfo) (w : World) :
  exists cams out,
    detect_loop devs w = (Ok cams, w, out)
    /\ Forall (fun c => CameraInfo.friendly_name c = derived_name c) cams.
Proof.
  induction devs as [|d devs IH]; cbn.
  - exists [], []. split; [reflexivity | constructor].
  - destruct IH as (cams & out & Hrun & Hall).
    unfold bind at 1.
    destruct (String.eqb (GetDeviceClass d) "BaslerGigE").
    + destruct (fields d) as [e | f]; munfold; cbn; rewrite Hrun; cbn.
      * eexists _, _. split; [reflexivity | exact Hall].
      * eexists _, _. split; [reflexivity |].
        constructor; [apply init_derives_name | exact Hall].
    + munfold; cbn. rewrite Hrun. cbn.
      eexists _, _. split; [reflexivity | exact Hall].
Qed.

(** C9.  A [CameraInfo] built without a friendly name, as enumeration
    builds it, is named "{user_name} - {model} ({address})" when the
    user-defined name is non-empty and "{model} ({address})" otherwise;
    this holds of every entry [detect_cameras] returns, and gives
    "Model-X (10.0.0.5)" and "Left - Model-X (10.0.0.5)" on the two
    example cameras. *)
Theorem friendly_name_of_enumerated :
  (forall ip model serial mac user mock,
     CameraInfo.friendly_name (CameraInfo.init ip model serial mac user "" mock)
     = if String.eqb user "" then model ++ " (" ++ ip ++ ")"
       else user ++ " - " ++ model ++ " (" ++ ip ++ ")")
  /\ (forall env w cams w' out,
        detect_cameras env w = (Ok cams, w', out) ->
        Forall (fun c => CameraInfo.friendly_name c = derived_name c) cams)
  /\ CameraInfo.friendly_name
       (CameraInfo.init "10.0.0.5" "Model-X" "S1" "" "" "" false)
     = "Model-X (10.0.0.5)"
  /\ CameraInfo.friendly_name
       (CameraInfo.init "10.0.0.5" "Model-X" "S1" "" "Left" "" false)
     = "Left - Model-X (10.0.0.5)".
Proof.
  split; [| split; [| split; reflexivity]].
  - intros. rewrite init_derives_name. unfold derived_name, CameraInfo.init,
      CameraInfo.post_init. cbn.
    destruct (String.eqb user "") eqn:E; cbn; rewrite ?E; reflexivity.
  - intros env w cams w' out. unfold detect_cameras.
    destruct (PYLON_AVAILABLE env); cbn.
    + unfold try_except, bind. destruct (devices env) as [e | devs]; cbn.
      * intros H; inversion H; subst. constructor.
      * destruct (detect_loop_names devs w) as (cams' & out' & Hrun & Hall).
        rewrite Hrun. cbn. intros H; inversion H; subst. exact Hall.
    + intros H; inversion H; subst. repeat constructor.
Qed.

Lemma friendly_name_of_enumerated_witness :
  map CameraInfo.friendly_name
    (match fst (fst (detect_cameras two_devices initial_world)) with
     | Ok cams => cams
     | Raise _ => []
     end)
  = ["Model-X (10.0.0.5)"; "Left - Model-X (10.0.0.6)"]
  /\ Forall (fun c => CameraInfo.friendly_name c = derived_name c)
       (match fst (fst (detect_cameras two_devices initial_world)) with
        | Ok cams => cams
        | Raise _ => []
        end).
Proof.
  split; [reflexivity |].
  apply (proj1 (proj2 friendly_name_of_enumerated) two_devices initial_world _
           initial_world (snd (detect_cameras two_devices initial_world))).
  reflexivity.
Defined.

(* ================================================================== *)
(** ** Rejected calls *)
(* ================================================================== *)

(** C4.  Called on a manager that is not capturing, [stop_capture] returns
    a result with [success = False], [frame_count = 0] and the error
    "Not capturing"; it prints nothing and the world it returns is the
    world it was called in, so the frame counter, the capturing flag, the
    output directory and the thread handle keep their values. *)
Theorem stop_capture_when_idle (env : Env) (self : nat) (w : World) (m : CameraManager) :
  heap w !! self = Some m ->
  is_capturing m = false ->
  stop_capture env self w
  = (Ok (CaptureResult.mk (camera_id m) false 0 "" "" "" 0%float
           (Some "Not capturing")), w, []).
Proof.
  intros Hm Hcap. unfold stop_capture. munfold. mrun. reflexivity.
Qed.

Lemma stop_capture_when_idle_witness :
  exists m,
    heap idle_world !! 0%nat = Some m
    /\ is_capturing m = false
    /\ stop_capture env_ok 0 idle_world
       = (Ok (CaptureResult.mk (camera_id m) false 0 "" "" "" 0%float
                (Some "Not capturing")), idle_world, []).
Proof.
  eexists. split; [vm_compute; reflexivity |].
  split; [reflexivity |].
  apply (stop_capture_when_idle env_ok 0 idle_world); reflexivity.
Defined.

(** C5.  Called on a manager that is not connected ([is_open] false or no
    camera object) or that is already capturing, [start_capture] returns
    [False], prints one error line, and returns the world it was called
    in: the output directory, the frame counter and every other attribute
    of the running session keep their values, and no thread is started. *)
Theorem start_capture_rejected (env : Env) (self : nat) (output_dir : Value)
    (cb : option Callback) (w : World) (m : CameraManager) :
  heap w !! self = Some m ->
  is_open m = false \/ camera m = None \/ is_capturing m = true ->
  exists text, start_capture env self output_dir cb w = (Ok false, w, [ERROR text]).
Proof.
  intros Hm Hcase. unfold start_capture, has_camera. munfold. mrun.
  destruct (is_open m) eqn:Hopen; cbn.
  - destruct (camera m) eqn:Hcam; cbn.
    + destruct Hcase as [H | [H | H]]; try discriminate.
      rewrite H. eexists; reflexivity.
    + eexists; reflexivity.
  - eexists; reflexivity.
Qed.

Lemma start_capture_rejected_witness :
  (exists m, heap capturing_world !! 0%nat = Some m /\ is_capturing m = true)
  /\ exists text,
       start_capture env_ok 0 (VStr "elsewhere") (Some on_frame) capturing_world
       = (Ok false, capturing_world, [ERROR text]).
Proof.
  split.
  - eexists. split; vm_compute; reflexivity.
  - eapply start_capture_rejected;
      [vm_compute; reflexivity | right; right; reflexivity].
Defined.

(* ================================================================== *)
(** ** Settings *)
(* ================================================================== *)

Lemma update_fields_run (kwargs : list (string * Value)) (self : nat) (w : World)
    (m : CameraManager) :
  heap w !! self = Some m ->
  update_fields self kwargs w
  = (outcome (merge_error kwargs (settings m)),
     set_heap (<[self := set_settings (merged_settings kwargs (settings m)) m]> (heap w)) w,
     []).
Proof.
  unfold merged_settings, merge_error.
  revert w m. induction kwargs as [|[key value] kwargs IH]; intros w m Hm.
  - cbn. rewrite set_settings_same, set_heap_same by exact Hm. reflexivity.
  - cbn [update_fields merge].
    destruct (CameraSettings.hasattr key).
    + destruct (CameraSettings.py_setattr key value (settings m)) as [e | s'] eqn:Hset.
      * munfold. mrun.
        rewrite set_settings_same, set_heap_same by exact Hm. reflexivity.
      * munfold. mrun.
        erewrite IH by (cbn; apply lookup_insert_eq).
        cbn. unfold set_heap. cbn. rewrite insert_insert_eq.
        destruct (snd (merge kwargs s')); reflexivity.
    + munfold. mrun. rewrite (IH w m Hm).
      destruct (snd (merge kwargs (settings m))); reflexivity.
Qed.

Lemma setattr_not_field (key : string) (v : Value) (s : CameraSettings.t) :
  CameraSettings.is_field key = false -> CameraSettings.setattr key v s = s.
Proof.
  unfold CameraSettings.is_field. cbn [existsb]. intros H.
  repeat (apply Bool.orb_false_elim in H; destruct H as [?H H]).
  unfold CameraSettings.setattr.
  repeat match goal with
         | Hk : String.eqb key _ = false |- _ => rewrite Hk; clear Hk
         end.
  reflexivity.
Qed.

Lemma py_setattr_plain (key : string) (v : Value) (s : CameraSettings.t) :
  descriptor key = false ->
  CameraSettings.py_setattr key v s = inr (CameraSettings.setattr key v s).
Proof.
  unfold descriptor. cbn [existsb]. intros H.
  repeat (apply Bool.orb_false_elim in H; destruct H as [?H H]).
  unfold CameraSettings.py_setattr.
  repeat match goal with
         | Hk : String.eqb key _ = false |- _ => rewrite Hk; clear Hk
         end.
  reflexivity.
Qed.

Lemma merge_step_plain (key : string) (v : Value) (rest : list (string * Value))
    (s : CameraSettings.t) :
  descriptor key = false ->
  merge ((key, v) :: rest) s = merge rest (CameraSettings.setattr key v s).
Proof.
  intros Hd. cbn [merge]. rewrite (py_setattr_plain key v s Hd).
  unfold CameraSettings.hasattr.
  destruct (CameraSettings.is_field key) eqn:Hf; cbn [orb].
  - reflexivity.
  - rewrite (setattr_not_field key v s Hf).
    destruct (existsb _ _); reflexivity.
Qed.

Lemma merge_app_plain (before rest : list (string * Value)) :
  forall s, plain before = true -> merge (before ++ rest) s = merge rest (stored before s).
Proof.
  induction before as [|[key v] before IH]; intros s Hp; [reflexivity |].
  cbn in Hp. apply andb_prop in Hp. destruct Hp as [Hk Hp].
  apply Bool.negb_true_iff in Hk.
  change (((key, v) :: before) ++ rest)%list with ((key, v) :: (before ++ rest))%list.
  rewrite (merge_step_plain key v _ s Hk). rewrite (IH _ Hp). reflexivity.
Qed.

Lemma merge_plain (kwargs : list (string * Value)) (s : CameraSettings.t) :
  plain kwargs = true -> merge kwargs s = (stored kwargs s, None).
Proof.
  intros Hp. rewrite <- (app_nil_r kwargs) at 1.
  rewrite (merge_app_plain kwargs [] s Hp). reflexivity.
Qed.

Lemma merge_refused (key : string) (v : Value) (rest : list (string * Value))
    (s : CameraSettings.t) :
  refused key v = true -> exists e, merge ((key, v) :: rest) s = (s, Some e).
Proof.
  unfold refused. intros H. cbn [merge].
  destruct (String.eqb_spec key "__class__") as [-> | H1]; [eexists; reflexivity |].
  destruct (String.eqb_spec key "__weakref__") as [-> | H2]; [eexists; reflexivity |].
  destruct (String.eqb_spec key "__dict__") as [-> | H3]; [| discriminate].
  destruct v; try discriminate; eexists; reflexivity.
Qed.

(** C6 (amended).  While a session is running, [update_settings] runs its
    [for] loop over the keywords and nothing else: the camera object, and
    with it the node map of the hardware, is the one it was,
    [_configure_camera] is not called, nothing is printed, and no other
    attribute of the manager changes.  As long as no keyword is
    [__class__], [__dict__] or [__weakref__], the call returns and every
    keyword that names a field has been stored, in order.  A keyword
    [__class__] or [__weakref__], or [__dict__] with a value that is not
    an object, makes the call raise with the keywords before it stored;
    [__dict__] with an object replaces all nine fields by what the object
    and the class defaults give, and the loop goes on from there. *)
Theorem update_settings_while_capturing (env : Env) (self : nat)
    (kwargs : list (string * Value)) (w : World) (m : CameraManager) :
  heap w !! self = Some m ->
  is_capturing m = true ->
  update_settings env self kwargs w
  = (outcome (merge_error kwargs (settings m)),
     set_heap (<[self := set_settings (merged_settings kwargs (settings m)) m]> (heap w)) w,
     [])
  /\ camera (set_settings (merged_settings kwargs (settings m)) m) = camera m
  /\ (plain kwargs = true ->
      merge_error kwargs (settings m) = None
      /\ merged_settings kwargs (settings m) = stored kwargs (settings m))
  /\ (forall before key v after,
        kwargs = (before ++ (key, v) :: after)%list ->
        plain before = true ->
        refused key v = true ->
        merge_error kwargs (settings m) <> None
        /\ merged_settings kwargs (settings m) = stored before (settings m))
  /\ (forall before d after,
        kwargs = (before ++ ("__dict__", VDict d) :: after)%list ->
        plain before = true ->
        merged_settings kwargs (settings m)
        = merged_settings after (CameraSettings.from_dict d)
        /\ merge_error kwargs (settings m)
           = merge_error after (CameraSettings.from_dict d)).
Proof.
  intros Hm Hcap. split; [| split; [reflexivity | split; [| split]]].
  - unfold update_settings, bind. rewrite (update_fields_run kwargs self w m Hm).
    destruct (merge_error kwargs (settings m)); [reflexivity |].
    munfold. mrun. rewrite Bool.andb_false_r. reflexivity.
  - intros Hp. unfold merge_error, merged_settings.
    rewrite (merge_plain kwargs (settings m) Hp). split; reflexivity.
  - intros before key v after -> Hp Href. unfold merge_error, merged_settings.
    rewrite (merge_app_plain before _ (settings m) Hp).
    destruct (merge_refused key v after (stored before (settings m)) Href) as (e & ->).
    split; [discriminate | reflexivity].
  - intros before d after -> Hp. unfold merge_error, merged_settings.
    rewrite (merge_app_plain before _ (settings m) Hp). split; reflexivity.
Qed.

Lemma update_settings_while_capturing_witness :
  exists m,
    heap capturing_world !! 0%nat = Some m
    /\ is_capturing m = true
    /\ update_settings env_ok 0 [("gain", VInt 5); ("colour", VStr "red")] capturing_world
       = (Ok tt,
          set_heap
            (<[0%nat := set_settings
                 (stored [("gain", VInt 5); ("colour", VStr "red")] (settings m))
                 m]> (heap capturing_world))
            capturing_world,
          [])
    /\ fst (fst (update_settings env_ok 0 [("gain", VInt 5); ("__class__", VInt 1)]
                   capturing_world))
       = Raise (TypeError "__class__ must be set to a class, not 'int' object").
Proof.
  assert (Hm : exists m, heap capturing_world !! 0%nat = Some m /\ is_capturing m = true)
    by (eexists; split; vm_compute; reflexivity).
  destruct Hm as (m & Hm & Hcap).
  exists m. split; [exact Hm |]. split; [exact Hcap |].
  destruct (update_settings_while_capturing env_ok 0
              [("gain", VInt 5); ("colour", VStr "red")] capturing_world m Hm Hcap)
    as (Hrun & _ & Hplain & _).
  destruct (Hplain eq_refl) as (Herr & Hmerged).
  rewrite Herr, Hmerged in Hrun.
  split; [exact Hrun |].
  destruct (update_settings_while_capturing env_ok 0
              [("gain", VInt 5); ("__class__", VInt 1)] capturing_world m Hm Hcap)
    as (Hrun2 & _).
  rewrite Hrun2. reflexivity.
Defined.

(** C6, as stated, fails: a [configure] command that arrives while the
    session runs overwrites the stored gain. *)
Lemma update_settings_while_capturing_counterexample :
  let w' := snd (fst (handle_command env_ok
                        (command "configure" [("settings", VDict [("gain", VInt 5)])])
                        capturing_world)) in
  capturing_at capturing_world 0 = Some true
  /\ stored_gain capturing_world 0 = Some (VInt 0)
  /\ stored_gain w' 0 = Some (VInt 5)
  /\ stored_gain w' 0 <> stored_gain capturing_world 0.
Proof.
  cbv zeta. split; [vm_compute; reflexivity |].
  split; [vm_compute; reflexivity |].
  split; [vm_compute; reflexivity | vm_compute; discriminate].
Qed.

(* ================================================================== *)
(** ** One iteration of the acquisition loop *)
(* ================================================================== *)

Lemma updated_same (self : nat) (m : CameraManager) (w : World) :
  heap w !! self = Some m -> updated self m [] w = w.
Proof.
  intros H. unfold updated. rewrite insert_id by exact H. rewrite app_nil_r.
  destruct w; reflexivity.
Qed.

Lemma updated_updated (self : nat) (m1 m2 : CameraManager) f1 f2 (w : World) :
  updated self m2 f2 (updated self m1 f1 w) = updated self m2 (f1 ++ f2)%list w.
Proof.
  unfold updated. cbn. rewrite insert_insert_eq, app_assoc. reflexivity.
Qed.

Lemma heap_updated (self : nat) (m : CameraManager) f (w : World) :
  heap (updated self m f w) !! self = Some m.
Proof. cbn. apply lookup_insert_eq. Qed.

Lemma holding_zero (c : Camera) (m : CameraManager) :
  camera m = Some c -> holding 0 c m = m.
Proof.
  intros H. unfold holding, set_camera, set_held. rewrite Nat.add_0_r.
  destruct m as [? ? cam ? ? ? ? ? ? ?]; cbn in *. subst cam. destruct c; reflexivity.
Qed.

Lemma body_run (self : nat) (le : LoopEnv) (w : World) (m : CameraManager)
    (c : Camera) (d : Path) :
  heap w !! self = Some m ->
  camera m = Some c ->
  _output_dir m = Some d ->
  _capture_loop_body self le w
  = (Ok tt,
     updated self (fst (fst (body_effect m c d le))) (snd (fst (body_effect m c d le))) w,
     snd (body_effect m c d le)).
Proof.
  intros Hm Hc Hd. unfold _capture_loop_body, body_effect.
  destruct (retrieve le) as [e | | g] eqn:Hr.
  - munfold. mrun. rewrite updated_same by exact Hm. unfold capture_error.
    destruct (_capture_active m); reflexivity.
  - munfold. mrun. rewrite updated_same by exact Hm. reflexivity.
  - destruct (GrabSucceeded g) eqn:Hg.
    + destruct (save_raises le) as [e |] eqn:Hs.
      * munfold. mrun. unfold capture_error, updated, set_heap, holding.
        cbn. rewrite !insert_insert_eq, app_nil_r, Nat.add_1_r.
        destruct (_capture_active m); reflexivity.
      * munfold. mrun.
        destruct (_frame_callback m) as [[] |] eqn:Hcb; mrun;
          unfold updated, set_heap, set_files, frame_info_of; cbn;
          rewrite !insert_insert_eq;
          (replace (set_camera _ (set_frame_count _ (set_camera _ m)))
             with (set_frame_count (frame_count m + 1) m)
             by (destruct m as [? ? cam ? ? ? ? ? ? ?]; cbn in *; subst cam;
                 destruct c; reflexivity));
          reflexivity.
    + munfold. mrun. unfold updated, set_heap, holding. cbn.
      rewrite app_nil_r, Nat.add_1_r. reflexivity.
Qed.

(* ================================================================== *)
(** ** Relations every step of a computation respects *)
(* ================================================================== *)

Section Respects.

Variable R : World -> World -> Prop.
Hypothesis R_refl : forall w, R w w.
Hypothesis R_trans : forall a b c, R a b -> R b c -> R a c.

Lemma respects_ret {A} (a : A) : respects R (ret a).
Proof. intros w. apply R_refl. Qed.

Lemma respects_raise {A} (e : Exn) : respects R (@raise A e).
Proof. intros w. apply R_refl. Qed.

Lemma respects_print (l : Line) : respects R (print l).
Proof. intros w. apply R_refl. Qed.

Lemma respects_get_world : respects R get_world.
Proof. intros w. apply R_refl. Qed.

Lemma respects_the_handler : respects R the_handler.
Proof. intros w. apply R_refl. Qed.

Lemma respects_self_get (self : nat) : respects R (self_get self).
Proof. intros w. unfold self_get. destruct (heap w !! self); apply R_refl. Qed.

Lemma respects_lift_sum {A} (r : Exn + A) : respects R (lift_sum r).
Proof. destruct r; intros w; apply R_refl. Qed.

Lemma respects_raise_if (e : option Exn) : respects R (raise_if e).
Proof. destruct e; intros w; apply R_refl. Qed.

Lemma respects_enum_value (v : Value) : respects R (enum_value v).
Proof. destruct v; intros w; apply R_refl. Qed.

Lemma respects_Path_ctor (v : Value) : respects R (Path_ctor v).
Proof. destruct v; intros w; apply R_refl. Qed.

Lemma respects_bind {A B} (c : M A) (k : A -> M B) :
  respects R c -> (forall a, respects R (k a)) -> respects R (bind c k).
Proof.
  intros Hc Hk w. unfold bind. specialize (Hc w).
  destruct (c w) as [[[a | e] w1] out1]; cbn in *.
  - specialize (Hk a w1). destruct (k a w1) as [[r w2] out2]; cbn in *.
    eapply R_trans; eassumption.
  - exact Hc.
Qed.

Lemma respects_try_except {A} (body : M A) (h : Exn -> M A) :
  respects R body -> (forall e, respects R (h e)) -> respects R (try_except body h).
Proof.
  intros Hc Hk w. unfold try_except. specialize (Hc w).
  destruct (body w) as [[[a | e] w1] out1]; cbn in *.
  - exact Hc.
  - specialize (Hk e w1). destruct (h e w1) as [[r w2] out2]; cbn in *.
    eapply R_trans; eassumption.
Qed.

Lemma respects_try_finally {A} (body : M A) (final : M unit) :
  respects R body -> respects R final -> respects R (try_finally body final).
Proof.
  intros Hc Hk w. unfold try_finally. specialize (Hc w).
  destruct (body w) as [[r w1] out1]; cbn in *.
  specialize (Hk w1). destruct (final w1) as [[[a | e] w2] out2]; cbn in *;
    eapply R_trans; eassumption.
Qed.

Lemma respects_modify_world (f : World -> World) :
  (forall w, R w (f w)) -> respects R (modify_world f).
Proof. intros H w. apply H. Qed.

End Respects.

(** Structural steps of a proof that a computation respects a relation
    with reflexivity [Hrefl] and transitivity [Htrans]. *)
Ltac respects_step Hrefl Htrans :=
  first
    [ apply (respects_ret _ Hrefl)
    | apply (respects_raise _ Hrefl)
    | apply (respects_print _ Hrefl)
    | apply (respects_get_world _ Hrefl)
    | apply (respects_the_handler _ Hrefl)
    | apply (respects_self_get _ Hrefl)
    | apply (respects_lift_sum _ Hrefl)
    | apply (respects_raise_if _ Hrefl)
    | apply (respects_enum_value _ Hrefl)
    | apply (respects_Path_ctor _ Hrefl)
    | apply (respects_bind _ Htrans); [| intros ?]
    | apply (respects_try_except _ Htrans); [| intros ?]
    | apply (respects_try_finally _ Htrans)
    | match goal with
      | |- respects _ (match ?x with _ => _ end) => destruct x
      | |- respects _ (if ?b then _ else _) => destruct b
      end ].

Lemma obj_rel_refl Q : (forall m, Q m m) -> forall w, obj_rel Q w w.
Proof. intros HQ w i m H. exists m. split; [exact H | apply HQ]. Qed.

Lemma obj_rel_trans Q :
  (forall a b c, Q a b -> Q b c -> Q a c) ->
  forall a b c, obj_rel Q a b -> obj_rel Q b c -> obj_rel Q a c.
Proof.
  intros HQ a b c Hab Hbc i m H.
  destruct (Hab i m H) as (m1 & H1 & Q1).
  destruct (Hbc i m1 H1) as (m2 & H2 & Q2).
  exists m2. split; [exact H2 | eapply HQ; eassumption].
Qed.

Lemma obj_rel_insert Q (w : World) (self : nat) (m m' : CameraManager) :
  (forall m, Q m m) ->
  heap w !! self = Some m -> Q m m' ->
  obj_rel Q w (set_heap (<[self := m']> (heap w)) w).
Proof.
  intros HQ Hm Hmm i m0 H. cbn.
  destruct (decide (self = i)) as [-> | Hne].
  - rewrite lookup_insert_eq. exists m'. split; [reflexivity |].
    rewrite Hm in H. inversion H; subst. exact Hmm.
  - rewrite lookup_insert_ne by exact Hne. exists m0. split; [exact H | apply HQ].
Qed.

Lemma obj_rel_same_heap Q (w w' : World) :
  (forall m, Q m m) -> heap w' = heap w -> obj_rel Q w w'.
Proof. intros HQ Hh i m H. rewrite Hh. exists m. split; [exact H | apply HQ]. Qed.

Lemma same_camera_refl c : same_camera_but_held c c.
Proof. destruct c; cbn; auto. Qed.

Lemma same_camera_trans a b c :
  same_camera_but_held a b -> same_camera_but_held b c -> same_camera_but_held a c.
Proof.
  destruct a, b, c; cbn; try tauto.
  intros (-> & -> & ->) (-> & -> & ->). auto.
Qed.

Lemma progress_refl m : progress m m.
Proof. constructor; try reflexivity. apply same_camera_refl. Qed.

Lemma progress_trans a b c : progress a b -> progress b c -> progress a c.
Proof.
  intros [] []. constructor; try congruence; try lia.
  eapply same_camera_trans; eassumption.
Qed.

Lemma loop_rel_refl w : loop_rel w w.
Proof. apply obj_rel_refl, progress_refl. Qed.

Lemma loop_rel_trans a b c : loop_rel a b -> loop_rel b c -> loop_rel a c.
Proof. apply obj_rel_trans, progress_trans. Qed.

Lemma loop_self_set (self : nat) (f : CameraManager -> CameraManager) :
  (forall m, progress m (f m)) -> respects loop_rel (self_set self f).
Proof.
  intros Hf w. unfold self_set. destruct (heap w !! self) as [m |] eqn:Hm; cbn.
  - eapply obj_rel_insert; [apply progress_refl | exact Hm | apply Hf].
  - apply loop_rel_refl.
Qed.

Lemma loop_camera_set_held (self : nat) (h : Camera -> nat) :
  respects loop_rel (camera_set self (fun c => set_held (h c) c)).
Proof.
  intros w. unfold camera_set, the_camera, bind, self_get, self_set, ret, raise.
  destruct (heap w !! self) as [m |] eqn:Hm; cbn; [| apply loop_rel_refl].
  destruct (camera m) as [c |] eqn:Hc; cbn; [| apply loop_rel_refl].
  rewrite Hm. cbn.
  eapply obj_rel_insert; [apply progress_refl | exact Hm |].
  constructor; try reflexivity; try lia.
  rewrite Hc. cbn. auto.
Qed.

Lemma loop_same_heap (f : World -> World) :
  (forall w, heap (f w) = heap w) -> respects loop_rel (modify_world f).
Proof.
  intros H. apply respects_modify_world. intros w.
  apply obj_rel_same_heap; [apply progress_refl | apply H].
Qed.

Lemma loop_body (self : nat) (le : LoopEnv) :
  respects loop_rel (_capture_loop_body self le).
Proof.
  unfold _capture_loop_body, RetrieveResult, Release, image_save, call_callback,
    send_frame_saved, the_camera.
  repeat first
    [ apply loop_camera_set_held
    | apply loop_self_set; intros m; constructor; cbn; try reflexivity;
        try lia; apply same_camera_refl
    | apply loop_same_heap; intros w; reflexivity
    | respects_step loop_rel_refl loop_rel_trans ].
Qed.

Lemma loop_set_pc (tid : nat) (p : PC) : respects loop_rel (set_pc tid p).
Proof.
  unfold set_pc. apply loop_same_heap. intros w.
  destruct (threads w !! tid); reflexivity.
Qed.

Lemma loop_thread_step (tid : nat) (le : LoopEnv) :
  respects loop_rel (thread_step tid le).
Proof.
  unfold thread_step.
  repeat first
    [ apply loop_set_pc | apply loop_body
    | respects_step loop_rel_refl loop_rel_trans ].
Qed.

Lemma loop_run_threads (steps : list (nat * LoopEnv)) :
  respects loop_rel (run_threads steps).
Proof.
  induction steps as [| [tid le] steps IH]; cbn.
  - apply (respects_ret _ loop_rel_refl).
  - apply (respects_bind _ loop_rel_trans); [apply loop_thread_step | intros _; exact IH].
Qed.

Lemma returns_ret {A} (a : A) : returns (ret a).
Proof. intros w. eexists _, _, _; reflexivity. Qed.

Lemma returns_print (l : Line) : returns (print l).
Proof. intros w. eexists _, _, _; reflexivity. Qed.

Lemma returns_modify_world (f : World -> World) : returns (modify_world f).
Proof. intros w. eexists _, _, _; reflexivity. Qed.

Lemma returns_get_world : returns get_world.
Proof. intros w. eexists _, _, _; reflexivity. Qed.

Lemma returns_bind {A B} (c : M A) (k : A -> M B) :
  returns c -> (forall a, returns (k a)) -> returns (bind c k).
Proof.
  intros Hc Hk w. unfold bind.
  destruct (Hc w) as (a & w1 & out1 & ->).
  destruct (Hk a w1) as (b & w2 & out2 & ->).
  eexists _, _, _; reflexivity.
Qed.

Lemma returns_try_except {A} (body : M A) (h : Exn -> M A) :
  (forall e, returns (h e)) -> returns (try_except body h).
Proof.
  intros Hh w. unfold try_except.
  destruct (body w) as [[[a | e] w1] out1].
  - eexists _, _, _; reflexivity.
  - destruct (Hh e w1) as (b & w2 & out2 & ->). eexists _, _, _; reflexivity.
Qed.

Lemma returns_set_pc (tid : nat) (p : PC) : returns (set_pc tid p).
Proof. apply returns_modify_world. Qed.

(** Steps of acquisition threads never raise into their caller. *)
Lemma thread_step_returns (tid : nat) (le : LoopEnv) : returns (thread_step tid le).
Proof.
  unfold thread_step. apply returns_bind; [apply returns_get_world |].
  intros w0. destruct (threads w0 !! tid) as [th |]; [| apply returns_ret].
  destruct (pc th).
  - apply returns_try_except. intros _. apply returns_set_pc.
  - apply returns_try_except. intros _. apply returns_set_pc.
  - apply returns_ret.
Qed.

Lemma run_threads_returns (steps : list (nat * LoopEnv)) : returns (run_threads steps).
Proof.
  induction steps as [| [tid le] steps IH]; cbn.
  - apply returns_ret.
  - apply returns_bind; [apply thread_step_returns | intros _; exact IH].
Qed.

(* ================================================================== *)
(** ** Stopping a session *)
(* ================================================================== *)

Ltac stop_capture_finish :=
  match goal with
  | |- ex (fun w' => ex (fun out => ex (fun m' => (_, ?W, _) = _ /\ _))) => exists W
  end;
  eexists _, _;
  (split; [| split; [cbn; apply lookup_insert_eq |]]);
  [reflexivity | cbn; repeat split; auto; try lia].

Lemma stop_capture_run (env : Env) (self : nat) (w : World) (m : CameraManager) :
  heap w !! self = Some m ->
  is_capturing m = true ->
  exists w' out m',
    stop_capture env self w
    = (Ok (CaptureResult.mk (camera_id m) true (frame_count m')
             (match _output_dir m with Some d => path_str d | None => "" end)
             "" "" 0%float None), w', out)
    /\ heap w' !! self = Some m'
    /\ frame_count m <= frame_count m'
    /\ (join_window env = [] -> frame_count m' = frame_count m)
    /\ is_capturing m' = false
    /\ _capture_active m' = false
    /\ _capture_thread m' = None
    /\ _output_dir m' = _output_dir m.
Proof.
  intros Hm Hcap.
  pose (w1 := set_heap (<[self := set_capture_active false m]> (heap w)) w).
  assert (H1 : heap w1 !! self = Some (set_capture_active false m))
    by (cbn; apply lookup_insert_eq).
  destruct (run_threads_returns (join_window env) w1) as ([] & w2 & out2 & Hj).
  pose proof (loop_run_threads (join_window env) w1) as Hrel.
  rewrite Hj in Hrel. cbn in Hrel.
  destruct (Hrel self _ H1) as (m2 & Hm2 & Hp).
  assert (Hempty : join_window env = [] -> frame_count m2 = frame_count m).
  { intros He. rewrite He in Hj. cbn in Hj. inversion Hj; subst w2.
    rewrite H1 in Hm2. inversion Hm2; reflexivity. }
  destruct Hp as [Pid Pset Pcam Popen Pcap Pfc Pth Pact Pdir Pcb]. cbn in *.
  clear Hrel H1. subst w1.
  unfold stop_capture, join. munfold.
  destruct (_capture_thread m) as [tid |] eqn:Hth; mrun.
  - destruct (camera m2) as [c2 |] eqn:Hc2; mrun;
      [destruct (grabbing c2) eqn:Hg2; mrun |]; stop_capture_finish.
  - destruct (camera m) as [c |] eqn:Hc; mrun;
      [destruct (grabbing c) eqn:Hg; mrun |]; stop_capture_finish.
Qed.

(* ================================================================== *)
(** ** Starting a session *)
(* ================================================================== *)

Lemma same_nodes_refl c : same_camera_but_nodes c c.
Proof. destruct c; cbn; auto. Qed.

Lemma same_nodes_trans a b c :
  same_camera_but_nodes a b -> same_camera_but_nodes b c -> same_camera_but_nodes a c.
Proof.
  destruct a, b, c; cbn; try tauto.
  intros (-> & -> & ->) (-> & -> & ->). auto.
Qed.

Lemma config_change_refl m : config_change m m.
Proof. constructor; try reflexivity. apply same_nodes_refl. Qed.

Lemma config_change_trans a b c : config_change a b -> config_change b c -> config_change a c.
Proof.
  intros [] []. constructor; try congruence.
  eapply same_nodes_trans; eassumption.
Qed.

Lemma conf_rel_refl w : conf_rel w w.
Proof. split; [apply obj_rel_refl, config_change_refl | auto]. Qed.

Lemma conf_rel_trans a b c : conf_rel a b -> conf_rel b c -> conf_rel a c.
Proof.
  intros (H1 & T1 & F1 & D1 & L1 & N1) (H2 & T2 & F2 & D2 & L2 & N2).
  split; [eapply obj_rel_trans; [apply config_change_trans | exact H1 | exact H2] |].
  repeat split; congruence.
Qed.

Lemma conf_self_set (self : nat) (f : CameraManager -> CameraManager) :
  (forall m, config_change m (f m)) -> respects conf_rel (self_set self f).
Proof.
  intros Hf w. unfold self_set. destruct (heap w !! self) as [m |] eqn:Hm; cbn.
  - split; [| auto].
    eapply obj_rel_insert; [apply config_change_refl | exact Hm | apply Hf].
  - apply conf_rel_refl.
Qed.

Lemma conf_write_node (self : nat) (name : string) (v : Value) :
  respects conf_rel (write_node self name v).
Proof.
  intros w. unfold write_node, camera_set, the_camera, bind, self_get, self_set, ret, raise.
  destruct (heap w !! self) as [m |] eqn:Hm; cbn; [| apply conf_rel_refl].
  destruct (camera m) as [c |] eqn:Hc; cbn; [| apply conf_rel_refl].
  rewrite Hm. cbn. split; [| auto].
  eapply obj_rel_insert; [apply config_change_refl | exact Hm |].
  constructor; try reflexivity. rewrite Hc. cbn. auto.
Qed.

Lemma conf_write_nodes (self : nat) (fail : option (nat * Exn)) (ws : list (string * Value))
    (k : nat) :
  respects conf_rel (write_nodes self fail k ws).
Proof.
  revert k. induction ws as [| [name v] ws IH]; intros k; cbn.
  - apply (respects_ret _ conf_rel_refl).
  - repeat first
      [ apply conf_write_node | apply IH
      | respects_step conf_rel_refl conf_rel_trans ].
Qed.

Lemma conf_set_settings (self : nat) (g : CameraSettings.t -> CameraSettings.t) :
  respects conf_rel (self_set self (fun m => set_settings (g (settings m)) m)).
Proof.
  apply conf_self_set. intros m. constructor; try reflexivity. apply same_nodes_refl.
Qed.

Lemma conf_configure_hardware_trigger (env : Env) (self : nat) :
  respects conf_rel (configure_hardware_trigger env self).
Proof.
  unfold configure_hardware_trigger.
  repeat first
    [ apply conf_write_nodes | apply conf_set_settings
    | respects_step conf_rel_refl conf_rel_trans ].
Qed.

Lemma conf_configure_camera (env : Env) (self : nat) :
  respects conf_rel (_configure_camera env self).
Proof.
  unfold _configure_camera.
  repeat first
    [ apply conf_write_nodes
    | respects_step conf_rel_refl conf_rel_trans ].
Qed.

Lemma returns_self_get_bind {A} (self : nat) (k : CameraManager -> M A) (w : World)
    (m : CameraManager) :
  heap w !! self = Some m -> bind (self_get self) k w = k m w.
Proof.
  intros H. unfold bind, self_get. rewrite H. destruct (k m w) as [[r w'] out]. reflexivity.
Qed.

Lemma configure_hardware_trigger_returns (env : Env) (self : nat) (w : World)
    (m : CameraManager) :
  heap w !! self = Some m ->
  exists w' out, configure_hardware_trigger env self w = (Ok tt, w', out).
Proof.
  intros Hm. unfold configure_hardware_trigger.
  rewrite (returns_self_get_bind self _ w m Hm).
  destruct (negb (has_camera m) || negb (is_open m)).
  - eexists _, _; reflexivity.
  - match goal with |- context [ try_except ?b ?h ] =>
      destruct (returns_try_except b h (fun e => returns_print _) w)
        as ([] & w' & out & ->) end.
    eexists _, _; reflexivity.
Qed.

Lemma start_capture_accepted (env : Env) (self : nat) (output_dir : Value)
    (cb : option Callback) (w w' : World) (out : list Line) :
  start_capture env self output_dir cb w = (Ok true, w', out) ->
  exists m', session_started self output_dir cb w w' m'.
Proof.
  unfold start_capture.
  destruct (heap w !! self) as [m |] eqn:Hm;
    [| unfold bind, self_get; rewrite Hm; discriminate].
  rewrite (returns_self_get_bind self _ w m Hm).
  destruct (is_open m) eqn:Hopen; [| discriminate].
  destruct (has_camera m) eqn:Hcam; [| discriminate].
  destruct (is_capturing m) eqn:Hcap; [discriminate |].
  cbn [negb orb].
  destruct output_dir as [| | | | d | | | |]; try discriminate.
  destruct (mkdir_raises env) as [e |] eqn:Hmk;
    [munfold; mrun; discriminate |].
  remember (set_frame_count 0
              (set_frame_callback cb (set_output_dir (Some (Path_of d)) m))) as m3 eqn:Em3.
  remember (set_heap (<[self := m3]> (heap w))
              (set_dirs (dirs w ++ [Path_of d])%list w)) as w3 eqn:Ew3.
  assert (H3 : heap w3 !! self = Some m3) by (subst w3; cbn; apply lookup_insert_eq).
  destruct (configure_hardware_trigger_returns env self w3 m3 H3) as (w4 & out4 & Hcfg).
  pose proof (conf_configure_hardware_trigger env self w3) as Hrel.
  rewrite Hcfg in Hrel. cbn in Hrel.
  destruct Hrel as (Hobj & Hthreads & Hfiles & _).
  destruct (Hobj self m3 H3) as (m4 & Hm4 & Hcc).
  destruct Hcc as [Cid Ccam Copen Ccap Cfc Cth Cact Cdir Ccb].
  unfold has_camera in Hcam.
  destruct (camera m) as [c |] eqn:Hc; [| discriminate].
  assert (Hc3 : camera m3 = Some c) by (subst m3; exact Hc).
  rewrite Hc3 in Ccam.
  destruct (camera m4) as [c4 |] eqn:Hc4; [| contradiction].
  clear H3 Hobj Hc3.
  munfold. mrun.
  match goal with
  | |- context [ configure_hardware_trigger env self ?W ] =>
      replace W with w3
        by (subst w3 m3; unfold set_heap, set_dirs; cbn;
            rewrite !insert_insert_eq; reflexivity)
  end.
  rewrite Hcfg. mrun.
  intros H. inversion H; subst w' out; clear H.
  eexists. constructor; cbn; rewrite ?lookup_insert_eq; try reflexivity.
  - exists d. split; [reflexivity |]. simpl. rewrite Cdir, Em3. reflexivity.
  - simpl. rewrite Ccb, Em3. reflexivity.
  - simpl. rewrite Cfc, Em3. reflexivity.
  - rewrite Hfiles, Ew3. reflexivity.
Qed.

(* ================================================================== *)
(** ** The acquisition loop of one session *)
(* ================================================================== *)

Lemma frame_saved_payloads_app (a b : list Line) :
  frame_saved_payloads (a ++ b) = (frame_saved_payloads a ++ frame_saved_payloads b)%list.
Proof.
  induction a as [| l a IH]; cbn; [reflexivity |].
  destruct l; cbn; rewrite IH; reflexivity.
Qed.

Lemma frame_saved_numbers_app (a b : list Line) :
  frame_saved_numbers (a ++ b) = (frame_saved_numbers a ++ frame_saved_numbers b)%list.
Proof.
  induction a as [| l a IH]; cbn; [reflexivity |].
  destruct l as [| | | | | v]; cbn; try exact IH.
  destruct v; cbn; try exact IH.
  destruct (dict_lookup "frame_number" d) as [[] |]; cbn; rewrite ?IH; reflexivity.
Qed.

Lemma number_from_fst {A} (l : list A) (c : Z) :
  map fst (number_from c l) = map (fun i => c + Z.of_nat i) (seq 1 (length l)).
Proof.
  revert c. induction l as [| x l IH]; intros c; cbn; [reflexivity |].
  f_equal; try lia.
  rewrite IH, <- (seq_shift (length l) 1), List.map_map.
  apply List.map_ext. intros i. lia.
Qed.

Lemma number_from_bounds {A} (l : list A) (c : Z) :
  Forall (fun x => c < fst x) (number_from c l).
Proof.
  revert c. induction l as [| x l IH]; intros c; cbn; constructor.
  - cbn. lia.
  - eapply Forall_impl; [apply IH |]. cbn. intros; lia.
Qed.

Lemma number_from_sorted {A} (l : list A) (c : Z) :
  StronglySorted (fun x y => fst x < fst y) (number_from c l).
Proof.
  revert c. induction l as [| x l IH]; intros c; cbn; constructor.
  - apply IH.
  - apply number_from_bounds.
Qed.

Lemma filter_sorted {A} (R : A -> A -> Prop) (f : A -> bool) (l : list A) :
  StronglySorted R l -> StronglySorted R (List.filter f l).
Proof.
  induction 1 as [| x l Hs IH Hall]; cbn; [constructor |].
  destruct (f x); [| exact IH].
  constructor; [exact IH |].
  rewrite List.Forall_forall in *. intros y Hy.
  apply Hall. apply List.filter_In in Hy. tauto.
Qed.

Lemma map_fst_sorted {A} (l : list (Z * A)) :
  StronglySorted (fun x y => fst x < fst y) l -> StronglySorted Z.lt (map fst l).
Proof.
  induction 1 as [| x l Hs IH Hall]; cbn; constructor; [exact IH |].
  rewrite List.Forall_forall in *. intros y Hy.
  apply in_map_iff in Hy. destruct Hy as (z & <- & Hz). apply Hall, Hz.
Qed.

Lemma filter_all {A} (f : A -> bool) (l : list A) :
  Forall (fun x => f x = true) l -> List.filter f l = l.
Proof.
  induction 1 as [| x l Hx Hl IH]; cbn; [reflexivity |].
  rewrite Hx, IH. reflexivity.
Qed.

Lemma capture_error_payloads (m : CameraManager) (e : Exn) :
  frame_saved_payloads (capture_error m e) = [].
Proof. unfold capture_error. destruct (_capture_active m); reflexivity. Qed.

Lemma dec_digits_length (fuel : nat) :
  forall (n : Z) (acc : string) (k : nat),
    0 <= n < 10 ^ Z.of_nat (S k) ->
    (String.length (dec_digits fuel n acc) <= S k + String.length acc)%nat.
Proof.
  induction fuel as [| fuel IH]; intros n acc k Hn; cbn [dec_digits].
  - lia.
  - destruct (Z.eqb_spec (n / 10) 0) as [Hz | Hnz].
    + cbn. lia.
    + assert (Hk : exists k', k = S k').
      { destruct k as [| k']; [| eauto]. exfalso. apply Hnz.
        apply Z.div_small. cbn in Hn. lia. }
      destruct Hk as [k' ->].
      assert (Hdiv : 0 <= n / 10 < 10 ^ Z.of_nat (S k')).
      { split; [apply Z.div_pos; lia |].
        apply Z.div_lt_upper_bound; [lia |].
        replace (Z.of_nat (S (S k'))) with (Z.succ (Z.of_nat (S k'))) in Hn by lia.
        rewrite Z.pow_succ_r in Hn by lia. lia. }
      specialize (IH (n / 10) (String (digit_char (n mod 10)) acc) k' Hdiv).
      cbn in IH. lia.
Qed.

Lemma dec_digits_nonempty (fuel : nat) (n : Z) (acc : string) :
  (String.length acc <= String.length (dec_digits fuel n acc))%nat.
Proof.
  revert n acc. induction fuel as [| fuel IH]; intros n acc; cbn [dec_digits]; [lia |].
  destruct (n / 10 =? 0); [cbn; lia |].
  specialize (IH (n / 10) (String (digit_char (n mod 10)) acc)). cbn in IH. lia.
Qed.

Lemma length_append (a b : string) :
  String.length (a ++ b) = (String.length a + String.length b)%nat.
Proof. induction a as [| c a IH]; simpl; [reflexivity | f_equal; exact IH]. Qed.

Lemma length_zeros (k : nat) : String.length (zeros k) = k.
Proof. induction k as [| k IH]; cbn; [reflexivity | rewrite IH; reflexivity]. Qed.

Lemma format_06d_width (n : Z) :
  0 <= n < 1000000 -> String.length (format_06d n) = 6%nat.
Proof.
  intros Hn. unfold format_06d.
  rewrite (proj2 (Z.ltb_ge n 0)) by lia.
  unfold zero_pad. rewrite length_append, length_zeros.
  pose proof (dec_digits_length (S (Z.to_nat (Z.log2 n))) n "" 5) as Hlen.
  fold (decimal n) in Hlen. cbn [String.length] in Hlen.
  assert (H10 : 10 ^ Z.of_nat 6 = 1000000) by reflexivity.
  rewrite H10 in Hlen. specialize (Hlen Hn). lia.
Qed.

Lemma frame_saved_numbers_payloads (out : list Line) :
  frame_saved_numbers out = payload_numbers (frame_saved_payloads out).
Proof.
  induction out as [| l out IH]; cbn; [reflexivity |].
  destruct l as [| | | | | v]; cbn; try exact IH.
  destruct v; cbn; try exact IH.
  destruct (dict_lookup "frame_number" d) as [[] |]; cbn; rewrite ?IH; reflexivity.
Qed.

Lemma payload_numbers_notifications (id : Value) (d : string)
    (sent : list (Z * (GrabResult * LoopEnv))) :
  payload_numbers (map (notification id d) sent) = map fst sent.
Proof.
  induction sent as [| [n [g le]] sent IH]; cbn; [reflexivity |].
  rewrite IH. reflexivity.
Qed.

Lemma all_saved (les : list LoopEnv) (c : Z) :
  Forall (fun le => save_raises le = None) les ->
  Forall (fun x => saved x = true) (number_from c (deliveries les)).
Proof.
  intros H. revert c. induction H as [| le les Hle Hles IH]; intros c; cbn.
  - constructor.
  - destruct (retrieve le) as [e | | g]; try apply IH.
    destruct (GrabSucceeded g); [| apply IH].
    cbn. constructor; [| apply IH].
    unfold saved. cbn. rewrite Hle. reflexivity.
Qed.

Lemma length_number_from {A} (l : list A) (c : Z) : length (number_from c l) = length l.
Proof. revert c. induction l as [| x l IH]; intros c; cbn; [| rewrite IH]; reflexivity. Qed.

(* ================================================================== *)
(** ** The frame counter *)
(* ================================================================== *)

(** C2 (amended).  An accepted [start_capture] leaves the frame counter
    at 0, with the new thread still in front of its first loop test.
    Whatever steps the acquisition threads then take, no counter ever goes
    down; and one pass through the loop body adds exactly 1 when it was
    handed a frame and nothing otherwise.  The 1 is added when the frame
    is delivered, before it is saved: a frame whose save raises has been
    counted although no file was written. *)
Theorem frame_counter_in_sessions :
  (forall env self dir cb w w' out,
     start_capture env self dir cb w = (Ok true, w', out) ->
     counter_at w' self = Some 0
     /\ threads w' = (threads w ++ [mkThread self AtWhile])%list)
  /\ (forall steps w i m,
        heap w !! i = Some m ->
        exists n,
          counter_at (snd (fst (run_threads steps w))) i = Some n
          /\ frame_count m <= n)
  /\ (forall self le w m c d,
        heap w !! self = Some m ->
        camera m = Some c ->
        _output_dir m = Some d ->
        exists w' out,
          _capture_loop_body self le w = (Ok tt, w', out)
          /\ counter_at w' self
             = Some (frame_count m + (if delivered le then 1 else 0))
          /\ length (files w')
             = (length (files w) + (if persisted le then 1 else 0))%nat).
Proof.
  split; [| split].
  - intros env self dir cb w w' out Hstart.
    destruct (start_capture_accepted _ _ _ _ _ _ _ Hstart) as (m' & Hs).
    destruct Hs as [Hm' _ _ Hfc _ _ _ _ Hth _].
    unfold counter_at. rewrite Hm', Hfc. split; [reflexivity | exact Hth].
  - intros steps w i m Hm.
    destruct (loop_run_threads steps w i m Hm) as (m' & Hm' & Hp).
    exists (frame_count m'). unfold counter_at. rewrite Hm'.
    split; [reflexivity | apply Hp].
  - intros self le w m c d Hm Hc Hd.
    rewrite (body_run self le w m c d Hm Hc Hd).
    eexists _, _. split; [reflexivity |].
    unfold counter_at. rewrite heap_updated.
    unfold body_effect, delivered, persisted, delivered.
    destruct (retrieve le) as [e | | g]; cbn; rewrite ?Z.add_0_r, ?length_app;
      cbn; try (split; [reflexivity | lia]).
    destruct (GrabSucceeded g); cbn; rewrite ?Z.add_0_r, ?length_app; cbn;
      try (split; [reflexivity | lia]).
    destruct (save_raises le); cbn; rewrite ?Z.add_0_r, ?length_app; cbn;
      split; try reflexivity; lia.
Qed.

Lemma frame_counter_in_sessions_witness :
  counter_at capturing_world 0 = Some 0
  /\ (exists n,
        counter_at
          (snd (fst (run_threads [(0%nat, frame_at 1); (0%nat, frame_at 1)]
                       capturing_world))) 0 = Some n
        /\ 0 <= n)
  /\ exists w' out,
       _capture_loop_body 0 (frame_unsaved 1) capturing_world = (Ok tt, w', out)
       /\ counter_at w' 0 = Some 1
       /\ length (files w') = 0%nat.
Proof.
  split; [| split].
  - apply (proj1 frame_counter_in_sessions env_ok 0%nat (VStr "out") (Some on_frame)
             idle_world capturing_world
             (snd (start_capture env_ok 0 (VStr "out") (Some on_frame) idle_world))).
    vm_compute. reflexivity.
  - destruct (proj1 (proj2 frame_counter_in_sessions)
                [(0%nat, frame_at 1); (0%nat, frame_at 1)] capturing_world 0%nat
                (match heap capturing_world !! 0%nat with
                 | Some m => m
                 | None => CameraManager_init VNone (CameraSettings.init VNone VNone)
                 end))
      as (n & Hn & Hle); [vm_compute; reflexivity |].
    exists n. split; [exact Hn | exact Hle].
  - destruct (proj2 (proj2 frame_counter_in_sessions) 0%nat (frame_unsaved 1)
                capturing_world
                (match heap capturing_world !! 0%nat with
                 | Some m => m
                 | None => CameraManager_init VNone (CameraSettings.init VNone VNone)
                 end)
                (match heap capturing_world !! 0%nat with
                 | Some m => match camera m with Some c => c | None => mkCamera ∅ false false 0 end
                 | None => mkCamera ∅ false false 0
                 end)
                (Path_of "out"))
      as (w' & out & Hrun & Hc & Hf); [vm_compute; reflexivity .. |].
    exists w', out. split; [exact Hrun |]. split; [exact Hc | exact Hf].
Defined.

(** C2, as stated, fails: after a session in which the one frame
    delivered could not be saved, the counter stands at 1 and no frame has
    been persisted. *)
Lemma frame_counter_counterexample :
  let w := world_after (start_session ++ iteration 0 (frame_unsaved 1))%list in
  counter_at w 0 = Some 1
  /\ files w = []
  /\ frame_saved_numbers
       (printed_by (start_session ++ iteration 0 (frame_unsaved 1))%list) = []
  /\ counter_at w 0 <> Some (Z.of_nat (length (files w))).
Proof.
  cbv zeta. split; [vm_compute; reflexivity |].
  split; [vm_compute; reflexivity |].
  split; [vm_compute; reflexivity | vm_compute; discriminate].
Qed.

(* ================================================================== *)
(** ** Grab results and their release *)
(* ================================================================== *)

(** [grab_frame] releases what it retrieved on each of its paths. *)
Lemma grab_frame_releases (env : Env) (self : nat) (w : World) (m : CameraManager)
    (c : Camera) :
  heap w !! self = Some m ->
  camera m = Some c ->
  exists r w' out,
    grab_frame env self w = (Ok r, w', out)
    /\ held_at w' self = Some (held c).
Proof.
  intros Hm Hc. unfold grab_frame, held_at, has_camera. munfold. mrun.
  destruct (is_open m); mrun; [| eexists _, _, _; split; [reflexivity |]; mrun; reflexivity].
  destruct (start_max_raises env) as [e |]; mrun.
  - destruct (grabbing c); mrun;
      (eexists _, _, _; split; [reflexivity |]); mrun; reflexivity.
  - destruct (grab_one env) as [e | g]; mrun.
    + (eexists _, _, _; split; [reflexivity |]); mrun. reflexivity.
    + destruct (GrabSucceeded g); mrun;
        (eexists _, _, _; split; [reflexivity |]); mrun; reflexivity.
Qed.

(** C7, at the failing input.  The loop body keeps what it retrieved
    unreleased when the grab result did not succeed, and when saving the
    frame raised: one grab result is held after such an iteration, none
    after an iteration that saved its frame.  [grab_frame], on a grab
    result that did not succeed, holds none when it returns. *)
Theorem capture_loop_keeps_grab_result :
  held_at (world_after (start_session ++ iteration 0 (frame_failed 1))%list) 0 = Some 1%nat
  /\ held_at (world_after (start_session ++ iteration 0 (frame_unsaved 1))%list) 0
     = Some 1%nat
  /\ held_at (world_after (start_session ++ iteration 0 (frame_at 1))%list) 0 = Some 0%nat
  /\ held_at (snd (fst (grab_frame preview_failed 0 idle_world))) 0 = Some 0%nat.
Proof. compute_each. Qed.

(* ================================================================== *)
(** ** The dispatcher *)
(* ================================================================== *)

Lemma process_line_returns (json_loads : string -> Exn + Value) (env : Env)
    (line : string) :
  returns (process_line json_loads env line).
Proof.
  unfold process_line. destruct (String.eqb (strip line) ""); [apply returns_ret |].
  apply returns_try_except. intros e.
  destruct (String.eqb (exn_class e) "JSONDecodeError"); apply returns_print.
Qed.

Lemma serve_app (json_loads : string -> Exn + Value) (before after : list Event)
    (w : World) :
  forallb no_interrupt before = true ->
  exists w1 out1,
    serve json_loads before w = (Ok true, w1, out1)
    /\ serve json_loads (before ++ after) w
       = (let '(r, w2, out2) := serve json_loads after w1 in (r, w2, (out1 ++ out2)%list)).
Proof.
  revert w. induction before as [| ev before IH]; intros w Hno.
  - exists w, []. split; [reflexivity |]. cbn.
    destruct (serve json_loads after w) as [[r w2] out2]. reflexivity.
  - cbn in Hno. apply andb_prop in Hno. destruct Hno as [Hev Hno].
    destruct ev as [env line | e | tid le |]; [| discriminate | | discriminate];
      cbn [serve app]; unfold bind.
    + destruct (process_line_returns json_loads env line w) as ([] & w0 & out0 & ->).
      destruct (IH w0 Hno) as (w1 & out1 & -> & ->).
      exists w1, (out0 ++ out1)%list. split; [reflexivity |].
      destruct (serve json_loads after w1) as [[r w2] out2].
      rewrite app_assoc. reflexivity.
    + destruct (thread_step_returns tid le w) as ([] & w0 & out0 & ->).
      destruct (IH w0 Hno) as (w1 & out1 & -> & ->).
      exists w1, (out0 ++ out1)%list. split; [reflexivity |].
      destruct (serve json_loads after w1) as [[r w2] out2].
      rewrite app_assoc. reflexivity.
Qed.

Lemma dispatch_unrecognised (env : Env) (cmd command : Value) :
  recognised command = false ->
  dispatch env cmd command = send_error [Lit "Unknown command: "; Interp command].
Proof.
  unfold recognised. cbn [existsb]. intros H.
  repeat (apply Bool.orb_false_elim in H; destruct H as [?H H]).
  unfold dispatch.
  repeat match goal with
         | Hc : eq_str command _ = false |- _ => rewrite Hc; clear Hc
         end.
  reflexivity.
Qed.

(** C8 (amended).  No fault in a line that was read ends command
    processing: handling the line always returns, and the events after it
    are served from the world it leaves.  A line that is blank after
    [strip] is skipped without any message.  A line that is not blank and
    that [json.loads] rejects produces exactly one error line and changes
    nothing.  A command that is not recognised produces one "Unknown
    command" error line and changes nothing.  An exception raised inside
    a handler is caught by [handle_command] and reported in one "Command
    error" line after whatever the handler had printed, and the call
    returns.  The one fault that does end processing is a line that
    cannot be read: the exception leaves the [for] statement, [run_ipc_loop]
    prints one "Fatal error" line and returns, and nothing after that
    line is read. *)
Theorem faults_do_not_stop_the_dispatcher :
  (forall json_loads env line, returns (process_line json_loads env line))
  /\ (forall json_loads before after w,
        forallb no_interrupt before = true ->
        exists w1 out1,
          serve json_loads before w = (Ok true, w1, out1)
          /\ serve json_loads (before ++ after) w
             = (let '(r, w2, out2) := serve json_loads after w1 in
                (r, w2, (out1 ++ out2)%list)))
  /\ (forall json_loads env line w,
        blank line = true ->
        process_line json_loads env line w = (Ok tt, w, []))
  /\ (forall json_loads env line w e,
        blank line = false ->
        json_loads (strip line) = inl e ->
        exists text,
          process_line json_loads env line w = (Ok tt, w, [ERROR text])
          /\ (exn_class e = "JSONDecodeError" ->
              text = [Lit "Invalid JSON: "; InterpExn e]))
  /\ (forall env d w,
        recognised (match dict_lookup "command" d with Some c => c | None => VStr "" end)
        = false ->
        handle_command env (VDict d) w
        = (Ok tt, w,
           [ERROR [Lit "Unknown command: ";
                   Interp (match dict_lookup "command" d with
                           | Some c => c
                           | None => VStr ""
                           end)]]))
  /\ (forall env cmd command w e w1 out1,
        py_get cmd "command" (VStr "") = inr command ->
        dispatch env cmd command w = (Raise e, w1, out1) ->
        handle_command env cmd w
        = (Ok tt, w1, (out1 ++ [ERROR [Lit "Command error: "; InterpExn e]])%list))
  /\ (forall json_loads before e after w,
        forallb no_interrupt before = true ->
        exists w1 out1,
          serve json_loads before (set_handler IPCHandler.init w) = (Ok true, w1, out1)
          /\ run_ipc_loop json_loads (before ++ Unreadable e :: after) w
             = (Ok tt, w1, ready_line :: out1 ++ [fatal_line e])).
Proof.
  split; [exact process_line_returns |].
  split; [exact serve_app |].
  split; [| split; [| split; [| split]]].
  - intros json_loads env line w Hblank. unfold process_line.
    unfold blank in Hblank. rewrite Hblank. reflexivity.
  - intros json_loads env line w e Hblank Hjson. unfold process_line.
    unfold blank in Hblank. rewrite Hblank. munfold. rewrite Hjson. cbn.
    destruct (String.eqb (exn_class e) "JSONDecodeError") eqn:Hclass; cbn.
    + eexists. split; [reflexivity | reflexivity].
    + eexists. split; [reflexivity |].
      intros Hc. rewrite Hc in Hclass. discriminate.
  - intros env d w Hun. unfold handle_command, py_get. cbn [lift_sum].
    unfold bind at 1. cbn [ret]. unfold try_except.
    rewrite (dispatch_unrecognised env (VDict d) _ Hun). reflexivity.
  - intros env cmd command w e w1 out1 Hget Hraise. unfold handle_command.
    rewrite Hget. cbn [lift_sum]. unfold bind at 1. cbn [ret]. unfold try_except.
    rewrite Hraise. cbn. reflexivity.
  - intros json_loads before e after w Hno.
    destruct (serve_app json_loads before (Unreadable e :: after)
                (set_handler IPCHandler.init w) Hno) as (w1 & out1 & Hrun & Happ).
    exists w1, out1. split; [exact Hrun |].
    unfold run_ipc_loop, try_except, bind, modify_world, send_status, send_error, print.
    rewrite Happ. cbn. rewrite app_nil_r. reflexivity.
Qed.

Lemma faults_do_not_stop_the_dispatcher_witness :
  (exists w1 out1,
     serve decode_five [Stdin env_ok "oops"; Stdin env_ok "5"] initial_world
     = (Ok true, w1, out1)
     /\ serve decode_five
          ([Stdin env_ok "oops"; Stdin env_ok "5"] ++ [Stdin env_ok "again"]) initial_world
        = (let '(r, w2, out2) := serve decode_five [Stdin env_ok "again"] w1 in
           (r, w2, (out1 ++ out2)%list)))
  /\ process_line decode_five env_ok blank_line initial_world = (Ok tt, initial_world, [])
  /\ (exists text,
        process_line decode_five env_ok "oops" initial_world
        = (Ok tt, initial_world, [ERROR text])
        /\ (exn_class (mkExn "JSONDecodeError" "Expecting value: line 1 column 1 (char 0)")
            = "JSONDecodeError" ->
            text = [Lit "Invalid JSON: ";
                    InterpExn (mkExn "JSONDecodeError"
                                 "Expecting value: line 1 column 1 (char 0)")]))
  /\ handle_command env_ok (command "reboot" []) idle_world
     = (Ok tt, idle_world, [ERROR [Lit "Unknown command: "; Interp (VStr "reboot")]])
  /\ handle_command env_ok (command "start_capture" [("output_dir", VInt 5)]) idle_world
     = (Ok tt, idle_world,
        [ERROR [Lit "Command error: ";
                InterpExn (TypeError "expected str, bytes or os.PathLike object")]])
  /\ process_line decode_five env_ok nbsp_line initial_world = (Ok tt, initial_world, [])
  /\ exists w1 out1,
       run_ipc_loop decode_five
         ([Stdin env_ok "oops"] ++ Unreadable undecodable :: [Stdin env_ok "5"])
         initial_world
       = (Ok tt, w1, ready_line :: out1 ++ [fatal_line undecodable]).
Proof.
  destruct faults_do_not_stop_the_dispatcher
    as (_ & Hserve & Hblank & Hjson & Hunknown & Hraise & Hfatal).
  split; [| split; [| split; [| split; [| split; [| split]]]]].
  - exact (Hserve decode_five [Stdin env_ok "oops"; Stdin env_ok "5"]
             [Stdin env_ok "again"] initial_world eq_refl).
  - exact (Hblank decode_five env_ok blank_line initial_world eq_refl).
  - exact (Hjson decode_five env_ok "oops" initial_world _ eq_refl eq_refl).
  - exact (Hunknown env_ok [("command", VStr "reboot")] idle_world eq_refl).
  - assert (Hd : dispatch env_ok (command "start_capture" [("output_dir", VInt 5)])
                   (VStr "start_capture") idle_world
                 = (Raise (TypeError "expected str, bytes or os.PathLike object"),
                    idle_world, []))
      by (vm_compute; reflexivity).
    exact (Hraise env_ok (command "start_capture" [("output_dir", VInt 5)])
             (VStr "start_capture") idle_world
             (TypeError "expected str, bytes or os.PathLike object") idle_world []
             eq_refl Hd).
  - exact (Hblank decode_five env_ok nbsp_line initial_world eq_refl).
  - destruct (Hfatal decode_five [Stdin env_ok "oops"] undecodable [Stdin env_ok "5"]
                initial_world eq_refl) as (w1 & out1 & _ & Hrun).
    exists w1, out1. exact Hrun.
Defined.

(** C8, as stated, fails twice.  A blank line, and so a line that holds
    nothing but a no-break space, is not JSON and produces no error
    message at all; and a line that cannot be read ends the loop: the
    command after it is never answered. *)
Lemma faults_counterexample :
  let out := snd (process_line decode_five env_ok blank_line initial_world) in
  let printed :=
    snd (run_ipc_loop decode_five [Unreadable undecodable; Stdin env_ok "5"]
           initial_world) in
  decode_five (strip blank_line)
  = inl (mkExn "JSONDecodeError" "Expecting value: line 1 column 1 (char 0)")
  /\ out = []
  /\ length (List.filter is_error out) <> 1%nat
  /\ snd (process_line decode_five env_ok nbsp_line initial_world) = []
  /\ printed = [ready_line; fatal_line undecodable]
  /\ snd (run_ipc_loop decode_five [Stdin env_ok "5"] initial_world) <> [ready_line].
Proof.
  cbv zeta. split; [vm_compute; reflexivity |].
  split; [vm_compute; reflexivity |].
  split; [vm_compute; discriminate |].
  split; [vm_compute; reflexivity |].
  split; [vm_compute; reflexivity | vm_compute; discriminate].
Qed.

(* ================================================================== *)
(** ** References stay valid *)
(* ================================================================== *)

Lemma keeps_wf_refl w : keeps_wf w w.
Proof. intros H; exact H. Qed.

Lemma keeps_wf_trans a b c : keeps_wf a b -> keeps_wf b c -> keeps_wf a c.
Proof. unfold keeps_wf. auto. Qed.

Lemma wf_self_set (self : nat) (f : CameraManager -> CameraManager) :
  respects keeps_wf (self_set self f).
Proof.
  intros w. unfold self_set. destruct (heap w !! self) as [m |] eqn:Hm; cbn;
    [| apply keeps_wf_refl].
  intros [Hfresh Hcam]. constructor; cbn.
  - intros i Hi. destruct (decide (self = i)) as [-> | Hne].
    + rewrite (Hfresh i Hi) in Hm. discriminate.
    + rewrite lookup_insert_ne by exact Hne. apply Hfresh, Hi.
  - intros cam Hc. destruct (decide (self = cam)) as [-> | Hne].
    + rewrite lookup_insert_eq. eauto.
    + rewrite lookup_insert_ne by exact Hne. apply Hcam, Hc.
Qed.

Lemma wf_modify_same (f : World -> World) :
  (forall w, heap (f w) = heap w) ->
  (forall w, next_ref (f w) = next_ref w) ->
  (forall w, IPCHandler.camera (handler (f w)) = IPCHandler.camera (handler w)) ->
  respects keeps_wf (modify_world f).
Proof.
  intros Hh Hn Hc. apply respects_modify_world. intros w [Hfresh Hcam].
  constructor.
  - intros i. rewrite Hh, Hn. apply Hfresh.
  - intros cam. rewrite Hh, Hc. apply Hcam.
Qed.

Lemma wf_set_pc (tid : nat) (p : PC) : respects keeps_wf (set_pc tid p).
Proof.
  unfold set_pc.
  apply wf_modify_same; intros w; destruct (threads w !! tid); reflexivity.
Qed.

Create HintDb wf discriminated.
#[local] Hint Resolve wf_self_set wf_set_pc : wf.

Ltac wf_step :=
  first
    [ solve [auto with wf]
    | apply wf_modify_same; intros ?; reflexivity
    | respects_step keeps_wf_refl keeps_wf_trans ].

Lemma wf_write_nodes (self : nat) (fail : option (nat * Exn)) (ws : list (string * Value))
    (k : nat) :
  respects keeps_wf (write_nodes self fail k ws).
Proof.
  revert k. induction ws as [| [name v] ws IH]; intros k; cbn [write_nodes].
  - apply (respects_ret _ keeps_wf_refl).
  - unfold write_node, camera_set, the_camera. repeat first [apply IH | wf_step].
Qed.
#[local] Hint Resolve wf_write_nodes : wf.

Lemma wf_detect_loop (devs : list DeviceInfo) : respects keeps_wf (detect_loop devs).
Proof.
  induction devs as [| d devs IH]; cbn [detect_loop].
  - apply (respects_ret _ keeps_wf_refl).
  - repeat first [apply IH | wf_step].
Qed.
#[local] Hint Resolve wf_detect_loop : wf.

Lemma wf_update_fields (self : nat) (kwargs : list (string * Value)) :
  respects keeps_wf (update_fields self kwargs).
Proof.
  induction kwargs as [| [key value] kwargs IH]; cbn [update_fields].
  - apply (respects_ret _ keeps_wf_refl).
  - repeat first [apply IH | wf_step].
Qed.
#[local] Hint Resolve wf_update_fields : wf.

Lemma wf_configure_camera (env : Env) (self : nat) :
  respects keeps_wf (_configure_camera env self).
Proof. unfold _configure_camera. repeat wf_step. Qed.
#[local] Hint Resolve wf_configure_camera : wf.

Lemma wf_configure_hardware_trigger (env : Env) (self : nat) :
  respects keeps_wf (configure_hardware_trigger env self).
Proof. unfold configure_hardware_trigger. repeat wf_step. Qed.
#[local] Hint Resolve wf_configure_hardware_trigger : wf.

Lemma wf_capture_loop_body (self : nat) (le : LoopEnv) :
  respects keeps_wf (_capture_loop_body self le).
Proof.
  unfold _capture_loop_body, RetrieveResult, Release, camera_set, the_camera,
    image_save, call_callback, send_frame_saved.
  repeat wf_step.
Qed.
#[local] Hint Resolve wf_capture_loop_body : wf.

Lemma wf_thread_step (tid : nat) (le : LoopEnv) : respects keeps_wf (thread_step tid le).
Proof. unfold thread_step. repeat wf_step. Qed.
#[local] Hint Resolve wf_thread_step : wf.

Lemma wf_run_threads (steps : list (nat * LoopEnv)) : respects keeps_wf (run_threads steps).
Proof.
  induction steps as [| [tid le] steps IH]; cbn [run_threads].
  - apply (respects_ret _ keeps_wf_refl).
  - repeat first [apply IH | wf_step].
Qed.
#[local] Hint Resolve wf_run_threads : wf.

Lemma wf_stop_capture (env : Env) (self : nat) : respects keeps_wf (stop_capture env self).
Proof. unfold stop_capture, join, camera_set, the_camera. repeat wf_step. Qed.
#[local] Hint Resolve wf_stop_capture : wf.

Lemma wf_start_capture (env : Env) (self : nat) (dir : Value) (cb : option Callback) :
  respects keeps_wf (start_capture env self dir cb).
Proof.
  unfold start_capture, mkdir, Thread_start, camera_set, the_camera. repeat wf_step.
Qed.
#[local] Hint Resolve wf_start_capture : wf.

Lemma wf_connect (env : Env) (self : nat) (ip : Value) :
  respects keeps_wf (connect env self ip).
Proof. unfold connect, camera_set, the_camera. repeat wf_step. Qed.
#[local] Hint Resolve wf_connect : wf.

Lemma wf_disconnect (env : Env) (self : nat) : respects keeps_wf (disconnect env self).
Proof. unfold disconnect, camera_set, the_camera. repeat wf_step. Qed.
#[local] Hint Resolve wf_disconnect : wf.

Lemma wf_grab_frame_base64 (env : Env) (self : nat) (format quality : Value) :
  respects keeps_wf (grab_frame_base64 env self format quality).
Proof.
  unfold grab_frame_base64, grab_frame, Release, camera_set, the_camera. repeat wf_step.
Qed.
#[local] Hint Resolve wf_grab_frame_base64 : wf.

Lemma wf_update_settings (env : Env) (self : nat) (kwargs : list (string * Value)) :
  respects keeps_wf (update_settings env self kwargs).
Proof. unfold update_settings. repeat wf_step. Qed.
#[local] Hint Resolve wf_update_settings : wf.

Lemma wf_handle_init (cmd : Value) : respects keeps_wf (_handle_init cmd).
Proof.
  unfold _handle_init.
  repeat first
    [ apply respects_modify_world; intros w [Hfresh Hcam]; constructor; cbn;
      [ intros i Hi; rewrite lookup_insert_ne by lia; apply Hfresh; lia
      | intros cam Hc; inversion Hc; subst; rewrite lookup_insert_eq; eauto ]
    | wf_step ].
Qed.
#[local] Hint Resolve wf_handle_init : wf.

Lemma wf_handle_command (env : Env) (cmd : Value) :
  respects keeps_wf (handle_command env cmd).
Proof.
  unfold handle_command, dispatch, _handle_detect_cameras, detect_cameras,
    _handle_connect, _handle_disconnect, _handle_configure, unpack_kwargs,
    _handle_get_preview, _handle_start_capture, _handle_stop_capture,
    _handle_status, not_connected, get_status, send_data, send_error, send_preview.
  repeat wf_step.
Qed.

(** Every world a schedule of commands and thread steps reaches from the
    initial one is well formed. *)
Lemma play_well_formed (steps : list Step) : well_formed (world_after steps).
Proof.
  assert (H : forall w, well_formed w -> well_formed (snd (fst (play steps w)))).
  { induction steps as [| [env cmd | tid le] steps IH]; intros w Hw; cbn [play].
    - exact Hw.
    - unfold bind. pose proof (wf_handle_command env cmd w Hw) as H1.
      destruct (handle_command env cmd w) as [[[[] | e] w1] out1]; cbn in *; [| exact H1].
      specialize (IH w1 H1). destruct (play steps w1) as [[r w2] out2]. exact IH.
    - unfold bind. pose proof (wf_thread_step tid le w Hw) as H1.
      destruct (thread_step tid le w) as [[[[] | e] w1] out1]; cbn in *; [| exact H1].
      specialize (IH w1 H1). destruct (play steps w1) as [[r w2] out2]. exact IH. }
  apply H. constructor; cbn.
  - intros i _. apply lookup_empty.
  - intros cam Hc. discriminate.
Qed.

(* ================================================================== *)
(** ** The init command *)
(* ================================================================== *)

(** C10.  The [init] command always succeeds: it answers success, stores
    a new manager (frame counter 0, not connected, not capturing) at a new
    reference and makes the handler refer to it.  Nothing else is
    touched: the manager the handler referred to before is in the store
    as it was and the list of threads is the same, so a session running
    on it is neither stopped nor joined.  In the example the old manager
    is still capturing after [init], its thread goes on to save frame 2
    and print [FRAME_SAVED] for it, and [status] then reports [capturing]
    false and [frame_count] 0. *)
Theorem init_replaces_the_manager :
  (forall env d w,
     dict_lookup "command" d = Some (VStr "init") ->
     let id := get_or d "camera_id" (VStr "cam1") in
     let fresh := CameraManager_init id (CameraSettings.init (get_or d "camera_ip" VNone) id) in
     handle_command env (VDict d) w
     = (Ok tt,
        mkWorld (IPCHandler.mk (Some (next_ref w)) id)
          (<[next_ref w := fresh]> (heap w)) (S (next_ref w))
          (threads w) (dirs w) (files w),
        [DATA (VDict [("success", VBool true); ("camera_id", id)])])
     /\ frame_count fresh = 0 /\ is_open fresh = false /\ is_capturing fresh = false)
  /\ (forall env d w old m,
        well_formed w ->
        dict_lookup "command" d = Some (VStr "init") ->
        IPCHandler.camera (handler w) = Some old ->
        heap w !! old = Some m ->
        let w' := snd (fst (handle_command env (VDict d) w)) in
        heap w' !! old = Some m
        /\ threads w' = threads w
        /\ IPCHandler.camera (handler w') = Some (next_ref w)
        /\ old <> next_ref w)
  /\ (exists old,
        heap (world_after init_during_session) !! 0%nat = Some old
        /\ is_capturing old = true
        /\ _capture_active old = true
        /\ frame_count old = 1)
  /\ IPCHandler.camera (handler (world_after init_during_session)) = Some 1%nat
  /\ threads (world_after init_during_session) = [mkThread 0 AtWhile]
  /\ frame_saved_numbers
       (printed_by (init_during_session ++ iteration 0 (frame_at 2)
                      ++ [Do env_ok (command "status" [])])%list)
     = [1; 2]
  /\ last (printed_by (init_during_session ++ iteration 0 (frame_at 2)
                         ++ [Do env_ok (command "status" [])])%list)
     = Some (status_reply (VStr "cam1") false false 0 "hardware").
Proof.
  assert (Hrun : forall env d w,
    dict_lookup "command" d = Some (VStr "init") ->
    handle_command env (VDict d) w
    = (Ok tt,
       mkWorld (IPCHandler.mk (Some (next_ref w)) (get_or d "camera_id" (VStr "cam1")))
         (<[next_ref w := CameraManager_init (get_or d "camera_id" (VStr "cam1"))
              (CameraSettings.init (get_or d "camera_ip" VNone)
                 (get_or d "camera_id" (VStr "cam1")))]> (heap w))
         (S (next_ref w)) (threads w) (dirs w) (files w),
       [DATA (VDict [("success", VBool true);
                     ("camera_id", get_or d "camera_id" (VStr "cam1"))])])).
  { intros env d w Hcmd.
    unfold handle_command, py_get. rewrite Hcmd. cbn [lift_sum].
    unfold bind at 1. cbn [ret]. unfold try_except, dispatch. cbn [eq_str].
    replace (String.eqb "init" "ping") with false by reflexivity.
    replace (String.eqb "init" "version") with false by reflexivity.
    replace (String.eqb "init" "detect_cameras") with false by reflexivity.
    replace (String.eqb "init" "init") with true by reflexivity.
    cbv iota. unfold _handle_init, py_get. munfold. cbn -[lookup insert].
    reflexivity. }
  split; [| split; [| split; [| compute_each]]].
  - intros env d w Hcmd id fresh. split; [apply Hrun, Hcmd |].
    repeat match goal with |- _ /\ _ => split end; reflexivity.
  - intros env d w old m [Hfresh _] Hcmd Hold Hm w'. subst w'.
    rewrite (Hrun env d w Hcmd). cbn -[lookup insert].
    assert (Hne : old <> next_ref w).
    { intros ->. rewrite Hfresh in Hm by lia. discriminate. }
    repeat match goal with |- _ /\ _ => split end; try reflexivity; try exact Hne.
    rewrite lookup_insert_ne by congruence. exact Hm.
  - eexists. compute_each.
Qed.

Lemma init_replaces_the_manager_witness :
  handle_command env_ok (command "init" [("camera_id", VStr "left")]) capturing_world
  = (Ok tt,
     mkWorld (IPCHandler.mk (Some 1%nat) (VStr "left"))
       (<[1%nat := CameraManager_init (VStr "left")
                     (CameraSettings.init VNone (VStr "left"))]> (heap capturing_world))
       2 (threads capturing_world) (dirs capturing_world) (files capturing_world),
     [DATA (VDict [("success", VBool true); ("camera_id", VStr "left")])])
  /\ exists old,
       heap capturing_world !! 0%nat = Some old
       /\ is_capturing old = true
       /\ heap (snd (fst (handle_command env_ok
                            (command "init" [("camera_id", VStr "left")])
                            capturing_world))) !! 0%nat = Some old
       /\ threads (snd (fst (handle_command env_ok
                               (command "init" [("camera_id", VStr "left")])
                               capturing_world)))
          = [mkThread 0 AtWhile].
Proof.
  destruct init_replaces_the_manager as (Hinit & Hold & _).
  split.
  - exact (proj1 (Hinit env_ok [("command", VStr "init"); ("camera_id", VStr "left")]
                    capturing_world eq_refl)).
  - assert (Hm : exists old, heap capturing_world !! 0%nat = Some old
                             /\ is_capturing old = true)
      by (eexists; split; vm_compute; reflexivity).
    destruct Hm as (old & Hm & Hcap).
    exists old. split; [exact Hm |]. split; [exact Hcap |].
    destruct (Hold env_ok [("command", VStr "init"); ("camera_id", VStr "left")]
                capturing_world 0%nat old (play_well_formed start_session)
                eq_refl eq_refl Hm)
      as (Hsame & Hthreads & _).
    split; [exact Hsame | exact Hthreads].
Defined.

(* ================================================================== *)
(** ** Enumeration *)
(* ================================================================== *)

Lemma detect_loop_run (devs : list DeviceInfo) (w : World) :
  detect_loop devs w
  = (Ok (map info_of (readable devs)), w,
     map (fun e => WARNING [Lit "Failed to get info for camera: "; InterpExn e])
       (unreadable devs)).
Proof.
  induction devs as [| d devs IH]; cbn [detect_loop readable unreadable map].
  - reflexivity.
  - unfold bind at 1.
    destruct (String.eqb (GetDeviceClass d) "BaslerGigE").
    + destruct (fields d) as [e | f]; munfold; cbn; rewrite IH; cbn;
        rewrite ?app_nil_r; reflexivity.
    + munfold; cbn. rewrite IH. cbn. rewrite ?app_nil_r. reflexivity.
Qed.

Lemma handle_command_dict (env : Env) (d : list (string * Value)) (w : World) :
  handle_command env (VDict d) w
  = try_except
      (dispatch env (VDict d) (get_or d "command" (VStr "")))
      (fun e => send_error [Lit "Command error: "; InterpExn e]) w.
Proof.
  unfold handle_command, py_get, get_or. cbn [lift_sum]. unfold bind, ret.
  match goal with |- context [ try_except ?b ?h w ] =>
    destruct (try_except b h w) as [[r w'] out] end.
  reflexivity.
Qed.

Lemma detect_cameras_run (env : Env) (w : World) :
  detect_cameras env w = (Ok (detected env), w, detect_lines env).
Proof.
  unfold detect_cameras, detected, detect_lines, listed.
  destruct (PYLON_AVAILABLE env); cbn [negb]; [| reflexivity].
  unfold try_except, bind.
  destruct (devices env) as [e | devs]; cbn; [reflexivity |].
  rewrite detect_loop_run. reflexivity.
Qed.

(** X1.  [detect_cameras] never raises and changes nothing.  Without the
    driver it prints one status line and returns the one mock entry.
    With it, it returns one entry for each BaslerGigE device whose fields
    can be read, in the driver's order, none of them a mock; devices of
    another class are left out silently, and for each BaslerGigE device
    whose fields cannot be read exactly one warning is printed, in the
    driver's order, and nothing else; an enumeration that raises gives
    the empty list and one error line.  The [detect_cameras] command
    prints these lines and then one [DATA] line whose [count] is the
    length of its [cameras] list. *)
Theorem detect_cameras_lists_gige_devices (env : Env) (w : World) :
  detect_cameras env w = (Ok (detected env), w, detect_lines env)
  /\ handle_command env (command "detect_cameras" []) w
     = (Ok tt, w, (detect_lines env ++ [detect_reply (detected env)])%list)
  /\ (PYLON_AVAILABLE env = false ->
      detected env = [mock_camera] /\ length (detect_lines env) = 1%nat)
  /\ (forall devs,
        PYLON_AVAILABLE env = true ->
        devices env = inr devs ->
        detected env = map info_of (readable devs)
        /\ detect_lines env = map warning_line (unreadable devs)
        /\ Forall (fun c => CameraInfo.is_mock c = false) (detected env)
        /\ (length (detected env) + length (detect_lines env) <= length devs)%nat)
  /\ (forall e,
        PYLON_AVAILABLE env = true ->
        devices env = inl e ->
        detected env = []
        /\ detect_lines env = [ERROR [Lit "Camera detection failed: "; InterpExn e]]).
Proof.
  assert (Hlen : forall devs,
            (length (readable devs) + length (unreadable devs) <= length devs)%nat).
  { induction devs as [| d devs IH]; cbn; [lia |].
    destruct (String.eqb (GetDeviceClass d) "BaslerGigE");
      [destruct (fields d) |]; cbn; lia. }
  split; [apply detect_cameras_run |]. split; [| split; [| split]].
  - unfold command. rewrite handle_command_dict.
    change (dispatch env (VDict [("command", VStr "detect_cameras")])
              (get_or [("command", VStr "detect_cameras")] "command" (VStr "")))
      with (_handle_detect_cameras env).
    unfold try_except, _handle_detect_cameras, bind. rewrite detect_cameras_run.
    unfold send_data, print, detect_reply. reflexivity.
  - intros Hp. unfold detected, detect_lines. rewrite Hp. split; reflexivity.
  - intros devs Hp Hd. unfold detected, detect_lines, listed. rewrite Hp, Hd.
    split; [reflexivity |]. split; [reflexivity |]. split.
    + apply List.Forall_forall. intros c Hc.
      apply List.in_map_iff in Hc. destruct Hc as (f & <- & _).
      unfold info_of, CameraInfo.init, CameraInfo.post_init. cbn.
      destruct (String.eqb (GetUserDefinedName f) ""); reflexivity.
    + rewrite !List.length_map. apply Hlen.
  - intros e Hp Hd. unfold detected, detect_lines, listed. rewrite Hp, Hd.
    split; reflexivity.
Qed.

Lemma detect_cameras_lists_gige_devices_witness :
  detect_cameras no_driver initial_world
  = (Ok [mock_camera], initial_world,
     [STATUS [Lit "PyPylon not available, returning mock camera only"]])
  /\ detect_cameras mixed_devices initial_world
     = (Ok [info_of (mkDeviceFields "10.0.0.5" "Model-X" "S1" "00:11" "")], initial_world,
        [warning_line (mkExn "RuntimeException" "Device is busy")]).
Proof.
  split.
  - destruct (detect_cameras_lists_gige_devices no_driver initial_world)
      as (Hrun & _ & Hmock & _).
    destruct (Hmock eq_refl) as (Hcams & _). rewrite Hcams in Hrun. exact Hrun.
  - destruct (detect_cameras_lists_gige_devices mixed_devices initial_world)
      as (Hrun & _ & _ & Hreal & _).
    destruct (Hreal _ eq_refl eq_refl) as (Hcams & Hlines & _).
    rewrite Hcams, Hlines in Hrun. exact Hrun.
Defined.

(* ================================================================== *)
(** ** Commands before [init] and rejected commands *)
(* ================================================================== *)

Lemma detect_cameras_unchanged (env : Env) (w : World) :
  exists cams out, detect_cameras env w = (Ok cams, w, out).
Proof.
  unfold detect_cameras. destruct (PYLON_AVAILABLE env); cbn [negb].
  - unfold try_except, bind. destruct (devices env) as [e | devs]; cbn.
    + eexists _, _; reflexivity.
    + rewrite detect_loop_run. eexists _, _; reflexivity.
  - eexists _, _; reflexivity.
Qed.

(** X2.  As long as no [init] command has been handled, no command other
    than [init] changes anything: whatever the command and its
    arguments, [handle_command] returns, leaves the world as it was, and
    prints at least one line. *)
Theorem nothing_happens_before_init (env : Env) (d : list (string * Value)) (w : World) :
  IPCHandler.camera (handler w) = None ->
  eq_str (get_or d "command" (VStr "")) "init" = false ->
  exists out,
    handle_command env (VDict d) w = (Ok tt, w, out) /\ out <> [].
Proof.
  intros Hcam Hinit. rewrite handle_command_dict.
  set (c := get_or d "command" (VStr "")) in *.
  unfold dispatch. rewrite Hinit.
  destruct (eq_str c "ping");
    [eexists; split; [reflexivity | discriminate] |].
  destruct (eq_str c "version");
    [eexists; split; [reflexivity | discriminate] |].
  destruct (eq_str c "detect_cameras").
  { destruct (detect_cameras_unchanged env w) as (cams & out & Hrun).
    unfold try_except, _handle_detect_cameras, bind. rewrite Hrun. cbn.
    eexists; split; [reflexivity |]. destruct out; discriminate. }
  destruct (eq_str c "connect").
  { unfold _handle_connect. munfold. rewrite Hcam.
    eexists; split; [reflexivity | discriminate]. }
  destruct (eq_str c "disconnect").
  { unfold _handle_disconnect. munfold. rewrite Hcam.
    eexists; split; [reflexivity | discriminate]. }
  destruct (eq_str c "configure").
  { unfold _handle_configure. munfold. rewrite Hcam.
    eexists; split; [reflexivity | discriminate]. }
  destruct (eq_str c "get_preview").
  { unfold _handle_get_preview, not_connected. munfold. rewrite Hcam.
    eexists; split; [reflexivity | discriminate]. }
  destruct (eq_str c "start_capture").
  { unfold _handle_start_capture, not_connected. munfold. rewrite Hcam.
    eexists; split; [reflexivity | discriminate]. }
  destruct (eq_str c "stop_capture").
  { unfold _handle_stop_capture. munfold. rewrite Hcam.
    eexists; split; [reflexivity | discriminate]. }
  destruct (eq_str c "status").
  { unfold _handle_status. munfold. rewrite Hcam.
    eexists; split; [reflexivity | discriminate]. }
  eexists; split; [reflexivity | discriminate].
Qed.

Lemma nothing_happens_before_init_witness :
  exists out,
    handle_command env_ok (command "start_capture" [("output_dir", VStr "out")])
      initial_world
    = (Ok tt, initial_world, out)
    /\ out <> [].
Proof.
  exact (nothing_happens_before_init env_ok
           [("command", VStr "start_capture"); ("output_dir", VStr "out")]
           initial_world eq_refl eq_refl).
Defined.

(** X3.  The [start_capture] command is turned down before the manager
    is called, with one error line and nothing changed, when the camera
    is not open, and when [output_dir] is missing or falsy (null, the
    empty string, 0, an empty list or object). *)
Theorem start_capture_command_needs_a_directory (env : Env) (d : list (string * Value))
    (w : World) (cam : nat) (m : CameraManager) :
  get_or d "command" (VStr "") = VStr "start_capture" ->
  IPCHandler.camera (handler w) = Some cam ->
  heap w !! cam = Some m ->
  (is_open m = false ->
   handle_command env (VDict d) w = (Ok tt, w, [ERROR [Lit "Camera not connected"]]))
  /\ (is_open m = true ->
      truthy (get_or d "output_dir" VNone) = false ->
      handle_command env (VDict d) w = (Ok tt, w, [ERROR [Lit "output_dir is required"]])).
Proof.
  intros Hcmd Hcam Hm. rewrite handle_command_dict, Hcmd.
  change (dispatch env (VDict d) (VStr "start_capture"))
    with (_handle_start_capture env (VDict d)).
  unfold _handle_start_capture, not_connected, py_get. fold (get_or d "output_dir" VNone).
  split.
  - intros Hopen. munfold. mrun. reflexivity.
  - intros Hopen Hdir. munfold. mrun. reflexivity.
Qed.

Lemma start_capture_command_needs_a_directory_witness :
  handle_command env_ok (command "start_capture" [("output_dir", VStr "")]) idle_world
  = (Ok tt, idle_world, [ERROR [Lit "output_dir is required"]]).
Proof.
  assert (Hm : exists m, heap idle_world !! 0%nat = Some m /\ is_open m = true)
    by (eexists; split; vm_compute; reflexivity).
  destruct Hm as (m & Hm & Hopen).
  exact (proj2 (start_capture_command_needs_a_directory env_ok
                  [("command", VStr "start_capture"); ("output_dir", VStr "")]
                  idle_world 0%nat m eq_refl eq_refl Hm) Hopen eq_refl).
Defined.

(* ================================================================== *)
(** ** Configuring the camera *)
(* ================================================================== *)

Lemma with_nodes_same (c : Camera) (m : CameraManager) :
  camera m = Some c -> with_nodes (nodes c) c m = m.
Proof. intros H. destruct m, c; cbn in *. inversion H. reflexivity. Qed.

Lemma failure_next (i : nat) (e : Exn) (k n : nat) :
  i <> k -> failure (Some (i, e)) (S k) n = failure (Some (i, e)) k (S n).
Proof.
  intros Hne. unfold failure.
  destruct (Nat.leb_spec (S k) i), (Nat.leb_spec k i),
    (Nat.ltb_spec i (S k + n)), (Nat.ltb_spec i (k + S n)); cbn; try reflexivity; lia.
Qed.

Lemma bind_ret {A B} (a : A) (k : A -> M B) (w : World) : bind (ret a) k w = k a w.
Proof. unfold bind, ret. destruct (k a w) as [[r w2] out]. reflexivity. Qed.

Lemma bind_raise {A B} (e : Exn) (k : A -> M B) (w : World) :
  bind (raise e) k w = (Raise e, w, []).
Proof. reflexivity. Qed.

Lemma failure_here (k : nat) (e : Exn) (n : nat) :
  failure (Some (k, e)) k (S n) = Some e.
Proof.
  unfold failure.
  destruct (Nat.leb_spec k k), (Nat.ltb_spec k (k + S n)); cbn; try reflexivity; lia.
Qed.

Lemma write_nodes_run (self : nat) (fail : option (nat * Exn)) (ws : list (string * Value)) :
  forall (k : nat) (w : World) (m : CameraManager) (c : Camera),
    heap w !! self = Some m ->
    camera m = Some c ->
    write_nodes self fail k ws w
    = (match failure fail k (length ws) with Some e => Raise e | None => Ok tt end,
       set_heap (<[self := with_nodes (store_all (written fail k ws) (nodes c)) c m]> (heap w)) w,
       []).
Proof.
  induction ws as [|[name v] rest IH]; intros k w m c Hm Hc.
  - cbn. rewrite with_nodes_same by exact Hc. rewrite set_heap_same by exact Hm.
    unfold failure. destruct fail as [[i e]|]; [|reflexivity].
    rewrite Nat.add_0_r.
    destruct (Nat.leb_spec k i), (Nat.ltb_spec i k); cbn; try reflexivity; lia.
  - set (m1 := with_nodes (<[name := v]> (nodes c)) c m).
    set (w1 := set_heap (<[self := m1]> (heap w)) w).
    assert (Hstep : write_node self name v w = (Ok tt, w1, [])).
    { unfold write_node. munfold. rewrite Hm, Hc. cbn. rewrite Hm. reflexivity. }
    assert (Hm1 : heap w1 !! self = Some m1) by (cbn; apply lookup_insert_eq).
    assert (Hc1 : camera m1 = Some (set_nodes (<[name := v]> (nodes c)) c)) by reflexivity.
    assert (Hrest : forall k',
      bind (write_node self name v) (fun _ => write_nodes self fail k' rest) w
      = (match failure fail k' (length rest) with Some e => Raise e | None => Ok tt end,
         set_heap (<[self := with_nodes
                      (store_all (written fail k' rest) (<[name := v]> (nodes c))) c m]>
                     (heap w)) w,
         [])).
    { intros k'. unfold bind. rewrite Hstep.
      rewrite (IH k' w1 m1 _ Hm1 Hc1). cbn.
      rewrite insert_insert_eq. destruct (failure fail k' (length rest)); reflexivity. }
    cbn [write_nodes written length].
    destruct fail as [[i e]|].
    + destruct (Nat.eqb_spec i k) as [-> | Hne].
      * rewrite failure_here, bind_raise. cbn.
        rewrite with_nodes_same by exact Hc. rewrite set_heap_same by exact Hm.
        reflexivity.
      * rewrite bind_ret, (Hrest (S k)).
        rewrite (failure_next i e k (length rest) Hne). reflexivity.
    + rewrite bind_ret, (Hrest (S k)). reflexivity.
Qed.

Lemma written_reached (i : nat) (e : Exn) (ws : list (string * Value)) :
  forall k, (k <= i)%nat -> written (Some (i, e)) k ws = firstn (i - k) ws.
Proof.
  induction ws as [|x rest IH]; intros k Hk; cbn.
  - destruct (i - k)%nat; reflexivity.
  - destruct (Nat.eqb_spec i k) as [-> | Hne].
    + rewrite Nat.sub_diag. reflexivity.
    + destruct (i - k)%nat as [|d] eqn:E; [lia |].
      cbn. f_equal. rewrite IH by lia. f_equal. lia.
Qed.

Lemma written_none (ws : list (string * Value)) :
  forall k, written None k ws = ws.
Proof. induction ws as [|x rest IH]; intros k; cbn; [| rewrite IH]; reflexivity. Qed.

Lemma written_from_zero (fail : option (nat * Exn)) (ws : list (string * Value)) :
  written fail 0 ws = reached fail ws.
Proof.
  destruct fail as [[i e]|]; cbn.
  - rewrite written_reached by lia. rewrite Nat.sub_0_r. reflexivity.
  - apply written_none.
Qed.

Lemma configure_camera_run (env : Env) (self : nat) (w : World) (m : CameraManager)
    (c : Camera) :
  heap w !! self = Some m ->
  camera m = Some c ->
  _configure_camera env self w
  = (Ok tt,
     set_heap
       (<[self := with_nodes
            (store_all (reached (configure_fail env) (camera_writes (settings m))) (nodes c))
            c m]> (heap w)) w,
     [configured_line env m]).
Proof.
  intros Hm Hc. unfold _configure_camera.
  rewrite (returns_self_get_bind _ _ _ _ Hm). rewrite Hc.
  unfold try_except, bind at 1.
  fold (camera_writes (settings m)).
  rewrite (write_nodes_run self (configure_fail env) (camera_writes (settings m)) 0 w m c Hm Hc).
  rewrite written_from_zero. unfold configured_line.
  change (length (camera_writes (settings m))) with 6%nat.
  destruct (failure (configure_fail env) 0 6); reflexivity.
Qed.




Lemma update_settings_idle_run (env : Env) (self : nat) (kwargs : list (string * Value))
    (w : World) (m : CameraManager) :
  heap w !! self = Some m ->
  merge_error kwargs (settings m) = None ->
  update_settings env self kwargs w
  = bind (self_get self)
      (fun m => if is_open m && negb (is_capturing m) then _configure_camera env self
                else ret tt)
      (set_heap (<[self := set_settings (merged_settings kwargs (settings m)) m]> (heap w)) w).
Proof.
  intros Hm Herr. unfold update_settings, bind at 1.
  rewrite (update_fields_run kwargs self w m Hm), Herr. cbn [outcome].
  match goal with |- context [bind ?c ?k ?W] => destruct (bind c k W) as [[r w2] out] end.
  reflexivity.
Qed.



(* ================================================================== *)
(** ** Stored settings and the [status] command *)
(* ================================================================== *)

Lemma update_settings_run (env : Env) (self : nat) (kwargs : list (string * Value))
    (w : World) (m : CameraManager) :
  heap w !! self = Some m ->
  merge_error kwargs (settings m) = None ->
  exists out,
    update_settings env self kwargs w
    = (Ok tt, set_heap (<[self := reconfigured env kwargs m]> (heap w)) w, out).
Proof.
  intros Hm Herr.
  rewrite (update_settings_idle_run env self kwargs w m Hm Herr).
  set (s' := merged_settings kwargs (settings m)).
  set (m1 := set_settings s' m).
  set (w1 := set_heap (<[self := m1]> (heap w)) w).
  assert (Hm1 : heap w1 !! self = Some m1) by (cbn; apply lookup_insert_eq).
  rewrite (returns_self_get_bind _ _ _ _ Hm1).
  change (is_open m1) with (is_open m). change (is_capturing m1) with (is_capturing m).
  unfold reconfigured. fold s'. fold m1.
  destruct (camera m) as [c|] eqn:Hc.
  - destruct (is_open m && negb (is_capturing m)).
    + rewrite (configure_camera_run env self w1 m1 c Hm1 Hc).
      cbn. rewrite insert_insert_eq. eexists. reflexivity.
    + eexists. reflexivity.
  - destruct (is_open m && negb (is_capturing m)).
    + unfold _configure_camera. rewrite (returns_self_get_bind _ _ _ _ Hm1).
      change (camera m1) with (camera m). rewrite Hc. eexists. reflexivity.
    + eexists. reflexivity.
Qed.

Lemma settings_reconfigured (env : Env) (kwargs : list (string * Value)) (m : CameraManager) :
  settings (reconfigured env kwargs m) = merged_settings kwargs (settings m).
Proof.
  unfold reconfigured. destruct (camera m); [destruct (_ && _) |]; reflexivity.
Qed.

Ltac setattr_cases key :=
  unfold CameraSettings.setattr;
  repeat match goal with
  | |- context [String.eqb key ?s] =>
      destruct (String.eqb_spec key s); [subst key; cbn; reflexivity |]
  end;
  cbn; reflexivity.

Lemma stored_last_value (kwargs : list (string * Value)) :
  forall s,
    let new := stored kwargs s in
    CameraSettings.exposure_time new
    = last_value "exposure_time" kwargs (CameraSettings.exposure_time s)
    /\ CameraSettings.gain new = last_value "gain" kwargs (CameraSettings.gain s)
    /\ CameraSettings.gamma new = last_value "gamma" kwargs (CameraSettings.gamma s)
    /\ CameraSettings.trigger_mode new
       = last_value "trigger_mode" kwargs (CameraSettings.trigger_mode s)
    /\ CameraSettings.trigger_source new
       = last_value "trigger_source" kwargs (CameraSettings.trigger_source s)
    /\ CameraSettings.trigger_activation new
       = last_value "trigger_activation" kwargs (CameraSettings.trigger_activation s)
    /\ CameraSettings.camera_ip new
       = last_value "camera_ip" kwargs (CameraSettings.camera_ip s)
    /\ CameraSettings.camera_id new
       = last_value "camera_id" kwargs (CameraSettings.camera_id s)
    /\ CameraSettings.camera_name new
       = last_value "camera_name" kwargs (CameraSettings.camera_name s).
Proof.
  cbv zeta. induction kwargs as [|[key value] rest IH]; intros s.
  - cbn. repeat split.
  - unfold stored, last_value in *. cbn [fold_left fst snd].
    destruct (IH (CameraSettings.setattr key value s))
      as (H1 & H2 & H3 & H4 & H5 & H6 & H7 & H8 & H9).
    rewrite H1, H2, H3, H4, H5, H6, H7, H8, H9.
    repeat match goal with |- _ /\ _ => split end; f_equal; setattr_cases key.
Qed.

(** X6.  As long as no keyword is [__class__], [__dict__] or
    [__weakref__], the [for] loop of [update_settings] raises nothing and
    stores, in each of the nine fields of [CameraSettings], the value of
    the last keyword of that name, whatever its type, and keeps the old
    value when there is none; keywords of any other name leave the nine
    fields as they are. *)
Theorem merged_settings_last_keyword_wins (kwargs : list (string * Value))
    (s : CameraSettings.t) :
  plain kwargs = true ->
  let new := merged_settings kwargs s in
  merge_error kwargs s = None
  /\ CameraSettings.exposure_time new
     = last_value "exposure_time" kwargs (CameraSettings.exposure_time s)
  /\ CameraSettings.gain new = last_value "gain" kwargs (CameraSettings.gain s)
  /\ CameraSettings.gamma new = last_value "gamma" kwargs (CameraSettings.gamma s)
  /\ CameraSettings.trigger_mode new
     = last_value "trigger_mode" kwargs (CameraSettings.trigger_mode s)
  /\ CameraSettings.trigger_source new
     = last_value "trigger_source" kwargs (CameraSettings.trigger_source s)
  /\ CameraSettings.trigger_activation new
     = last_value "trigger_activation" kwargs (CameraSettings.trigger_activation s)
  /\ CameraSettings.camera_ip new
     = last_value "camera_ip" kwargs (CameraSettings.camera_ip s)
  /\ CameraSettings.camera_id new
     = last_value "camera_id" kwargs (CameraSettings.camera_id s)
  /\ CameraSettings.camera_name new
     = last_value "camera_name" kwargs (CameraSettings.camera_name s).
Proof.
  intros Hp. cbv zeta. unfold merge_error, merged_settings.
  rewrite (merge_plain kwargs s Hp). cbn [fst snd].
  split; [reflexivity | apply stored_last_value].
Qed.

Lemma merged_settings_last_keyword_wins_witness :
  CameraSettings.gain
    (merged_settings [("gain", VInt 5); ("__doc__", VStr "x"); ("colour", VStr "red");
                      ("gain", VStr "high")]
       (CameraSettings.init VNone VNone))
  = VStr "high".
Proof.
  destruct (merged_settings_last_keyword_wins
              [("gain", VInt 5); ("__doc__", VStr "x"); ("colour", VStr "red");
               ("gain", VStr "high")]
              (CameraSettings.init VNone VNone) eq_refl)
    as (_ & _ & Hgain & _).
  rewrite Hgain. reflexivity.
Defined.

Lemma merged_trigger_mode (kwargs : list (string * Value)) (s : CameraSettings.t) :
  plain kwargs = true ->
  CameraSettings.trigger_mode (merged_settings kwargs s)
  = last_value "trigger_mode" kwargs (CameraSettings.trigger_mode s).
Proof.
  intros Hp. unfold merged_settings. rewrite (merge_plain kwargs s Hp). cbn [fst].
  exact (proj1 (proj2 (proj2 (proj2 (stored_last_value kwargs s))))).
Qed.

Lemma status_run (env : Env) (c : list (string * Value)) (w : World) (cam : nat)
    (m : CameraManager) :
  get_or c "command" (VStr "") = VStr "status" ->
  IPCHandler.camera (handler w) = Some cam ->
  heap w !! cam = Some m ->
  handle_command env (VDict c) w
  = (Ok tt, w,
     [match CameraSettings.trigger_mode (settings m) with
      | VTriggerMode mode =>
          status_reply (camera_id m) (is_open m) (is_capturing m) (frame_count m)
            (TriggerMode_value mode)
      | VTriggerActivation a =>
          status_reply (camera_id m) (is_open m) (is_capturing m) (frame_count m)
            (TriggerActivation_value a)
      | _ => command_error (AttributeError "object has no attribute 'value'")
      end]).
Proof.
  intros Hcmd Hcam Hm. rewrite handle_command_dict, Hcmd.
  change (dispatch env (VDict c) (VStr "status")) with _handle_status.
  unfold _handle_status, get_status. munfold. rewrite Hcam. cbn. rewrite Hm. cbn.
  destruct (CameraSettings.trigger_mode (settings m)); reflexivity.
Qed.

(** X7.  The [status] command changes nothing.  For an initialised
    manager it reports the manager's identifier, [is_open],
    [is_capturing], the frame counter and the value of the stored trigger
    mode, when that is a member of [TriggerMode]; when the stored trigger
    mode is anything else, the reply is a "Command error" line. *)
Theorem status_reports_the_manager (env : Env) (c : list (string * Value)) (w : World)
    (cam : nat) (m : CameraManager) :
  get_or c "command" (VStr "") = VStr "status" ->
  IPCHandler.camera (handler w) = Some cam ->
  heap w !! cam = Some m ->
  (forall mode,
     CameraSettings.trigger_mode (settings m) = VTriggerMode mode ->
     handle_command env (VDict c) w
     = (Ok tt, w,
        [status_reply (camera_id m) (is_open m) (is_capturing m) (frame_count m)
           (TriggerMode_value mode)]))
  /\ (is_enum (CameraSettings.trigger_mode (settings m)) = false ->
      handle_command env (VDict c) w
      = (Ok tt, w, [command_error (AttributeError "object has no attribute 'value'")])).
Proof.
  intros Hcmd Hcam Hm. rewrite (status_run env c w cam m Hcmd Hcam Hm). split.
  - intros mode Hmode. rewrite Hmode. reflexivity.
  - intros Hv. destruct (CameraSettings.trigger_mode (settings m));
      try discriminate; reflexivity.
Qed.

Lemma status_reports_the_manager_witness :
  handle_command env_ok (command "status" []) capturing_world
  = (Ok tt, capturing_world, [status_reply (VStr "cam1") true true 0 "hardware"]).
Proof.
  assert (Hm : exists m,
             heap capturing_world !! 0%nat = Some m
             /\ CameraSettings.trigger_mode (settings m) = VTriggerMode HARDWARE
             /\ camera_id m = VStr "cam1" /\ is_open m = true
             /\ is_capturing m = true /\ frame_count m = 0)
    by (eexists; repeat match goal with |- _ /\ _ => split end; vm_compute; reflexivity).
  destruct Hm as (m & Hm & Hmode & Hid & Hopen & Hcap & Hcount).
  pose proof (proj1 (status_reports_the_manager env_ok [("command", VStr "status")]
                       capturing_world 0%nat m eq_refl eq_refl Hm) HARDWARE Hmode) as H.
  rewrite Hid, Hopen, Hcap, Hcount in H. exact H.
Defined.

Lemma configure_run (env : Env) (c d : list (string * Value)) (w : World) (cam : nat)
    (m : CameraManager) :
  get_or c "command" (VStr "") = VStr "configure" ->
  get_or c "settings" (VDict []) = VDict d ->
  existsb (fun kv => String.eqb (fst kv) "self") d = false ->
  IPCHandler.camera (handler w) = Some cam ->
  heap w !! cam = Some m ->
  merge_error d (settings m) = None ->
  exists out,
    handle_command env (VDict c) w
    = (Ok tt, set_heap (<[cam := reconfigured env d m]> (heap w)) w,
       (out ++ [configure_reply])%list).
Proof.
  intros Hcmd Hset Hself Hcam Hm Herr.
  destruct (update_settings_run env cam d w m Hm Herr) as (out & Hrun).
  exists out. rewrite handle_command_dict, Hcmd.
  change (dispatch env (VDict c) (VStr "configure")) with (_handle_configure env (VDict c)).
  unfold _handle_configure, py_get. fold (get_or c "settings" (VDict [])).
  rewrite Hset.
  unfold try_except, bind, the_handler, lift_sum, ret, send_data, print.
  cbv beta iota. rewrite Hcam. cbv beta iota.
  unfold unpack_kwargs. rewrite Hself. unfold ret. cbv beta iota.
  rewrite Hrun. reflexivity.
Qed.

(** X8.  Nothing checks what a [configure] command stores.  When no
    keyword of its settings is [__class__], [__dict__] or [__weakref__]
    and the last [trigger_mode] keyword carries a value that is not a
    member of an enumeration (no JSON value is), the command is
    acknowledged as configured, and a [status] command handled in the
    state it leaves is answered with a "Command error" line and leaves
    that state as it is, so that the same holds of the next [status]
    command, until another command stores a trigger mode. *)
Theorem configure_can_break_status (env : Env) (c d : list (string * Value)) (w : World)
    (cam : nat) (m : CameraManager) :
  get_or c "command" (VStr "") = VStr "configure" ->
  get_or c "settings" (VDict []) = VDict d ->
  existsb (fun kv => String.eqb (fst kv) "self") d = false ->
  IPCHandler.camera (handler w) = Some cam ->
  heap w !! cam = Some m ->
  plain d = true ->
  is_enum (last_value "trigger_mode" d (CameraSettings.trigger_mode (settings m))) = false ->
  exists w1 out,
    handle_command env (VDict c) w = (Ok tt, w1, (out ++ [configure_reply])%list)
    /\ forall env' c',
         get_or c' "command" (VStr "") = VStr "status" ->
         handle_command env' (VDict c') w1
         = (Ok tt, w1, [command_error (AttributeError "object has no attribute 'value'")]).
Proof.
  intros Hcmd Hset Hself Hcam Hm Hp Hbad.
  assert (Herr : merge_error d (settings m) = None)
    by (unfold merge_error; rewrite (merge_plain d (settings m) Hp); reflexivity).
  destruct (configure_run env c d w cam m Hcmd Hset Hself Hcam Hm Herr) as (out & Hrun).
  eexists _, out. split; [exact Hrun |].
  intros env' c' Hstatus.
  rewrite (status_run env' c' (set_heap (<[cam := reconfigured env d m]> (heap w)) w)
             cam (reconfigured env d m) Hstatus Hcam (lookup_insert_eq _ _ _)).
  rewrite settings_reconfigured, (merged_trigger_mode d (settings m) Hp).
  destruct (last_value "trigger_mode" d (CameraSettings.trigger_mode (settings m)));
    try discriminate; reflexivity.
Qed.

Lemma configure_can_break_status_witness :
  exists w1 out,
    handle_command env_ok
      (command "configure" [("settings", VDict [("trigger_mode", VStr "software")])])
      idle_world
    = (Ok tt, w1, (out ++ [configure_reply])%list)
    /\ handle_command env_ok (command "status" []) w1
       = (Ok tt, w1, [command_error (AttributeError "object has no attribute 'value'")]).
Proof.
  assert (Hm : exists m, heap idle_world !! 0%nat = Some m)
    by (eexists; vm_compute; reflexivity).
  destruct Hm as (m & Hm).
  destruct (configure_can_break_status env_ok
              [("command", VStr "configure");
               ("settings", VDict [("trigger_mode", VStr "software")])]
              [("trigger_mode", VStr "software")] idle_world 0%nat m
              eq_refl eq_refl eq_refl eq_refl Hm eq_refl eq_refl)
    as (w1 & out & Hrun & Hstatus).
  exists w1, out. split; [exact Hrun |].
  exact (Hstatus env_ok [("command", VStr "status")] eq_refl).
Defined.

(* ================================================================== *)
(** ** Connecting and disconnecting *)
(* ================================================================== *)






Lemma kept_refl m : kept m m.
Proof. constructor; reflexivity. Qed.

Lemma kept_trans a b c : kept a b -> kept b c -> kept a c.
Proof. intros [] []. constructor; congruence. Qed.

Lemma keeps_connection_refl w : keeps_connection w w.
Proof. apply obj_rel_refl, kept_refl. Qed.

Lemma keeps_connection_trans a b c :
  keeps_connection a b -> keeps_connection b c -> keeps_connection a c.
Proof. apply obj_rel_trans, kept_trans. Qed.

Lemma progress_kept (m m' : CameraManager) : progress m m' -> kept m m'.
Proof.
  intros []. constructor; try assumption.
  unfold has_camera. destruct (camera m), (camera m'); cbn in *; tauto.
Qed.

Lemma loop_keeps_connection {A} (c : M A) :
  respects loop_rel c -> respects keeps_connection c.
Proof.
  intros H w i m Hm. destruct (H w i m Hm) as (m' & Hm' & Hp).
  exists m'. split; [exact Hm' | apply progress_kept, Hp].
Qed.

Lemma kept_self_set (self : nat) (f : CameraManager -> CameraManager) :
  (forall m, kept m (f m)) -> respects keeps_connection (self_set self f).
Proof.
  intros Hf w. unfold self_set. destruct (heap w !! self) as [m |] eqn:Hm; cbn.
  - eapply obj_rel_insert; [apply kept_refl | exact Hm | apply Hf].
  - apply keeps_connection_refl.
Qed.

Lemma kept_camera_set (self : nat) (f : Camera -> Camera) :
  respects keeps_connection (camera_set self f).
Proof.
  intros w. unfold camera_set, the_camera, bind, self_get, self_set, ret, raise.
  destruct (heap w !! self) as [m |] eqn:Hm; cbn; [| apply keeps_connection_refl].
  destruct (camera m) as [c |] eqn:Hc; cbn; [| apply keeps_connection_refl].
  rewrite Hm. cbn.
  eapply obj_rel_insert; [apply kept_refl | exact Hm |].
  constructor; try reflexivity. unfold has_camera. rewrite Hc. reflexivity.
Qed.

Lemma stop_capture_keeps_connection (env : Env) (self : nat) :
  respects keeps_connection (stop_capture env self).
Proof.
  unfold stop_capture, join.
  repeat first
    [ apply kept_camera_set
    | apply kept_self_set; intros m; constructor; reflexivity
    | apply loop_keeps_connection, loop_run_threads
    | respects_step keeps_connection_refl keeps_connection_trans ].
Qed.







(* ================================================================== *)
(** ** Single frames and previews *)
(* ================================================================== *)

Lemma grab_frame_run (env : Env) (self : nat) (w : World) (m : CameraManager) (c : Camera) :
  heap w !! self = Some m ->
  is_open m = true ->
  camera m = Some c ->
  grab_frame env self w
  = (Ok (fst (grab_outcome env)),
     set_heap (<[self := set_camera (Some (set_grabbing false c)) m]> (heap w)) w,
     snd (grab_outcome env)).
Proof.
  intros Hm Hopen Hc.
  assert (Hsame : grabbing c = false ->
            set_heap (<[self := set_camera (Some (set_grabbing false c)) m]> (heap w)) w = w).
  { intros Hg. replace (set_camera (Some (set_grabbing false c)) m) with m.
    - apply set_heap_same, Hm.
    - destruct m, c; cbn in *. inversion Hc; subst. reflexivity. }
  unfold grab_frame, grab_outcome.
  rewrite (returns_self_get_bind _ _ _ _ Hm).
  unfold has_camera. rewrite Hopen, Hc. cbn [negb orb].
  destruct (start_max_raises env) as [e|] eqn:Hstart.
  { munfold. mrun. destruct (grabbing c) eqn:Hg; mrun.
    - reflexivity.
    - rewrite <- (Hsame eq_refl) at 1. reflexivity. }
  destruct (grab_one env) as [e|g] eqn:Hgrab.
  { munfold. mrun. rewrite insert_insert_eq. reflexivity. }
  destruct (GrabSucceeded g) eqn:Hok; munfold; mrun;
    rewrite ?insert_insert_eq; destruct c; reflexivity.
Qed.

(** X11.  [grab_frame] never raises.  On a manager that is not open, or
    has no camera object, it prints one error, returns [None] and changes
    nothing.  On an open camera it returns the image exactly when
    starting the grab and retrieving the result raise nothing and the
    grab succeeded, and otherwise prints one error and returns [None];
    whichever way it went, the camera is not grabbing afterwards (also
    when it was grabbing for a session before the call), it holds as
    many grab results as before, and nothing else has changed. *)
Theorem grab_frame_outcome (env : Env) (self : nat) (w : World) (m : CameraManager) :
  heap w !! self = Some m ->
  (is_open m = false \/ camera m = None ->
   grab_frame env self w = (Ok None, w, [ERROR [Lit "Camera not connected"]]))
  /\ (forall c,
        is_open m = true ->
        camera m = Some c ->
        grab_frame env self w
        = (Ok (fst (grab_outcome env)),
           set_heap (<[self := set_camera (Some (set_grabbing false c)) m]> (heap w)) w,
           snd (grab_outcome env))
        /\ (forall img,
              fst (grab_outcome env) = Some img <->
              start_max_raises env = None
              /\ exists g, grab_one env = inr g /\ GrabSucceeded g = true /\ Array g = img)
        /\ (fst (grab_outcome env) = None -> exists text, snd (grab_outcome env) = [ERROR text])).
Proof.
  intros Hm. split.
  - intros Hoff. unfold grab_frame. rewrite (returns_self_get_bind _ _ _ _ Hm).
    unfold has_camera.
    destruct Hoff as [-> | ->]; [| destruct (is_open m)]; reflexivity.
  - intros c Hopen Hc. split; [exact (grab_frame_run env self w m c Hm Hopen Hc) |].
    unfold grab_outcome. split.
    + intros img.
      destruct (start_max_raises env) as [e|]; cbn.
      { split; [discriminate | intros [H _]; discriminate]. }
      destruct (grab_one env) as [e|g]; cbn.
      { split; [discriminate | intros (_ & g & H & _); discriminate]. }
      destruct (GrabSucceeded g) eqn:Hok; cbn.
      * split.
        -- intros H. inversion H; subst. split; [reflexivity |]. exists g. auto.
        -- intros (_ & g' & H & _ & Harr). inversion H; subst. reflexivity.
      * split; [discriminate |].
        intros (_ & g' & H & Hok' & _). inversion H; subst. congruence.
    + destruct (start_max_raises env) as [e|]; cbn; [eexists; reflexivity |].
      destruct (grab_one env) as [e|g]; cbn; [eexists; reflexivity |].
      destruct (GrabSucceeded g); cbn; [discriminate | eexists; reflexivity].
Qed.

Lemma grab_frame_outcome_witness :
  exists m c,
    heap capturing_world !! 0%nat = Some m
    /\ camera m = Some c
    /\ grabbing c = true
    /\ grab_frame env_ok 0 capturing_world
       = (Ok (Some [[0]]),
          set_heap (<[0%nat := set_camera (Some (set_grabbing false c)) m]>
                      (heap capturing_world)) capturing_world,
          []).
Proof.
  assert (Hm : exists m c,
             heap capturing_world !! 0%nat = Some m /\ camera m = Some c
             /\ grabbing c = true /\ is_open m = true)
    by (eexists _, _; repeat match goal with |- _ /\ _ => split end;
        vm_compute; reflexivity).
  destruct Hm as (m & c & Hm & Hc & Hg & Hopen).
  exists m, c. split; [exact Hm |]. split; [exact Hc |]. split; [exact Hg |].
  exact (proj1 (proj2 (grab_frame_outcome env_ok 0 capturing_world m Hm) c Hopen Hc)).
Defined.

Lemma grab_frame_base64_run (env : Env) (self : nat) (format quality : Value) (w : World)
    (m : CameraManager) (c : Camera) :
  heap w !! self = Some m ->
  is_open m = true ->
  camera m = Some c ->
  exists r out,
    grab_frame_base64 env self format quality w
    = (Ok r,
       set_heap (<[self := set_camera (Some (set_grabbing false c)) m]> (heap w)) w,
       out)
    /\ (out ++ [match r with
                | Some uri => PREVIEW (fst uri) (snd uri)
                | None => ERROR [Lit "Failed to grab preview frame"]
                end])%list
       = preview_lines env format.
Proof.
  intros Hm Hopen Hc. unfold grab_frame_base64, preview_lines, bind at 1.
  rewrite (grab_frame_run env self w m c Hm Hopen Hc).
  destruct (grab_outcome env) as [[img|] out]; cbn [fst snd].
  2:{ eexists _, _. split; [reflexivity |]. rewrite app_nil_r. reflexivity. }
  destruct format; munfold; cbn;
    try (eexists _, _; split; [reflexivity |]; rewrite <- app_assoc; reflexivity).
  destruct (encode_raises env) as [e|]; cbn.
  - eexists _, _; split; [reflexivity |]. rewrite <- app_assoc. reflexivity.
  - unfold mime_of. destruct (String.eqb (lower s) "jpeg"); cbn;
      (eexists _, _; split; [reflexivity |]; rewrite !app_nil_r; reflexivity).
Qed.

(** X12.  The [get_preview] command on an open camera never raises, and
    leaves the camera not grabbing.  When no frame could be grabbed, the
    error of [grab_frame] is followed by "Failed to grab preview frame".
    When a frame was grabbed and the encoder raises nothing, the reply is
    one [PREVIEW] line: JPEG when the requested format, lower-cased, is
    "jpeg", and PNG for every other format name; a format that is not a
    string gives an "Image encoding error" line and then "Failed to grab
    preview frame".  The format is looked at only after the frame has
    been grabbed. *)
Theorem get_preview_reply (env : Env) (d : list (string * Value)) (w : World) (cam : nat)
    (m : CameraManager) (c : Camera) :
  get_or d "command" (VStr "") = VStr "get_preview" ->
  IPCHandler.camera (handler w) = Some cam ->
  heap w !! cam = Some m ->
  is_open m = true ->
  camera m = Some c ->
  exists out,
    handle_command env (VDict d) w
    = (Ok tt,
       set_heap (<[cam := set_camera (Some (set_grabbing false c)) m]> (heap w)) w, out)
    /\ (fst (grab_outcome env) = None ->
        out = (snd (grab_outcome env) ++ [ERROR [Lit "Failed to grab preview frame"]])%list)
    /\ (forall img,
          fst (grab_outcome env) = Some img ->
          encode_raises env = None ->
          match get_or d "format" (VStr "jpeg") with
          | VStr s => out = [PREVIEW (mime_of s) img]
          | _ =>
              out = [ERROR [Lit "Image encoding error: ";
                            InterpExn (AttributeError "object has no attribute 'lower'")];
                     ERROR [Lit "Failed to grab preview frame"]]
          end).
Proof.
  intros Hcmd Hcam Hm Hopen Hc.
  exists (preview_lines env (get_or d "format" (VStr "jpeg"))). split; [| split].
  - destruct (grab_frame_base64_run env cam (get_or d "format" (VStr "jpeg"))
                (get_or d "quality" (VInt 85)) w m c Hm Hopen Hc)
      as (r & out & Hrun & Hlines).
    rewrite handle_command_dict, Hcmd.
    change (dispatch env (VDict d) (VStr "get_preview"))
      with (_handle_get_preview env (VDict d)).
    unfold _handle_get_preview, not_connected, py_get.
    fold (get_or d "format" (VStr "jpeg")). fold (get_or d "quality" (VInt 85)).
    unfold try_except, bind, the_handler, lift_sum, ret, self_get.
    cbv beta iota. rewrite Hcam. cbv beta iota. rewrite Hm. cbv beta iota.
    rewrite Hopen. cbn [negb]. cbv beta iota. rewrite Hrun. cbv beta iota.
    rewrite <- Hlines. destruct r as [uri|]; reflexivity.
  - intros Hnone. unfold preview_lines.
    destruct (grab_outcome env) as [[img|] out]; cbn in *; [discriminate | reflexivity].
  - intros img Himg Henc. unfold preview_lines.
    assert (Hout : snd (grab_outcome env) = []).
    { unfold grab_outcome in *. destruct (start_max_raises env); [discriminate |].
      destruct (grab_one env) as [e|g]; [discriminate |].
      destruct (GrabSucceeded g); [reflexivity | discriminate]. }
    destruct (grab_outcome env) as [[img'|] out]; cbn in *; [| discriminate].
    inversion Himg; subst. rewrite Henc.
    destruct (get_or d "format" (VStr "jpeg")); reflexivity.
Qed.

Lemma get_preview_reply_witness :
  exists w',
    handle_command env_ok (command "get_preview" [("format", VStr "GIF")]) idle_world
    = (Ok tt, w', [PREVIEW "image/png" [[0]]]).
Proof.
  assert (Hm : exists m c,
             heap idle_world !! 0%nat = Some m /\ camera m = Some c /\ is_open m = true)
    by (eexists _, _; repeat match goal with |- _ /\ _ => split end;
        vm_compute; reflexivity).
  destruct Hm as (m & c & Hm & Hc & Hopen).
  destruct (get_preview_reply env_ok
              [("command", VStr "get_preview"); ("format", VStr "GIF")]
              idle_world 0%nat m c eq_refl eq_refl Hm Hopen Hc)
    as (out & Hrun & _ & Hsome).
  specialize (Hsome [[0]] eq_refl eq_refl). cbn in Hsome.
  eexists. rewrite Hsome in Hrun. exact Hrun.
Defined.

(* ================================================================== *)
(** ** The life of an acquisition thread *)
(* ================================================================== *)

Lemma set_pc_run (tid : nat) (p : PC) (w : World) (th : Thread) :
  threads w !! tid = Some th ->
  set_pc tid p w
  = (Ok tt, set_threads (<[tid := mkThread (target th) p]> (threads w)) w, []).
Proof. intros H. unfold set_pc, modify_world. rewrite H. reflexivity. Qed.

Lemma thread_step_run (tid : nat) (le : LoopEnv) (w : World) (th : Thread)
    (m : CameraManager) (c : Camera) (d : Path) :
  threads w !! tid = Some th ->
  heap w !! target th = Some m ->
  camera m = Some c ->
  _output_dir m = Some d ->
  thread_step tid le w
  = match pc th with
    | AtWhile =>
        (Ok tt,
         set_threads (<[tid := mkThread (target th) (next_pc AtWhile m)]> (threads w)) w,
         if _capture_active m then [] else [loop_ended_line m])
    | InBody =>
        (Ok tt,
         set_threads (<[tid := mkThread (target th) AtWhile]> (threads w))
           (updated (target th) (fst (fst (body_effect m c d le)))
              (snd (fst (body_effect m c d le))) w),
         snd (body_effect m c d le))
    | Finished => (Ok tt, w, [])
    end.
Proof.
  intros Hth Hm Hc Hd. unfold thread_step, bind at 1, get_world. rewrite Hth.
  destruct (pc th) eqn:Hpc.
  - unfold try_except. rewrite (returns_self_get_bind _ _ _ _ Hm). unfold next_pc.
    destruct (_capture_active m).
    + rewrite (set_pc_run tid InBody w th Hth). reflexivity.
    + unfold bind, print. rewrite (set_pc_run tid Finished w th Hth). reflexivity.
  - unfold try_except, bind. rewrite (body_run _ le w m c d Hm Hc Hd).
    rewrite (set_pc_run tid AtWhile
               (updated (target th) (fst (fst (body_effect m c d le)))
                  (snd (fst (body_effect m c d le))) w) th Hth).
    cbn. rewrite app_nil_r. reflexivity.
  - reflexivity.
Qed.



(** X14.  After a [stop_capture] that ended a session, a second
    [stop_capture] finds the manager idle: it returns the "Not capturing"
    result, whose frame count is 0 whatever the session had counted,
    changes nothing and prints nothing. *)
Theorem stop_capture_twice (env : Env) (self : nat) (w : World) (m : CameraManager) :
  heap w !! self = Some m ->
  is_capturing m = true ->
  exists r w' out,
    stop_capture env self w = (Ok r, w', out)
    /\ CaptureResult.success r = true
    /\ forall env',
         stop_capture env' self w' = (Ok (not_capturing_result m), w', []).
Proof.
  intros Hm Hcap.
  destruct (stop_capture_run env self w m Hm Hcap)
    as (w' & out & m' & Hrun & Hm' & _ & _ & Hcap' & _).
  pose proof (stop_capture_keeps_connection env self w self m Hm) as Hk.
  rewrite Hrun in Hk. cbn in Hk. destruct Hk as (m'' & Hm'' & [Kid _ _ _]).
  rewrite Hm' in Hm''. inversion Hm''; subst m''.
  eexists _, w', out. split; [exact Hrun |]. split; [reflexivity |].
  intros env'. unfold stop_capture. rewrite (returns_self_get_bind _ _ _ _ Hm').
  rewrite Hcap'. unfold not_capturing_result. rewrite Kid. reflexivity.
Qed.

Lemma stop_capture_twice_witness :
  exists r w' out m,
    heap capturing_world !! 0%nat = Some m
    /\ stop_capture env_ok 0 capturing_world = (Ok r, w', out)
    /\ CaptureResult.success r = true
    /\ stop_capture env_ok 0 w' = (Ok (not_capturing_result m), w', []).
Proof.
  assert (Hm : exists m, heap capturing_world !! 0%nat = Some m /\ is_capturing m = true)
    by (eexists; split; vm_compute; reflexivity).
  destruct Hm as (m & Hm & Hcap).
  destruct (stop_capture_twice env_ok 0 capturing_world m Hm Hcap)
    as (r & w' & out & Hrun & Hok & Hagain).
  exists r, w', out, m. auto.
Defined.

Lemma live_after_insert (self tid : nat) (p : PC) (ts : list Thread) :
  (tid < length ts)%nat ->
  p <> Finished ->
  (1 <= length (List.filter
                  (fun th => Nat.eqb (target th) self
                             && match pc th with Finished => false | _ => true end)
                  (<[tid := mkThread self p]> ts)))%nat.
Proof.
  intros Hlt Hp. revert tid Hlt. induction ts as [|t ts IH]; intros tid Hlt.
  - cbn in Hlt. lia.
  - destruct tid as [|tid]; cbn [insert list_insert List.filter target pc].
    + rewrite Nat.eqb_refl. destruct p; [cbn; lia | cbn; lia | contradiction].
    + cbn in Hlt. specialize (IH tid ltac:(lia)).
      destruct (_ && _); cbn [length]; [lia | exact IH].
Qed.

(** X15.  [start_capture] starts a new thread without looking at the old
    ones.  A thread of the same manager that has not returned yet (the
    [join] of the last [stop_capture] timed out before the thread saw the
    cleared event) finds the event set again after an accepted
    [start_capture]: its next step does not end it and does not print
    "capture loop ended", so two threads now run the loop of one
    manager. *)
Theorem start_capture_revives_a_waiting_thread (env : Env) (self : nat) (output_dir : Value)
    (cb : option Callback) (w w1 : World) (out1 : list Line) (tid : nat) (p : PC)
    (le : LoopEnv) :
  threads w !! tid = Some (mkThread self p) ->
  p <> Finished ->
  start_capture env self output_dir cb w = (Ok true, w1, out1) ->
  exists w2 out2 p',
    thread_step tid le w1 = (Ok tt, w2, out2)
    /\ threads w2 !! tid = Some (mkThread self p')
    /\ p' <> Finished
    /\ (p = AtWhile -> p' = InBody /\ out2 = [])
    /\ threads w2 !! length (threads w) = Some (mkThread self AtWhile)
    /\ (2 <= length (live_threads self w2))%nat.
Proof.
  intros Hth Hp Hstart.
  destruct (start_capture_accepted env self output_dir cb w w1 out1 Hstart)
    as (m' & [Hm' (d & _ & Hd) _ _ _ Hact Hcam Htid Hthreads _]).
  unfold has_camera in Hcam. destruct (camera m') as [c|] eqn:Hc; [| discriminate].
  assert (Hlt : (tid < length (threads w))%nat) by (eapply lookup_lt_Some; exact Hth).
  assert (Hth1 : threads w1 !! tid = Some (mkThread self p)).
  { rewrite Hthreads. rewrite lookup_app_l by exact Hlt. exact Hth. }
  assert (Hlt1 : (tid < length (threads w1))%nat) by (eapply lookup_lt_Some; exact Hth1).
  assert (Hlive : forall p' (w2 : World),
            p' <> Finished ->
            threads w2 = <[tid := mkThread self p']> (threads w1) ->
            threads w2 !! tid = Some (mkThread self p')
            /\ threads w2 !! length (threads w) = Some (mkThread self AtWhile)
            /\ (2 <= length (live_threads self w2))%nat).
  { intros p' w2 Hp' Hw2. unfold live_threads. rewrite Hw2.
    split; [apply list_lookup_insert_eq; exact Hlt1 |].
    split.
    - rewrite list_lookup_insert_ne by lia. rewrite Hthreads.
      rewrite lookup_app_r by lia. rewrite Nat.sub_diag. reflexivity.
    - rewrite Hthreads. rewrite insert_app_l by exact Hlt.
      rewrite List.filter_app, List.length_app. cbn [List.filter target pc].
      rewrite Nat.eqb_refl. cbn [andb length].
      pose proof (live_after_insert self tid p' (threads w) Hlt Hp'). lia. }
  rewrite (thread_step_run tid le w1 _ m' c _ Hth1 Hm' Hc Hd).
  cbn [pc target next_pc]. destruct p; [| | contradiction].
  - rewrite Hact.
    destruct (Hlive InBody
                (set_threads (<[tid := mkThread self InBody]> (threads w1)) w1)
                ltac:(discriminate) eq_refl) as (H1 & H2 & H3).
    eexists _, _, InBody. split; [reflexivity |].
    split; [exact H1 |]. split; [discriminate |]. split; [auto |]. split; assumption.
  - match goal with
    | |- context [updated self ?M ?F w1] =>
        destruct (Hlive AtWhile
                    (set_threads (<[tid := mkThread self AtWhile]> (threads w1))
                       (updated self M F w1))
                    ltac:(discriminate) eq_refl) as (H1 & H2 & H3)
    end.
    eexists _, _, AtWhile. split; [reflexivity |].
    split; [exact H1 |]. split; [discriminate |].
    split; [discriminate |]. split; assumption.
Qed.

Lemma start_capture_revives_a_waiting_thread_witness :
  exists w1 out1 w2,
    threads stopped_world !! 0%nat = Some (mkThread 0 AtWhile)
    /\ start_capture env_ok 0 (VStr "out") (Some on_frame) stopped_world = (Ok true, w1, out1)
    /\ thread_step 0 (frame_at 1) w1 = (Ok tt, w2, [])
    /\ threads w2 !! 0%nat = Some (mkThread 0 InBody)
    /\ threads w2 !! 1%nat = Some (mkThread 0 AtWhile).
Proof.
  assert (Hth : threads stopped_world !! 0%nat = Some (mkThread 0 AtWhile))
    by (vm_compute; reflexivity).
  assert (Hstart : exists w1 out1,
             start_capture env_ok 0 (VStr "out") (Some on_frame) stopped_world
             = (Ok true, w1, out1))
    by (eexists _, _; vm_compute; reflexivity).
  destruct Hstart as (w1 & out1 & Hstart).
  assert (Hp : AtWhile <> Finished) by discriminate.
  destruct (start_capture_revives_a_waiting_thread env_ok 0 (VStr "out") (Some on_frame)
              stopped_world w1 out1 0 AtWhile (frame_at 1) Hth Hp Hstart)
    as (w2 & out2 & p' & Hstep & Hold & _ & Hat & Hnew & _).
  destruct (Hat eq_refl) as [-> ->].
  exists w1, out1, w2. auto.
Defined.

(* ================================================================== *)
(** ** The loop over stdin *)
(* ================================================================== *)

Section Loop.

Variable json_loads : string -> Exn + Value.

(** X16.  [run_ipc_loop] starts with a new handler and the line "IPC
    handler ready", and returns without raising.  When the input ends it
    returns silently; when an interrupt arrives it prints the "Shutting
    down" line and reads nothing of what follows.  Either way it stops
    no session and disconnects no camera: the world it returns in is the
    world the last event served has left. *)
Theorem run_ipc_loop_frames_the_output (before after : list Event) (w : World) :
  forallb no_interrupt before = true ->
  exists w1 out1,
    serve json_loads before (set_handler IPCHandler.init w) = (Ok true, w1, out1)
    /\ run_ipc_loop json_loads before w = (Ok tt, w1, ready_line :: out1)
    /\ run_ipc_loop json_loads (before ++ KeyboardInterrupt :: after) w
       = (Ok tt, w1, ready_line :: out1 ++ [shutdown_line]).
Proof.
  intros Hno.
  destruct (serve_app json_loads before (KeyboardInterrupt :: after)
              (set_handler IPCHandler.init w) Hno) as (w1 & out1 & Hrun & Happ).
  exists w1, out1. split; [exact Hrun |]. split.
  - unfold run_ipc_loop, try_except, bind, modify_world, send_status, print.
    rewrite Hrun. cbn. rewrite app_nil_r. reflexivity.
  - unfold run_ipc_loop, try_except, bind, modify_world, send_status, print.
    rewrite Happ. cbn. rewrite app_nil_r. reflexivity.
Qed.










(** X18.  The store stays well formed through [run_ipc_loop]: whatever
    the lines, the decoder, the driver and the schedule of the threads,
    the reference the handler holds is a manager in the store and no
    manager lives beyond the next free reference. *)
Theorem run_ipc_loop_well_formed (events : list Event) (w : World) :
  well_formed w ->
  well_formed (snd (fst (run_ipc_loop json_loads events w))).
Proof.
  assert (Hline : forall env line, respects keeps_wf (process_line json_loads env line)).
  { intros env line. unfold process_line.
    repeat first [ apply wf_handle_command
                 | respects_step keeps_wf_refl keeps_wf_trans ]. }
  assert (Hserve : respects keeps_wf (serve json_loads events)).
  { induction events as [| [env line | e | tid le |] events IH]; cbn [serve].
    - apply (respects_ret _ keeps_wf_refl).
    - apply (respects_bind _ keeps_wf_trans); [apply Hline | intros _; exact IH].
    - apply (respects_raise _ keeps_wf_refl).
    - apply (respects_bind _ keeps_wf_trans); [apply wf_thread_step | intros _; exact IH].
    - apply (respects_ret _ keeps_wf_refl). }
  assert (Hloop : respects keeps_wf (run_ipc_loop json_loads events)).
  { unfold run_ipc_loop, send_status.
    apply (respects_bind _ keeps_wf_trans).
    - apply respects_modify_world. intros w0 [Hfresh _]. constructor; cbn.
      + exact Hfresh.
      + discriminate.
    - intros _.
      repeat first [ exact Hserve | respects_step keeps_wf_refl keeps_wf_trans ]. }
  exact (Hloop w).
Qed.

End Loop.

Lemma run_ipc_loop_frames_the_output_witness :
  exists w1 out1,
    run_ipc_loop decode_five ([Stdin env_ok "5"] ++ KeyboardInterrupt :: [Stdin env_ok "5"])
      initial_world
    = (Ok tt, w1, ready_line :: out1 ++ [shutdown_line])
    /\ length out1 = 1%nat.
Proof.
  destruct (run_ipc_loop_frames_the_output decode_five [Stdin env_ok "5"]
              [Stdin env_ok "5"] initial_world eq_refl)
    as (w1 & out1 & Hserve & _ & Hint).
  exists w1, out1. split; [exact Hint |].
  assert (Hlen : length (snd (serve decode_five [Stdin env_ok "5"]
                                (set_handler IPCHandler.init initial_world))) = 1%nat)
    by (vm_compute; reflexivity).
  rewrite Hserve in Hlen. exact Hlen.
Defined.


Lemma run_ipc_loop_well_formed_witness :
  well_formed
    (snd (fst (run_ipc_loop decode_five [Stdin env_ok "5"; Tick 0 (frame_at 1)]
                 initial_world))).
Proof.
  apply (run_ipc_loop_well_formed decode_five).
  constructor; cbn.
  - intros i _. apply lookup_empty.
  - intros cam Hc. discriminate.
Defined.

(* ================================================================== *)
(** ** File names *)
(* ================================================================== *)

Lemma value_of_app (a b : string) (acc : Z) :
  value_of (a ++ b) acc = value_of b (value_of a acc).
Proof. revert acc. induction a as [|c a IH]; intros acc; cbn; [reflexivity | apply IH]. Qed.

Lemma value_of_zeros (k : nat) : value_of (zeros k) 0 = 0.
Proof. induction k as [|k IH]; cbn; [reflexivity | exact IH]. Qed.

Lemma digit_char_value (d : Z) :
  0 <= d < 10 -> Z.of_nat (nat_of_ascii (digit_char d)) - 48 = d.
Proof.
  intros Hd. unfold digit_char. rewrite nat_ascii_embedding by lia. lia.
Qed.

Lemma append_last (s : string) (c : ascii) (acc : string) :
  ((s ++ String c "") ++ acc = s ++ String c acc)%string.
Proof.
  induction s as [|x s IH]; [reflexivity |].
  change (String x ((s ++ String c "") ++ acc) = String x (s ++ String c acc))%string.
  f_equal. exact IH.
Qed.

Lemma dec_digits_value (fuel : nat) :
  forall (n : Z) (acc : string),
    0 <= n < 10 ^ Z.of_nat fuel ->
    exists s,
      dec_digits fuel n acc = s ++ acc
      /\ forall a, value_of s a = a * 10 ^ Z.of_nat (String.length s) + n.
Proof.
  induction fuel as [|k IH]; intros n acc Hn.
  - cbn in Hn. exists "". split; [reflexivity |]. intros a. cbn. lia.
  - cbn [dec_digits].
    assert (Hmod : 0 <= n mod 10 < 10) by (apply Z.mod_pos_bound; lia).
    assert (Hdiv : n = 10 * (n / 10) + n mod 10) by (apply Z.div_mod; lia).
    destruct (Z.eqb_spec (n / 10) 0) as [Hz | Hnz].
    + exists (String (digit_char (n mod 10)) ""). split; [reflexivity |].
      intros a. cbn [value_of String.length]. rewrite digit_char_value by exact Hmod.
      change (Z.of_nat 1) with 1. lia.
    + assert (Hq : 0 <= n / 10 < 10 ^ Z.of_nat k).
      { split; [apply Z.div_pos; lia |].
        apply Z.div_lt_upper_bound; [lia |].
        rewrite Nat2Z.inj_succ, Z.pow_succ_r in Hn by lia. lia. }
      destruct (IH (n / 10) (String (digit_char (n mod 10)) acc) Hq) as (s & Hs & Hv).
      exists (s ++ String (digit_char (n mod 10)) ""). split.
      * rewrite Hs. symmetry. apply append_last.
      * intros a. rewrite value_of_app, Hv. cbn [value_of].
        rewrite digit_char_value by exact Hmod.
        rewrite length_append. cbn [String.length].
        rewrite Nat2Z.inj_add, Z.pow_add_r by lia. change (Z.of_nat 1) with 1.
        rewrite Z.pow_1_r. lia.
Qed.

Lemma decimal_value (n : Z) : 0 <= n -> value_of (decimal n) 0 = n.
Proof.
  intros Hn. unfold decimal.
  assert (Hfuel : 0 <= n < 10 ^ Z.of_nat (S (Z.to_nat (Z.log2 n)))).
  { split; [exact Hn |].
    rewrite Nat2Z.inj_succ, Z2Nat.id by apply Z.log2_nonneg.
    destruct (Z.eq_dec n 0) as [-> | Hpos]; [cbn; lia |].
    pose proof (Z.log2_spec n ltac:(lia)) as [_ Hlt].
    eapply Z.lt_le_trans; [exact Hlt |].
    apply Z.pow_le_mono_l. lia. }
  destruct (dec_digits_value _ n "" Hfuel) as (s & Hs & Hv).
  rewrite Hs, value_of_app, Hv. cbn. lia.
Qed.

Lemma format_06d_value (n : Z) : 0 <= n -> value_of (format_06d n) 0 = n.
Proof.
  intros Hn. unfold format_06d. rewrite (proj2 (Z.ltb_ge n 0)) by lia.
  unfold zero_pad. rewrite value_of_app, value_of_zeros. apply decimal_value, Hn.
Qed.

Lemma append_inv_head (p a b : string) : (p ++ a = p ++ b)%string -> a = b.
Proof.
  induction p as [|c p IH]; intros H; [exact H |].
  change (String c (p ++ a) = String c (p ++ b))%string in H.
  inversion H. auto.
Qed.

Lemma append_inv_tail (t a : string) :
  forall b, (a ++ t = b ++ t)%string -> a = b.
Proof.
  induction a as [|c a IH]; intros b H.
  - destruct b as [|c' b]; [reflexivity |].
    apply (f_equal String.length) in H. rewrite !length_append in H.
    cbn [String.length] in H. lia.
  - destruct b as [|c' b].
    + apply (f_equal String.length) in H. rewrite !length_append in H.
      cbn [String.length] in H. lia.
    + change (String c (a ++ t) = String c' (b ++ t))%string in H.
      inversion H. f_equal. apply IH. assumption.
Qed.

Lemma has_slash_app (a b : string) :
  has_slash (a ++ b) = has_slash a || has_slash b.
Proof.
  induction a as [|c a IH]; [reflexivity |].
  change (has_slash (String c (a ++ b)) = has_slash (String c a) || has_slash b)%string.
  cbn [has_slash]. rewrite IH. apply orb_assoc.
Qed.

Lemma has_slash_zeros (k : nat) : has_slash (zeros k) = false.
Proof. induction k as [|k IH]; [reflexivity | exact IH]. Qed.

Lemma digit_char_no_slash (n : Z) : Ascii.eqb (digit_char (n mod 10)) "/"%char = false.
Proof.
  assert (Hmod : 0 <= n mod 10 < 10) by (apply Z.mod_pos_bound; lia).
  apply Ascii.eqb_neq. intros H. apply (f_equal nat_of_ascii) in H.
  unfold digit_char in H. rewrite nat_ascii_embedding in H by lia.
  change (nat_of_ascii "/"%char) with 47%nat in H. lia.
Qed.

Lemma has_slash_dec_digits (fuel : nat) :
  forall n acc, has_slash (dec_digits fuel n acc) = has_slash acc.
Proof.
  induction fuel as [|k IH]; intros n acc; [reflexivity |].
  cbn [dec_digits].
  destruct (n / 10 =? 0); [| rewrite IH]; cbn [has_slash];
    rewrite digit_char_no_slash; reflexivity.
Qed.

Lemma has_slash_format_06d (n : Z) : has_slash (format_06d n) = false.
Proof.
  unfold format_06d, zero_pad, decimal. destruct (n <? 0).
  - change ("-" ++ ?x)%string with (String "-" x). cbn [has_slash].
    rewrite has_slash_app, has_slash_zeros, has_slash_dec_digits. reflexivity.
  - rewrite has_slash_app, has_slash_zeros, has_slash_dec_digits. reflexivity.
Qed.

Lemma split_slash_name (s : string) : has_slash s = false -> split_slash s = [s].
Proof.
  induction s as [|c s IH]; intros H; [reflexivity |].
  cbn [has_slash] in H. apply orb_false_elim in H as [Hc Hs].
  cbn [split_slash]. rewrite Hc, (IH Hs). reflexivity.
Qed.

Lemma leading_slashes_name (s : string) : has_slash s = false -> leading_slashes s = 0%nat.
Proof.
  destruct s as [|c s]; intros H; [reflexivity |].
  cbn [has_slash] in H. apply orb_false_elim in H as [Hc _].
  cbn [leading_slashes]. rewrite Hc. reflexivity.
Qed.

Lemma is_part_long (s : string) : (2 <= String.length s)%nat -> is_part s = true.
Proof.
  intros H. destruct s as [|a [|b s]]; cbn [String.length] in H; try lia.
  unfold is_part. cbn. destruct (Ascii.eqb a "."); reflexivity.
Qed.

Lemma Path_of_name (s : string) :
  has_slash s = false -> (2 <= String.length s)%nat -> Path_of s = mkPath "" [s].
Proof.
  intros Hs Hlen. unfold Path_of.
  rewrite (leading_slashes_name s Hs), (split_slash_name s Hs).
  cbn [List.filter]. rewrite (is_part_long s Hlen). reflexivity.
Qed.

Lemma frame_path_parts (d : Path) (n : Z) :
  frame_path d n = mkPath (anchor d) (parts d ++ [format_06d n ++ ".png"]).
Proof.
  unfold frame_path, path_div. rewrite Path_of_name.
  - reflexivity.
  - rewrite has_slash_app, has_slash_format_06d. reflexivity.
  - rewrite length_append. cbn [String.length]. lia.
Qed.

(** X19.  The name of a frame file determines the frame number: for
    [n >= 0], reading ["{n:06d}"] back as a decimal number gives [n], so
    within one directory two frame numbers share a file only when they
    are equal, also beyond 999,999 where the name grows longer. *)
Theorem frame_files_are_distinct (d : Path) (a b : Z) :
  0 <= a -> 0 <= b ->
  value_of (format_06d a) 0 = a
  /\ (frame_path d a = frame_path d b -> a = b).
Proof.
  intros Ha Hb. split; [apply format_06d_value, Ha |].
  rewrite !frame_path_parts. intros H. inversion H as [Hparts].
  apply app_inv_head in Hparts. inversion Hparts as [Htext].
  apply append_inv_tail in Htext.
  rewrite <- (format_06d_value a Ha), <- (format_06d_value b Hb), Htext. reflexivity.
Qed.

Lemma frame_files_are_distinct_witness :
  value_of (format_06d 1000000) 0 = 1000000
  /\ frame_path (Path_of "out") 1000000 <> frame_path (Path_of "out") 1.
Proof.
  destruct (frame_files_are_distinct (Path_of "out") 1000000 1) as [Hval Hinj]; [lia | lia |].
  split; [exact Hval |]. intros H. apply Hinj in H. discriminate.
Defined.

(* ================================================================== *)
(** ** The hardware trigger and the start of a session *)
(* ================================================================== *)



Lemma with_nodes_with_nodes (n1 n2 : gmap string Value) (c : Camera) (m : CameraManager) :
  with_nodes n2 (set_nodes n1 c) (with_nodes n1 c m) = with_nodes n2 c m.
Proof. reflexivity. Qed.









(* ================================================================== *)
(** ** The [connect] and [disconnect] commands, and free-running mode *)
(* ================================================================== *)







(* ================================================================== *)
(** ** Replies of the session commands, and malformed commands *)
(* ================================================================== *)





(** X28.  A [configure] command whose [settings] is not an object, or is
    an object with the key [self], changes nothing and is answered with
    one "Command error" line; without [settings] the command stores
    nothing new and is acknowledged as configured. *)
Theorem configure_rejects_malformed_settings (env : Env) (d : list (string * Value))
    (w : World) (cam : nat) :
  get_or d "command" (VStr "") = VStr "configure" ->
  IPCHandler.camera (handler w) = Some cam ->
  (is_dict (get_or d "settings" (VDict [])) = false ->
   handle_command env (VDict d) w
   = (Ok tt, w, [command_error (TypeError "argument after ** must be a mapping")]))
  /\ (forall kwargs,
        get_or d "settings" (VDict []) = VDict kwargs ->
        existsb (fun kv => String.eqb (fst kv) "self") kwargs = true ->
        handle_command env (VDict d) w
        = (Ok tt, w, [command_error (TypeError "got multiple values for argument 'self'")]))
  /\ (forall m,
        heap w !! cam = Some m ->
        dict_lookup "settings" d = None ->
        exists w1 out m1,
          handle_command env (VDict d) w = (Ok tt, w1, (out ++ [configure_reply])%list)
          /\ heap w1 !! cam = Some m1
          /\ settings m1 = settings m).
Proof.
  intros Hcmd Hcam.
  assert (Hdisp : handle_command env (VDict d) w
                  = try_except (_handle_configure env (VDict d))
                      (fun e => send_error [Lit "Command error: "; InterpExn e]) w).
  { rewrite handle_command_dict, Hcmd. reflexivity. }
  split; [| split].
  - intros Hbad. rewrite Hdisp. unfold _handle_configure, py_get.
    fold (get_or d "settings" (VDict [])).
    munfold. rewrite Hcam. cbn.
    destruct (get_or d "settings" (VDict [])); try reflexivity. discriminate.
  - intros kwargs Hset Hself. rewrite Hdisp. unfold _handle_configure, py_get.
    fold (get_or d "settings" (VDict [])). rewrite Hset.
    munfold. rewrite Hcam. cbn. rewrite Hself. reflexivity.
  - intros m Hm Hnone.
    assert (Hset : get_or d "settings" (VDict []) = VDict [])
      by (unfold get_or; rewrite Hnone; reflexivity).
    destruct (configure_run env d [] w cam m Hcmd Hset eq_refl Hcam Hm eq_refl) as (out & Hrun).
    eexists _, out, _. split; [exact Hrun |].
    split; [cbn; apply lookup_insert_eq |].
    rewrite settings_reconfigured. reflexivity.
Qed.

Lemma configure_rejects_malformed_settings_witness :
  handle_command env_ok (command "configure" [("settings", VInt 5)]) idle_world
  = (Ok tt, idle_world, [command_error (TypeError "argument after ** must be a mapping")]).
Proof.
  exact (proj1 (configure_rejects_malformed_settings env_ok
                  [("command", VStr "configure"); ("settings", VInt 5)]
                  idle_world 0%nat eq_refl eq_refl) eq_refl).
Defined.

Section Malformed.

Variable json_loads : string -> Exn + Value.

(** X29.  A line that decodes to a JSON value that is not an object (a
    number, a string, a list, null) is answered with exactly one
    "Command error" line and changes nothing: [cmd.get] raises outside
    the [try] of [handle_command], and the loop catches it. *)
Theorem non_object_commands_are_errors (env : Env) (line : string) (v : Value) (w : World) :
  blank line = false ->
  json_loads (strip line) = inr v ->
  is_dict v = false ->
  handle_command env v w = (Raise (AttributeError "object has no attribute 'get'"), w, [])
  /\ process_line json_loads env line w
     = (Ok tt, w, [command_error (AttributeError "object has no attribute 'get'")]).
Proof.
  intros Hblank Hjson Hv.
  assert (Hraise : handle_command env v w
                   = (Raise (AttributeError "object has no attribute 'get'"), w, [])).
  { destruct v; try reflexivity. discriminate. }
  split; [exact Hraise |].
  unfold process_line. unfold blank in Hblank. rewrite Hblank.
  unfold try_except, bind, lift_sum. rewrite Hjson. unfold ret. rewrite Hraise.
  reflexivity.
Qed.

End Malformed.

Lemma non_object_commands_are_errors_witness :
  process_line decode_five env_ok "5" capturing_world
  = (Ok tt, capturing_world,
     [command_error (AttributeError "object has no attribute 'get'")]).
Proof.
  exact (proj2 (non_object_commands_are_errors decode_five env_ok "5" (VInt 5)
                  capturing_world eq_refl eq_refl eq_refl)).
Defined.

(* ================================================================== *)
(** ** Sessions under a schedule *)
(* ================================================================== *)

Lemma deliveries_app (a b : list LoopEnv) :
  deliveries (a ++ b) = (deliveries a ++ deliveries b)%list.
Proof.
  induction a as [| le a IH]; [reflexivity |]. cbn.
  destruct (retrieve le) as [e | | g]; try exact IH.
  destruct (GrabSucceeded g); [cbn; f_equal |]; exact IH.
Qed.

Lemma number_from_app {A} (a b : list A) :
  forall c,
    number_from c (a ++ b)
    = (number_from c a ++ number_from (c + Z.of_nat (length a)) b)%list.
Proof.
  induction a as [| x a IH]; intros c.
  - cbn. rewrite Z.add_0_r. reflexivity.
  - cbn [app number_from length]. rewrite IH. cbn. do 3 f_equal. lia.
Qed.

Lemma sent_from_app (c : Z) (a b : list LoopEnv) :
  sent_from c (a ++ b)
  = (sent_from c a ++ sent_from (c + Z.of_nat (length (deliveries a))) b)%list.
Proof.
  unfold sent_from. rewrite deliveries_app, number_from_app. apply List.filter_app.
Qed.

Lemma announced_app (cb : option Callback) (id : Value) (d : string)
    (a b : list (Z * (GrabResult * LoopEnv))) :
  announced cb id d (a ++ b) = (announced cb id d a ++ announced cb id d b)%list.
Proof. destruct cb as [[] |]; [apply List.map_app | reflexivity]. Qed.

Lemma passes_cons (a : bool) (p : PC) (le : LoopEnv) (rest : list LoopEnv) :
  passes a p (le :: rest)
  = (match p with InBody => [le] | _ => [] end ++ passes a (step_pc a p) rest)%list.
Proof. destruct p; reflexivity. Qed.

Lemma passes_app (a : bool) (les les' : list LoopEnv) :
  forall p,
    passes a p (les ++ les') = (passes a p les ++ passes a (pc_after a p les) les')%list.
Proof.
  induction les as [| le les IH]; intros p; [reflexivity |].
  cbn [app]. rewrite !passes_cons, IH, <- app_assoc. reflexivity.
Qed.

Lemma pc_after_app (a : bool) (les les' : list LoopEnv) :
  forall p, pc_after a p (les ++ les') = pc_after a (pc_after a p les) les'.
Proof. induction les as [| le les IH]; intros p; [reflexivity | apply IH]. Qed.

Lemma own_steps_app (tid : nat) (s s' : list (nat * LoopEnv)) :
  own_steps tid (s ++ s') = (own_steps tid s ++ own_steps tid s')%list.
Proof. unfold own_steps. rewrite List.filter_app. apply List.map_app. Qed.


Lemma thread_step_finished (tid : nat) (le : LoopEnv) (w : World) (th : Thread) :
  threads w !! tid = Some th -> pc th = Finished -> thread_step tid le w = (Ok tt, w, []).
Proof.
  intros Hth Hpc. unfold thread_step, bind, get_world. rewrite Hth, Hpc. reflexivity.
Qed.

Lemma thread_step_absent (tid : nat) (le : LoopEnv) (w : World) :
  threads w !! tid = None -> thread_step tid le w = (Ok tt, w, []).
Proof. intros Hth. unfold thread_step, bind, get_world. rewrite Hth. reflexivity. Qed.

(** One pass through the body, in terms of the frames it was handed. *)
Lemma body_effect_session (d : string) (cb : option Callback) (m : CameraManager)
    (c : Camera) (le : LoopEnv) :
  camera m = Some c ->
  _frame_callback m = cb ->
  let e := body_effect m c (Path_of d) le in
  let m1 := fst (fst e) in
  has_camera m1 = true
  /\ _output_dir m1 = _output_dir m
  /\ _frame_callback m1 = _frame_callback m
  /\ _capture_active m1 = _capture_active m
  /\ same_session m m1
  /\ frame_count m1 = frame_count m + Z.of_nat (length (deliveries [le]))
  /\ snd (fst e) = map (frame_file d) (sent_from (frame_count m) [le])
  /\ frame_saved_payloads (snd e)
     = announced cb (camera_id m) d (sent_from (frame_count m) [le]).
Proof.
  intros Hc Hcb. cbv zeta. unfold body_effect, sent_from, has_camera. cbn [deliveries].
  destruct (retrieve le) as [e | | g]; cbn.
  - rewrite capture_error_payloads, Hc, Z.add_0_r.
    destruct cb as [[] |]; repeat split.
  - rewrite Hc, Z.add_0_r. destruct cb as [[] |]; repeat split.
  - destruct (GrabSucceeded g); cbn.
    + unfold saved. cbn. destruct (save_raises le) as [e |]; cbn.
      * rewrite capture_error_payloads. destruct cb as [[] |]; repeat split.
      * rewrite Hc, Hcb. destruct cb as [[] |]; repeat split.
    + rewrite Z.add_0_r. destruct cb as [[] |]; repeat split.
Qed.

Lemma same_session_refl (m : CameraManager) : same_session m m.
Proof. split; reflexivity. Qed.

Lemma same_session_trans (m1 m2 m3 : CameraManager) :
  same_session m1 m2 -> same_session m2 m3 -> same_session m1 m3.
Proof. intros [] []. split; congruence. Qed.

Ltac scheduled_thread Hth Hothers :=
  try (apply list_lookup_insert_eq; apply lookup_lt_Some in Hth; exact Hth);
  try (let j := fresh "j" in
       let th := fresh "th" in
       let Hj := fresh "Hj" in
       let Hjne := fresh "Hjne" in
       intros j th Hj Hjne; rewrite list_lookup_insert_ne in Hj by auto;
       exact (Hothers j th Hj Hjne)).

(** One step of a schedule in a session. *)
Lemma scheduled_step (self tid : nat) (d : string) (cb : option Callback) (a : bool)
    (p : PC) (w : World) (m : CameraManager) (i : nat) (le : LoopEnv) :
  scheduled self tid d cb a p w m ->
  let own := own_steps tid [(i, le)] in
  exists w' out' m',
    thread_step i le w = (Ok tt, w', out')
    /\ scheduled self tid d cb a (pc_after a p own) w' m'
    /\ same_session m m'
    /\ frame_count m' = frame_count m + Z.of_nat (length (deliveries (passes a p own)))
    /\ files w' = (files w ++ map (frame_file d) (sent_from (frame_count m) (passes a p own)))%list
    /\ frame_saved_payloads out'
       = announced cb (camera_id m) d (sent_from (frame_count m) (passes a p own)).
Proof.
  intros [Hth Hothers Hm Hcam Hdir Hcb Hact]. cbv zeta. unfold own_steps. cbn [List.filter fst].
  destruct (Nat.eqb_spec i tid) as [-> | Hne].
  - cbn [map snd pc_after].
    pose proof Hcam as Hcam'.
    unfold has_camera in Hcam. destruct (camera m) as [c |] eqn:Hc; [| discriminate].
    rewrite (thread_step_run tid le w (mkThread self p) m c (Path_of d) Hth Hm Hc Hdir).
    cbn [pc target]. destruct p.
    + eexists _, _, m. split; [reflexivity |].
      split; [| split; [apply same_session_refl |]].
      * unfold next_pc. rewrite Hact. cbn [step_pc].
        split; cbn [threads heap set_threads]; auto; scheduled_thread Hth Hothers.
      * cbn. rewrite Z.add_0_r, app_nil_r.
        split; [reflexivity |]. split; [reflexivity |].
        destruct (_capture_active m); destruct cb as [[] |]; reflexivity.
    + destruct (body_effect_session d cb m c le Hc Hcb)
        as (H1 & H2 & H3 & H4 & H5 & H6 & H7 & H8).
      eexists _, _, _. split; [reflexivity |].
      split; [| split; [exact H5 |]].
      * cbn [step_pc].
        split; cbn [threads heap set_threads updated]; auto;
          scheduled_thread Hth Hothers; try apply lookup_insert_eq; congruence.
      * cbn [passes files set_threads updated]. rewrite H7.
        split; [exact H6 |]. split; [reflexivity | exact H8].
    + eexists _, _, m. split; [reflexivity |].
      split; [split; auto |]. split; [apply same_session_refl |].
      cbn. rewrite Z.add_0_r, app_nil_r. destruct cb as [[] |]; repeat split.
  - cbn [map pc_after passes].
    assert (Hskip : thread_step i le w = (Ok tt, w, [])).
    { destruct (threads w !! i) as [th |] eqn:Hi.
      - apply (thread_step_finished i le w th Hi), (Hothers i th Hi Hne).
      - apply thread_step_absent, Hi. }
    rewrite Hskip. exists w, [], m. split; [reflexivity |].
    split; [split; auto |]. split; [apply same_session_refl |].
    cbn. rewrite Z.add_0_r, app_nil_r. destruct cb as [[] |]; repeat split.
Qed.

(** A schedule in a session: the frames the own thread is handed in its
    passes through the body are counted, and those that are saved are
    written and announced, in order. *)
Lemma scheduled_run (self tid : nat) (d : string) (cb : option Callback) (a : bool)
    (steps : list (nat * LoopEnv)) :
  forall p w m,
    scheduled self tid d cb a p w m ->
    let les := passes a p (own_steps tid steps) in
    exists w' out' m',
      run_threads steps w = (Ok tt, w', out')
      /\ scheduled self tid d cb a (pc_after a p (own_steps tid steps)) w' m'
      /\ same_session m m'
      /\ frame_count m' = frame_count m + Z.of_nat (length (deliveries les))
      /\ files w' = (files w ++ map (frame_file d) (sent_from (frame_count m) les))%list
      /\ frame_saved_payloads out'
         = announced cb (camera_id m) d (sent_from (frame_count m) les).
Proof.
  induction steps as [| [i le] steps IH]; intros p w m Hs; cbv zeta.
  - exists w, [], m. split; [reflexivity |]. split; [exact Hs |].
    split; [apply same_session_refl |].
    cbn. rewrite Z.add_0_r, app_nil_r. destruct cb as [[] |]; repeat split.
  - change ((i, le) :: steps) with ([(i, le)] ++ steps)%list.
    rewrite own_steps_app, passes_app, pc_after_app.
    destruct (scheduled_step self tid d cb a p w m i le Hs)
      as (w1 & out1 & m1 & Hrun1 & Hs1 & Hsame1 & Hfc1 & Hfiles1 & Hpay1).
    destruct (IH _ w1 m1 Hs1) as (w2 & out2 & m2 & Hrun2 & Hs2 & Hsame2 & Hfc2 & Hfiles2 & Hpay2).
    exists w2, (out1 ++ out2)%list, m2.
    split; [cbn [app run_threads]; unfold bind; rewrite Hrun1, Hrun2; reflexivity |].
    split; [exact Hs2 |]. split; [exact (same_session_trans _ _ _ Hsame1 Hsame2) |].
    rewrite sent_from_app, deliveries_app, length_app, Nat2Z.inj_add, List.map_app,
      announced_app, frame_saved_payloads_app.
    rewrite Hfc2, Hfiles2, Hpay2, Hfiles1, Hpay1, Hfc1.
    rewrite (same_camera_id _ _ Hsame1), <- app_assoc.
    split; [lia |]. split; reflexivity.
Qed.

(** [stop_capture] on a capturing manager, given what the threads do
    while [join] waits. *)
Lemma stop_capture_joined (env : Env) (self tid : nat) (w w2 : World) (out2 : list Line)
    (m m2 : CameraManager) :
  heap w !! self = Some m ->
  is_capturing m = true ->
  _capture_thread m = Some tid ->
  run_threads (join_window env)
    (set_heap (<[self := set_capture_active false m]> (heap w)) w) = (Ok tt, w2, out2) ->
  heap w2 !! self = Some m2 ->
  has_camera m2 = true ->
  exists m3,
    stop_capture env self w
    = (Ok (CaptureResult.mk (camera_id m2) true (frame_count m2)
             (match _output_dir m2 with Some d => path_str d | None => "" end)
             "" "" 0%float None),
       set_heap (<[self := m3]> (heap w2)) w2,
       (out2 ++ [capture_stopped_line m2])%list)
    /\ frame_count m3 = frame_count m2
    /\ camera_id m3 = camera_id m2
    /\ has_camera m3 = true
    /\ _output_dir m3 = _output_dir m2
    /\ _frame_callback m3 = _frame_callback m2
    /\ _capture_active m3 = _capture_active m2
    /\ is_capturing m3 = false
    /\ _capture_thread m3 = None.
Proof.
  intros Hm Hcap Hth Hj Hm2 Hcam2.
  unfold has_camera in Hcam2. destruct (camera m2) as [c2 |] eqn:Hc2; [| discriminate].
  unfold stop_capture, join, capture_stopped_line. munfold. mrun.
  destruct (grabbing c2) eqn:Hg2; mrun.
  - eexists. split; [rewrite ?app_nil_r; unfold set_heap; cbn; rewrite !insert_insert_eq; reflexivity |].
    cbn. unfold has_camera. cbn. repeat split.
  - eexists. split; [rewrite ?app_nil_r; unfold set_heap; cbn; rewrite !insert_insert_eq; reflexivity |].
    cbn. unfold has_camera. cbn. rewrite Hc2. repeat split.
Qed.

(** The session an accepted [start_capture] opens when every earlier
    thread has returned. *)
Lemma session_scheduled (env : Env) (self : nat) (d : string) (cb : option Callback)
    (w w1 : World) (out1 : list Line) :
  start_capture env self (VStr d) cb w = (Ok true, w1, out1) ->
  Forall (fun th => pc th = Finished) (threads w) ->
  exists m1,
    scheduled self (length (threads w)) d cb true AtWhile w1 m1
    /\ frame_count m1 = 0
    /\ is_capturing m1 = true
    /\ _capture_thread m1 = Some (length (threads w))
    /\ files w1 = files w.
Proof.
  intros Hstart Hfin.
  destruct (start_capture_accepted _ _ _ _ _ _ _ Hstart) as (m1 & Hs).
  destruct Hs as [Hm1 (d' & Hd' & Hdir) Hcb Hfc Hcap Hact Hcam Hth Hths Hfiles].
  inversion Hd'; subst d'.
  exists m1. split; [| auto]. split; auto.
  - rewrite Hths. rewrite lookup_app_r by lia. rewrite Nat.sub_diag. reflexivity.
  - intros i th Hi Hne. rewrite Hths in Hi.
    destruct (lookup_app_Some (threads w) [mkThread self AtWhile] i th) as [Hcases _].
    destruct (Hcases Hi) as [Hold | [Hge Hnew]].
    + rewrite List.Forall_forall in Hfin. apply Hfin.
      apply list_elem_of_In. apply (list_elem_of_lookup_2 _ i), Hold.
    + destruct (i - length (threads w))%nat as [| k] eqn:Hk; [lia |]. discriminate.
Qed.

(** Replacing the manager of a session by one that agrees with it on
    what the loop reads. *)
Lemma scheduled_replace (self tid : nat) (d : string) (cb : option Callback) (a a' : bool)
    (p : PC) (w : World) (m m' : CameraManager) :
  scheduled self tid d cb a p w m ->
  has_camera m' = true ->
  _output_dir m' = _output_dir m ->
  _frame_callback m' = _frame_callback m ->
  _capture_active m' = a' ->
  scheduled self tid d cb a' p (set_heap (<[self := m']> (heap w)) w) m'.
Proof.
  intros [Hth Hothers Hm Hcam Hdir Hcb Hact] Hcam' Hdir' Hcb' Hact'.
  split; cbn; auto; try congruence. apply lookup_insert_eq.
Qed.

Lemma scheduled_counter (self tid : nat) (d : string) (cb : option Callback) (a : bool)
    (p : PC) (w : World) (m : CameraManager) :
  scheduled self tid d cb a p w m -> counter_at w self = Some (frame_count m).
Proof. intros Hs. unfold counter_at. rewrite (sch_object _ _ _ _ _ _ _ _ Hs). reflexivity. Qed.

(** A session from its start to the return of [stop_capture]: [steps] is
    what the threads do before the call, the join window of [env'] what
    they do while [join] waits. *)
Lemma session_stopped (env : Env) (self : nat) (d : string) (cb : option Callback)
    (w w1 : World) (out1 : list Line) (steps : list (nat * LoopEnv)) (env' : Env) :
  start_capture env self (VStr d) cb w = (Ok true, w1, out1) ->
  Forall (fun th => pc th = Finished) (threads w) ->
  let tid := length (threads w) in
  let p1 := pc_after true AtWhile (own_steps tid steps) in
  let p2 := pc_after false p1 (own_steps tid (join_window env')) in
  let before := passes true AtWhile (own_steps tid steps) in
  let during := passes false p1 (own_steps tid (join_window env')) in
  exists id w2 out2 m3 w3 out3,
    run_threads steps w1 = (Ok tt, w2, out2)
    /\ stop_capture env' self w2
       = (Ok (CaptureResult.mk id true (frame_count m3) (path_str (Path_of d))
                "" "" 0%float None), w3, out3)
    /\ scheduled self tid d cb false p2 w3 m3
    /\ camera_id m3 = id
    /\ is_capturing m3 = false
    /\ _capture_thread m3 = None
    /\ counter_at w2 self = Some (Z.of_nat (length (deliveries before)))
    /\ frame_count m3 = Z.of_nat (length (deliveries (before ++ during)))
    /\ files w2 = (files w1 ++ map (frame_file d) (sent_from 0 before))%list
    /\ files w3 = (files w1 ++ map (frame_file d) (sent_from 0 (before ++ during)))%list
    /\ frame_saved_payloads out2 = announced cb id d (sent_from 0 before)
    /\ frame_saved_payloads (out2 ++ out3)
       = announced cb id d (sent_from 0 (before ++ during)).
Proof.
  intros Hstart Hfin tid p1 p2 before during.
  destruct (session_scheduled env self d cb w w1 out1 Hstart Hfin)
    as (m1 & Hs1 & Hfc1 & Hcap1 & Hth1 & _).
  fold tid in Hs1, Hth1.
  destruct (scheduled_run self tid d cb true steps AtWhile w1 m1 Hs1)
    as (w2 & out2 & m2 & Hrun2 & Hs2 & Hsame2 & Hfc2 & Hfiles2 & Hpay2).
  fold p1 in Hs2. fold before in Hfc2, Hfiles2, Hpay2. rewrite Hfc1 in *.
  destruct Hsame2 as [Hid2 Hcap2 Hth2]. rewrite Hcap1 in Hcap2. rewrite Hth1 in Hth2.
  pose proof Hs2 as [_ _ Hm2 Hcam2 Hdir2 Hcb2 _].
  assert (Hsa : scheduled self tid d cb false p1
                  (set_heap (<[self := set_capture_active false m2]> (heap w2)) w2)
                  (set_capture_active false m2))
    by (apply (scheduled_replace self tid d cb true false p1 w2 m2 _ Hs2); auto).
  destruct (scheduled_run self tid d cb false (join_window env') p1 _ _ Hsa)
    as (wb & outb & mb & Hrunb & Hsb & Hsameb & Hfcb & Hfilesb & Hpayb).
  fold p2 in Hsb. fold during in Hfcb, Hfilesb, Hpayb.
  destruct Hsameb as [Hidb _ _].
  pose proof Hsb as [_ _ Hmb Hcamb Hdirb Hcbb Hactb].
  destruct (stop_capture_joined env' self tid w2 wb outb m2 mb Hm2 Hcap2 Hth2 Hrunb Hmb Hcamb)
    as (m3 & Hstop & Hfc3 & Hid3 & Hcam3 & Hdir3 & Hcb3 & Hact3 & Hcap3 & Hth3).
  rewrite Hdirb in Hstop.
  exists (camera_id m1), w2, out2, m3. eexists _, _.
  split; [exact Hrun2 |].
  split; [rewrite Hstop, Hfc3; cbn in Hidb; rewrite Hidb, Hid2; reflexivity |].
  split; [apply (scheduled_replace self tid d cb false false p2 wb mb m3 Hsb); congruence |].
  split; [cbn in Hidb; congruence |]. split; [exact Hcap3 |]. split; [exact Hth3 |].
  split; [rewrite (scheduled_counter _ _ _ _ _ _ _ _ Hs2), Hfc2; f_equal; lia |].
  cbn [frame_count set_capture_active camera_id files set_heap] in Hfcb, Hfilesb, Hpayb.
  rewrite Hfc2 in Hfcb, Hfilesb, Hpayb. cbn [Z.add] in Hfcb, Hfilesb, Hpayb.
  rewrite sent_from_app, deliveries_app, length_app, Nat2Z.inj_add, List.map_app,
    announced_app. cbn [Z.add].
  split; [lia |]. split; [exact Hfiles2 |].
  split; [cbn [files set_heap]; rewrite Hfilesb, Hfiles2, <- app_assoc; reflexivity |].
  split; [exact Hpay2 |].
  rewrite !frame_saved_payloads_app, Hpay2, Hpayb, Hid2. cbn. rewrite app_nil_r.
  reflexivity.
Qed.

Lemma announced_numbers (id : Value) (d : string)
    (sent : list (Z * (GrabResult * LoopEnv))) (out : list Line) :
  frame_saved_payloads out = announced (Some on_frame) id d sent ->
  frame_saved_numbers out = map fst sent.
Proof.
  intros H. rewrite frame_saved_numbers_payloads, H. apply payload_numbers_notifications.
Qed.

Lemma sent_from_sorted (c : Z) (les : list LoopEnv) :
  StronglySorted Z.lt (map fst (sent_from c les)).
Proof. apply map_fst_sorted, filter_sorted, number_from_sorted. Qed.

Lemma sent_from_all_saved (les : list LoopEnv) :
  Forall (fun le => save_raises le = None) les ->
  map fst (sent_from 0 les) = map Z.of_nat (seq 1 (length (deliveries les))).
Proof.
  intros Hall. unfold sent_from. rewrite (filter_all saved _ (all_saved les 0 Hall)).
  rewrite number_from_fst. apply List.map_ext. intros i. lia.
Qed.

(** C1 (amended).  In the session an accepted [start_capture] opens while
    no earlier acquisition thread is alive, the thread of the session,
    under any schedule, numbers the frames it is handed 1, 2, 3, ... in
    the order of delivery.  A frame whose save succeeds is written to
    [Path(output_dir) / "<number>.png"], the number zero-padded to six
    digits (exactly six below 1,000,000), and announced by one
    [FRAME_SAVED] line carrying that number and that path; a frame whose
    save raises is not announced, and its number is not reused.  So the
    numbers sent are strictly increasing, without duplicates, and when
    every save succeeds the k-th [FRAME_SAVED] line carries the number k.
    The same holds of all the lines of the session together: those
    printed before [stop_capture], while its [join] waits, and by an
    iteration still in flight when the [join] timed out. *)
Theorem frame_numbers_follow_deliveries :
  (forall env self d w w1 out1 steps,
     start_capture env self (VStr d) (Some on_frame) w = (Ok true, w1, out1) ->
     Forall (fun th => pc th = Finished) (threads w) ->
     let les := passes true AtWhile (own_steps (length (threads w)) steps) in
     let sent := List.filter saved (number_from 0 (deliveries les)) in
     exists id w2 out2,
       run_threads steps w1 = (Ok tt, w2, out2)
       /\ frame_saved_payloads out2 = map (notification id d) sent
       /\ files w2 = (files w1 ++ map (frame_file d) sent)%list
       /\ counter_at w2 self = Some (Z.of_nat (length (deliveries les)))
       /\ frame_saved_numbers out2 = map fst sent
       /\ StronglySorted Z.lt (frame_saved_numbers out2)
       /\ (Forall (fun le => save_raises le = None) les ->
           frame_saved_numbers out2 = map Z.of_nat (seq 1 (length (deliveries les)))))
  /\ (forall env self d w w1 out1 steps env' later,
        start_capture env self (VStr d) (Some on_frame) w = (Ok true, w1, out1) ->
        Forall (fun th => pc th = Finished) (threads w) ->
        let tid := length (threads w) in
        let p1 := pc_after true AtWhile (own_steps tid steps) in
        let p2 := pc_after false p1 (own_steps tid (join_window env')) in
        let les := (passes true AtWhile (own_steps tid steps)
                      ++ passes false p1 (own_steps tid (join_window env'))
                      ++ passes false p2 (own_steps tid later))%list in
        let sent := List.filter saved (number_from 0 (deliveries les)) in
        exists id w2 out2 r w3 out3 w4 out4,
          run_threads steps w1 = (Ok tt, w2, out2)
          /\ stop_capture env' self w2 = (Ok r, w3, out3)
          /\ run_threads later w3 = (Ok tt, w4, out4)
          /\ frame_saved_payloads (out2 ++ out3 ++ out4) = map (notification id d) sent
          /\ files w4 = (files w1 ++ map (frame_file d) sent)%list
          /\ frame_saved_numbers (out2 ++ out3 ++ out4) = map fst sent
          /\ StronglySorted Z.lt (frame_saved_numbers (out2 ++ out3 ++ out4))
          /\ (Forall (fun le => save_raises le = None) les ->
              frame_saved_numbers (out2 ++ out3 ++ out4)
              = map Z.of_nat (seq 1 (length (deliveries les)))))
  /\ (forall n, 0 <= n < 1000000 -> String.length (format_06d n) = 6%nat)
  /\ (forall d n x,
        fst (frame_file d (n, x))
        = mkPath (anchor (Path_of d)) (parts (Path_of d) ++ [format_06d n ++ ".png"])).
Proof.
  split; [| split; [| split; [exact format_06d_width |]]].
  - intros env self d w w1 out1 steps Hstart Hfin les sent.
    destruct (session_scheduled env self d (Some on_frame) w w1 out1 Hstart Hfin)
      as (m1 & Hs1 & Hfc1 & _).
    destruct (scheduled_run self _ d (Some on_frame) true steps AtWhile w1 m1 Hs1)
      as (w2 & out2 & m2 & Hrun2 & Hs2 & _ & Hfc2 & Hfiles2 & Hpay2).
    rewrite Hfc1 in *. fold les in Hfc2, Hfiles2, Hpay2.
    pose proof (announced_numbers _ _ _ _ Hpay2) as Hnum.
    exists (camera_id m1), w2, out2.
    split; [exact Hrun2 |]. split; [exact Hpay2 |]. split; [exact Hfiles2 |].
    split; [rewrite (scheduled_counter _ _ _ _ _ _ _ _ Hs2), Hfc2; f_equal; lia |].
    split; [exact Hnum |]. rewrite Hnum.
    split; [apply sent_from_sorted | apply sent_from_all_saved].
  - intros env self d w w1 out1 steps env' later Hstart Hfin tid p1 p2 les sent.
    destruct (session_stopped env self d (Some on_frame) w w1 out1 steps env' Hstart Hfin)
      as (id & w2 & out2 & m3 & w3 & out3 & Hrun2 & Hstop & Hs3 & Hid3 & _ & _ & _
          & Hfc3 & _ & Hfiles3 & _ & Hpay3).
    fold tid p1 p2 in Hs3, Hfc3, Hfiles3, Hpay3.
    destruct (scheduled_run self tid d (Some on_frame) false later p2 w3 m3 Hs3)
      as (w4 & out4 & m4 & Hrun4 & _ & _ & _ & Hfiles4 & Hpay4).
    assert (Hpay : frame_saved_payloads (out2 ++ out3 ++ out4)
                   = announced (Some on_frame) id d (sent_from 0 les)).
    { rewrite app_assoc, frame_saved_payloads_app, Hpay3, Hpay4, Hid3, Hfc3.
      unfold les. rewrite (app_assoc (passes true AtWhile _)), (sent_from_app 0 (_ ++ _)).
      rewrite announced_app. reflexivity. }
    pose proof (announced_numbers _ _ _ _ Hpay) as Hnum.
    exists id, w2, out2. eexists _, w3, out3, w4, out4.
    split; [exact Hrun2 |]. split; [exact Hstop |]. split; [exact Hrun4 |].
    split; [exact Hpay |].
    split.
    { rewrite Hfiles4, Hfiles3, Hfc3, <- app_assoc, <- List.map_app.
      unfold sent, les.
      rewrite (app_assoc (passes true AtWhile _)).
      fold (sent_from 0 ((passes true AtWhile (own_steps tid steps)
                            ++ passes false p1 (own_steps tid (join_window env')))
                           ++ passes false p2 (own_steps tid later))).
      rewrite (sent_from_app 0 (_ ++ _)). reflexivity. }
    split; [exact Hnum |]. rewrite Hnum.
    split; [apply sent_from_sorted | apply sent_from_all_saved].
  - intros d n [g le]. cbn [frame_file fst].
    exact (frame_path_parts (Path_of d) n).
Qed.

Lemma frame_numbers_follow_deliveries_witness :
  exists w2 out2,
    run_threads
      [(0%nat, frame_at 0); (0%nat, frame_at 1); (1%nat, frame_at 1);
       (0%nat, frame_at 0); (0%nat, frame_unsaved 2);
       (0%nat, frame_at 0); (0%nat, frame_failed 3);
       (0%nat, frame_at 0); (0%nat, frame_at 4)]
      capturing_world = (Ok tt, w2, out2)
    /\ frame_saved_numbers out2 = [1; 3]
    /\ map (fun f => path_str (fst f)) (files w2) = ["out/000001.png"; "out/000003.png"]
    /\ counter_at w2 0 = Some 3
    /\ String.length (format_06d 3) = 6%nat.
Proof.
  destruct frame_numbers_follow_deliveries as (Hrun & _ & Hwidth & _).
  destruct (Hrun env_ok 0%nat "out" idle_world capturing_world
              (snd (start_capture env_ok 0 (VStr "out") (Some on_frame) idle_world))
              [(0%nat, frame_at 0); (0%nat, frame_at 1); (1%nat, frame_at 1);
               (0%nat, frame_at 0); (0%nat, frame_unsaved 2);
               (0%nat, frame_at 0); (0%nat, frame_failed 3);
               (0%nat, frame_at 0); (0%nat, frame_at 4)])
    as (id & w2 & out2 & Hrun2 & _ & Hfiles & Hcount & Hnum & _).
  - vm_compute. reflexivity.
  - vm_compute. constructor.
  - exists w2, out2. split; [exact Hrun2 |].
    split; [rewrite Hnum; vm_compute; reflexivity |].
    split; [rewrite Hfiles; vm_compute; reflexivity |].
    split; [rewrite Hcount; vm_compute; reflexivity |].
    apply Hwidth. lia.
Defined.

(** C1, as stated, fails twice.  When the save of the first frame raises,
    the first [FRAME_SAVED] line of the session carries the number 2; and
    the frame after the 999,999th is saved under a seven-digit name. *)
Lemma frame_numbers_counterexample :
  let out := printed_by (start_session ++ iteration 0 (frame_unsaved 1)
                           ++ iteration 0 (frame_at 2))%list in
  frame_saved_numbers out = [2]
  /\ frame_saved_numbers out <> map Z.of_nat (seq 1 (length (frame_saved_numbers out)))
  /\ map (fun f => path_str (fst f))
       (files (snd (fst (_capture_loop_body 0 (frame_at 1) late_world))))
     = ["out/1000000.png"]
  /\ String.length (format_06d 1000000) <> 6%nat.
Proof.
  cbv zeta. split; [vm_compute; reflexivity |].
  split; [vm_compute; discriminate |].
  split; [vm_compute; reflexivity | vm_compute; discriminate].
Qed.



